(** * plugin-fair: wallet provider, token resolution, transfers and swaps

    A shallow embedding of the TypeScript sources

      - [src/config/pluginConfig.ts]  (PluginConfigManager)
      - [src/providers/wallet.ts]     (WalletProvider, BiteMiddleware)
      - [src/actions/swap.ts]         (SwapAction)
      - [src/actions/transfer.ts]     (TransferAction)
      - [src/actions/getBalance.ts]   (GetBalanceAction)

    Conventions of the embedding.

      - A JavaScript [string] is a Rocq [string]; the case conversions are
        the ASCII ones (token symbols and addresses are ASCII).
      - A JavaScript [number] is an IEEE 754 binary64 value, [spec_float]
        with precision 53 and maximal exponent 1024.
      - A [bigint] is a [Z]; bigint division truncates, so it is [Z.quot].
      - An object used as a dictionary is a [gmap] over its own keys.
      - Everything reached through the network or through a library that is
        not part of the repository (viem, the BITE SDK, the RPC node) is a
        field of the record [World]; its answers may depend on the calls made
        so far, the history, a list of [event]s.
      - A method that may throw or await is a computation of the monad [M]:
        from the world and the history it gives [Ok] or [Throw] and the
        external calls that it made, in order. *)

From Stdlib Require Import ZArith Lia Bool List String Ascii SpecFloat.
From stdpp Require Import base gmap strings.
Import ListNotations.

Local Open Scope string_scope.
Local Open Scope list_scope.
Local Open Scope Z_scope.

(* ===================================================================== *)
(** ** JavaScript strings *)
(* ===================================================================== *)

Module Js.

Definition is_upper (c : ascii) : bool :=
  let n := nat_of_ascii c in (65 <=? n)%nat && (n <=? 90)%nat.

Definition is_lower (c : ascii) : bool :=
  let n := nat_of_ascii c in (97 <=? n)%nat && (n <=? 122)%nat.

Definition lower_ascii (c : ascii) : ascii :=
  if is_upper c then ascii_of_nat (nat_of_ascii c + 32) else c.

Definition upper_ascii (c : ascii) : ascii :=
  if is_lower c then ascii_of_nat (nat_of_ascii c - 32) else c.

(** [s.toLowerCase()] *)
Fixpoint toLowerCase (s : string) : string :=
  match s with
  | EmptyString => EmptyString
  | String c s' => String (lower_ascii c) (toLowerCase s')
  end.

(** [s.toUpperCase()] *)
Fixpoint toUpperCase (s : string) : string :=
  match s with
  | EmptyString => EmptyString
  | String c s' => String (upper_ascii c) (toUpperCase s')
  end.

(** [s.startsWith(p)] *)
Definition startsWith (s p : string) : bool := String.prefix p s.

(** White space removed by [trim]: tab, line feed, vertical tab, form
    feed, carriage return and space. *)
Definition is_space (c : ascii) : bool :=
  let n := nat_of_ascii c in
  ((9 <=? n)%nat && (n <=? 13)%nat) || (n =? 32)%nat.

Fixpoint trimStart (s : string) : string :=
  match s with
  | EmptyString => EmptyString
  | String c s' => if is_space c then trimStart s' else s
  end.

Fixpoint trimEnd (s : string) : string :=
  match s with
  | EmptyString => EmptyString
  | String c s' =>
      match trimEnd s' with
      | EmptyString => if is_space c then EmptyString else String c EmptyString
      | t => String c t
      end
  end.

(** [s.trim()] *)
Definition trim (s : string) : string := trimEnd (trimStart s).

(** [s.includes(c)] for a one-character needle. *)
Fixpoint includes_char (s : string) (c : ascii) : bool :=
  match s with
  | EmptyString => false
  | String d s' => Ascii.eqb d c || includes_char s' c
  end.

(** [list.includes(s)] on an array of strings. *)
Definition includes (l : list string) (s : string) : bool :=
  existsb (String.eqb s) l.

(** [s.includes(needle)] for a string needle: [needle] occurs in [s]. *)
Fixpoint includes_str (s needle : string) : bool :=
  String.prefix needle s ||
  match s with
  | EmptyString => false
  | String _ s' => includes_str s' needle
  end.

(** Truthiness of a string: only the empty string is falsy. *)
Definition truthy (s : string) : bool := negb (String.eqb s "").

(** Truthiness of an optional string ([undefined] and [null] are falsy). *)
Definition truthy_opt (s : option string) : bool :=
  match s with
  | Some s => truthy s
  | None => false
  end.

(** Truthiness of an optional boolean flag. *)
Definition truthy_flag (b : option bool) : bool :=
  match b with
  | Some true => true
  | _ => false
  end.

End Js.

(* ===================================================================== *)
(** ** JavaScript numbers: IEEE 754 binary64 *)
(* ===================================================================== *)

Module Num.

Definition prec : Z := 53.
Definition emax : Z := 1024.

Abbreviation number := spec_float (only parsing).

(** A well-formed binary64 value. *)
Definition valid (x : number) : bool := valid_binary prec emax x.

Definition sub : number -> number -> number := SFsub prec emax.
Definition mul : number -> number -> number := SFmul prec emax.

(** The literals used by the sources. *)
Definition zero : number := S754_zero false.
Definition fifty : number := S754_finite false 7036874417766400 (-47).
Definition hundred : number := S754_finite false 7036874417766400 (-46).
(** [0.5] *)
Definition half : number := S754_finite false 4503599627370496 (-53).
(** [60] and [-1], the slippages of the test-suite. *)
Definition sixty : number := S754_finite false 8444249301319680 (-47).
Definition minus_one : number := S754_finite true 4503599627370496 (-52).

(** [x < y], [x > y], [x <= y]; every comparison with [NaN] is false. *)
Definition lt (x y : number) : bool := SFltb x y.
Definition gt (x y : number) : bool := SFltb y x.
Definition le (x y : number) : bool := SFleb x y.

(** Truthiness of a number: [0], [-0] and [NaN] are falsy. *)
Definition truthy (x : number) : bool :=
  match x with
  | S754_zero _ | S754_nan => false
  | _ => true
  end.

(** [BigInt(Math.floor(x))]: [Math.floor] keeps [NaN] and the infinities,
    on which [BigInt] throws a [RangeError]; on a finite number the result
    is the largest integer below it. *)
Definition BigInt_floor (x : number) : option Z :=
  match x with
  | S754_zero _ => Some 0
  | S754_finite s m e =>
      if 0 <=? e then Some (cond_Zopp s (Zpos m * 2 ^ e))
      else Some (cond_Zopp s (Zpos m) / 2 ^ (- e))
  | S754_infinity _ | S754_nan => None
  end.

End Num.

(* ===================================================================== *)
(** ** Errors and results *)
(* ===================================================================== *)

(** The external calls that can reject or throw. *)
Inductive external : Type :=
| ExtReadContract
| ExtGetBalance
| ExtSendTransaction
| ExtWaitForReceipt
| ExtParseUnits
| ExtEncodeFunctionData.

(** One constructor per [throw] site of the sources; the comment gives the
    message and the error kind of the specification. *)
Inductive error : Type :=
| ChainNotRegistered          (* 'Chain with that name not registered' *)
| TokenNotRegistered          (* 'Token used not registered on the chain config' *)
| NoUniswapRouter             (* "Chain doesn't have uniswapV2Router contract on the config" *)
| NoChainConfigured           (* 'Config plugin requires at least one chain configured' *)
| MissingChainId (chainName : string)
| MissingRpc (chainName : string)
| ChainNotSupported (chainName : string)  (* UnsupportedChain *)
| TokensRequired              (* 'Both inputToken and outputToken are required' *)
| SameTokenSwap               (* 'Cannot swap the same token' *)
| MissingAmount               (* 'Amount is required' *)
| AmountNotPositive           (* swap: 'Amount must be greater than 0' *)
| InvalidSlippage             (* 'Slippage must be between 0 and 50 percent' *)
| UnsupportedToken (token chainName : string)  (* 'Token ... is not supported on ...' *)
| QuoteUnavailable            (* 'Unable to calculate swap amounts. ...' *)
| SwapNotSubmitted            (* 'Swap transaction hash not received' *)
| MissingRecipient            (* 'To address is required' *)
| ZeroAmount                  (* transfer: 'Amount must be greater than 0' *)
| NegativeAmount              (* 'Amount cannot be negative' *)
| TransactionNotSubmitted     (* 'Get transaction hash failed' *)
| AddressRequired             (* 'Address is required for getting balance' *)
| BalanceTokenNotSupported (token : string)  (* 'Token ... is not supported.' *)
| EncryptionFailed            (* 'Failed to encrypt transaction: ...' *)
| Rejected (call : external)  (* an awaited external call rejected *)
| TypeError                   (* a property read on [undefined] *)
| RangeError.                 (* [BigInt] of a number that is not an integer *)

Inductive result (A : Type) : Type :=
| Ok (a : A)
| Throw (e : error).

Arguments Ok {A} a.
Arguments Throw {A} e.

Definition rbind {A B : Type} (r : result A) (k : A -> result B) : result B :=
  match r with
  | Ok a => k a
  | Throw e => Throw e
  end.

Definition is_ok {A : Type} (r : result A) : bool :=
  match r with
  | Ok _ => true
  | Throw _ => false
  end.

(* ===================================================================== *)
(** ** Data model ([src/types/index.ts]) *)
(* ===================================================================== *)

Inductive BiteConfig : Type := manual | automatic.

Record ChainConfig : Type := {
  chainId : string;
  nativeToken : string;
  rpc : string;
  explorerUrl : string;
  tokens : gmap string string;
  uniswapV2Router : string;
  biteDefault : bool
}.

Record PluginConfig : Type := {
  chains : gmap string ChainConfig
}.

(** The value held by a field typed as an address.  [Pending a] is a promise
    that nobody awaited and that resolves to [a]. *)
Inductive address_ref : Type :=
| Plain (a : string)
| Pending (a : string).

(** The functions of the router and of an ERC-20 token that are read or
    encoded; [encodeFunctionData] receives an [abi_call]. *)
Inductive contract_read : Type :=
| Decimals
| Allowance (owner spender : string)
| BalanceOf (owner : string)
| GetAmountsOut (amountIn : Z) (path : list string).

Inductive abi_call : Type :=
| Erc20Transfer (recipient : address_ref) (amount : Z)
| Erc20Approve (spender : string) (amount : Z)
| SwapExactETHForTokens (amountOutMin : Z) (path : list string)
    (recipient : string) (deadline : Z)
| SwapExactTokensForETH (amountIn amountOutMin : Z) (path : list string)
    (recipient : string) (deadline : Z)
| SwapExactTokensForTokens (amountIn amountOutMin : Z) (path : list string)
    (recipient : string) (deadline : Z).

(** The [data] of a transaction: a hexadecimal string given by the caller,
    or what [encodeFunctionData] builds from a call. *)
Inductive calldata : Type :=
| Hex (s : string)
| Encoded (call : abi_call).

Record Transaction : Type := {
  tx_to : address_ref;
  tx_data : option calldata
}.

Record EVMTransaction : Type := {
  to : address_ref;
  data : option calldata;
  value : Z;
  gas : Z;
  gasPrice : Z;
  evm_chainId : string
}.

Record GetBalanceParams : Type := {
  gb_chainName : string;
  gb_address : option string;
  gb_token : string
}.

Record Balance : Type := {
  bal_token : string;
  bal_amount : string
}.

Record GetBalanceResponse : Type := {
  gbr_chainName : string;
  gbr_address : string;
  gbr_balance : option Balance
}.

Record TransferParams : Type := {
  tp_chainName : string;
  tp_token : option string;
  tp_amount : option string;
  tp_toAddress : option string;
  tp_data : option string;
  tp_isBite : option bool
}.

(** [TransferParams] after [TransferAction.validateAndNormalizeParams] has
    overwritten [toAddress] and [data] in place. *)
Record NormalizedTransferParams : Type := {
  ntp_chainName : string;
  ntp_token : option string;
  ntp_amount : option string;
  ntp_toAddress : address_ref;
  ntp_data : option string;
  ntp_isBite : option bool
}.

Record TransferResponse : Type := {
  tr_chainName : string;
  tr_txHash : option string;
  tr_recipient : address_ref;
  tr_amount : string;
  tr_token : string;
  tr_isBite : option bool
}.

Record SwapParams : Type := {
  sp_chainName : string;
  sp_inputToken : string;
  sp_outputToken : string;
  sp_amount : string;
  sp_slippage : option Num.number;
  sp_isBite : option bool
}.

Record SwapResponse : Type := {
  sr_chainName : string;
  sr_txHash : string;
  sr_inputToken : string;
  sr_outputToken : string;
  sr_amountIn : string;
  sr_amountOut : string;
  sr_isBite : option bool
}.

Definition DEFAULT_CHAIN_CONFIG : ChainConfig := {|
  chainId := "1328435889";
  nativeToken := "FAIR";
  rpc := "https://testnet-v1.skalenodes.com/v1/idealistic-dual-miram";
  explorerUrl := "https://idealistic-dual-miram.explorer.testnet-v1.skalenodes.com/";
  tokens :=
    <["USDC" := "0x389E0Ec8a0226E96528761b5954830727d892117"]>
    (<["SKL" := "0x2770Fc13a45be852Db0bB90A85D463C03CCa4fA6"]>
    (<["USDT" := "0x1D13d5697490C94f5Aa6f38bEEB4D6Ef4535a40c"]>
    (<["WFAIR" := "0x4706C664ab84B7d6b9a7911cFB47b1f81335b208"]> ∅)));
  uniswapV2Router := "0x05BD86b5e9A6a8E838ef50cAEB96a502271349D0";
  biteDefault := false
|}.

Definition DEFAULT_PLUGIN_CONFIG : PluginConfig := {|
  chains := <["fair-testnet" := DEFAULT_CHAIN_CONFIG]> ∅
|}.

(* ===================================================================== *)
(** ** The outside world and the monad of the actions *)
(* ===================================================================== *)

(** The calls that leave the process, in the order they are made. *)
Inductive event : Type :=
| EvReadContract (chainName address : string) (call : contract_read)
| EvGetBalance (chainName address : string)
| EvEncrypt (rpcUrl : string) (tx : Transaction)
| EvSendTransaction (chainName account : string) (tx : Transaction)
    (value gas gasPrice : Z)
| EvWaitForReceipt (chainName : string) (hash : option string).

(** What is not part of the repository.  An answer [None] is a rejected
    promise or a thrown exception.  The answers of the node and of the BITE
    SDK may depend on the calls made before. *)
Record World : Type := {
  (* viem *)
  parseUnits : string -> Z -> option Z;
  formatUnits : Z -> Z -> string;
  isAddress : string -> bool;
  encodeFunctionData : abi_call -> bool;
  (* JavaScript built-ins *)
  parseFloat : string -> Num.number;
  Date_now : list event -> Z;
  (* the RPC node, through viem's public and wallet clients *)
  read_decimals : list event -> string -> string -> option Z;
  read_allowance : list event -> string -> string -> string -> string -> option Z;
  read_balanceOf : list event -> string -> string -> string -> option Z;
  read_getAmountsOut :
    list event -> string -> string -> Z -> list string -> option (list Z);
  rpc_getBalance : list event -> string -> string -> option Z;
  rpc_sendTransaction :
    list event -> string -> string -> Transaction -> Z -> Z -> Z ->
    option (option string);
  rpc_waitForTransactionReceipt : list event -> string -> option string -> bool;
  (* the BITE SDK *)
  bite_encryptTransaction : list event -> string -> Transaction -> option Transaction
}.

(** A computation is run in a world, after the calls of the history [h]; it
    ends with a value or an exception and gives the external calls that it
    made itself, in order. *)
Definition M (A : Type) : Type := World -> list event -> result A * list event.

Definition ret {A : Type} (a : A) : M A := fun _ _ => (Ok a, []).

Definition throw {A : Type} (e : error) : M A := fun _ _ => (Throw e, []).

Definition bind {A B : Type} (m : M A) (k : A -> M B) : M B :=
  fun w h =>
    match m w h with
    | (Ok a, evs) =>
        let '(r, evs') := k a w (h ++ evs) in (r, evs ++ evs')
    | (Throw e, evs) => (Throw e, evs)
    end.

Definition lift {A : Type} (r : result A) : M A := fun _ _ => (r, []).

(** [try { m } catch (error) { throw e }] *)
Definition try_rethrow {A : Type} (m : M A) (e : error) : M A :=
  fun w h =>
    match m w h with
    | (Ok a, evs) => (Ok a, evs)
    | (Throw _, evs) => (Throw e, evs)
    end.

(** A value taken from the world without a call that leaves the process. *)
Definition ask {A : Type} (f : World -> A) : M A := fun w _ => (Ok (f w), []).

(** A library function that throws when it has no answer. *)
Definition ask_opt {A : Type} (f : World -> option A) (x : external) : M A :=
  fun w _ =>
    match f w with
    | Some a => (Ok a, [])
    | None => (Throw (Rejected x), [])
    end.

(** An awaited external call: it is recorded, and it rejects when the world
    has no answer. *)
Definition perform {A : Type} (ev : event) (answer : World -> list event -> option A)
    (x : external) : M A :=
  fun w h =>
    match answer w h with
    | Some a => (Ok a, [ev])
    | None => (Throw (Rejected x), [ev])
    end.

Declare Scope prog_scope.
Delimit Scope prog_scope with prog.

Notation "'let*' x ':=' c1 'in' c2" := (bind c1 (fun x => c2))
  (at level 10, x pattern, c1 at level 100, c2 at level 200) : prog_scope.

Notation "'let+' x ':=' c1 'in' c2" := (rbind c1 (fun x => c2))
  (at level 10, x pattern, c1 at level 100, c2 at level 200) : prog_scope.

Local Open Scope prog_scope.

(* ===================================================================== *)
(** ** PluginConfigManager ([src/config/pluginConfig.ts]) *)
(* ===================================================================== *)

Module PluginConfigManager.

(** One entry of [mergedChains]: the fields of the user's chain override the
    default ones, and the token tables are merged, the user's entries first. *)
Definition mergeChain (d u : option ChainConfig) : option ChainConfig :=
  match d, u with
  | Some d, Some u =>
      Some {| chainId := chainId u; nativeToken := nativeToken u; rpc := rpc u;
              explorerUrl := explorerUrl u; tokens := tokens u ∪ tokens d;
              uniswapV2Router := uniswapV2Router u; biteDefault := biteDefault u |}
  | Some d, None => Some d
  | None, Some u => Some u
  | None, None => None
  end.

Definition mergedChains (userConfig : PluginConfig) : gmap string ChainConfig :=
  merge mergeChain (chains DEFAULT_PLUGIN_CONFIG) (chains userConfig).

Definition blank (s : string) : bool := String.eqb (Js.trim s) "".

Fixpoint validateChains (l : list (string * ChainConfig)) : result unit :=
  match l with
  | [] => Ok tt
  | (chainName, c) :: l' =>
      if blank (chainId c) then Throw (MissingChainId chainName)
      else if blank (rpc c) then Throw (MissingRpc chainName)
      else validateChains l'
  end.

Definition validateConfig (config : PluginConfig) : result unit :=
  match map_to_list (chains config) with
  | [] => Throw NoChainConfigured
  | l => validateChains l
  end.

(** [new PluginConfigManager(userConfig)] *)
Definition new (userConfig : PluginConfig) : result PluginConfig :=
  let config := {| chains := mergedChains userConfig |} in
  let+ _ := validateConfig config in
  Ok config.

Definition getChainConfig (config : PluginConfig) (chainName : string)
    : result ChainConfig :=
  match chains config !! chainName with
  | Some c => Ok c
  | None => Throw ChainNotRegistered
  end.

Definition getTokenAddress (config : PluginConfig) (chainName tokenName : string)
    : result string :=
  match chains config !! chainName with
  | None => Throw TypeError
  | Some c =>
      match tokens c !! tokenName with
      | Some a => if Js.truthy a then Ok a else Throw TokenNotRegistered
      | None => Throw TokenNotRegistered
      end
  end.

Definition hasUniswap (config : PluginConfig) (chainName : string)
    : M bool :=
  match chains config !! chainName with
  | None => throw ChainNotRegistered
  | Some c => ask (fun w => isAddress w (uniswapV2Router c))
  end.

Definition getUniswapAddress (config : PluginConfig) (chainName : string)
    : M string :=
  match chains config !! chainName with
  | None => throw ChainNotRegistered
  | Some c =>
      let* has := hasUniswap config chainName in
      if has then ret (uniswapV2Router c) else throw NoUniswapRouter
  end.

Definition getRPC (config : PluginConfig) (chainName : string) : result string :=
  let+ c := getChainConfig config chainName in Ok (rpc c).

Definition getChainNativeToken (config : PluginConfig) (chainName : string)
    : result string :=
  let+ c := getChainConfig config chainName in Ok (nativeToken c).

Definition getChainId (config : PluginConfig) (chainName : string) : result string :=
  let+ c := getChainConfig config chainName in Ok (chainId c).

End PluginConfigManager.

(* ===================================================================== *)
(** ** WalletProvider and BiteMiddleware ([src/providers/wallet.ts]) *)
(* ===================================================================== *)

Record WalletProvider : Type := {
  account_address : string;
  configManager : PluginConfig;
  biteConfig : BiteConfig
}.

(** The fields of viem's [Chain] that the actions read.  [chain_id] keeps
    the numeral of the configuration, which [+chainId] and [id.toString()]
    give back for the decimal numerals that chain ids are. *)
Record Chain : Type := {
  chain_id : string;
  chain_name : string;
  nativeCurrency_symbol : string;
  chain_rpcUrl : string
}.

Module Wallet.

(** [biteConfig === 'automatic'] *)
Definition is_automatic (c : BiteConfig) : bool :=
  match c with
  | automatic => true
  | manual => false
  end.

Definition getAddress (wp : WalletProvider) : string := account_address wp.

Definition getCurrentChain (wp : WalletProvider) (chainName : string)
    : result Chain :=
  let+ chainConfig := PluginConfigManager.getChainConfig (configManager wp) chainName in
  Ok {| chain_id := chainId chainConfig;
        chain_name := chainName;
        nativeCurrency_symbol := nativeToken chainConfig;
        chain_rpcUrl := rpc chainConfig |}.

Definition getChainToken (wp : WalletProvider) (chainName tokenName : string)
    : result string :=
  PluginConfigManager.getTokenAddress (configManager wp) chainName tokenName.

Definition getChainUniswapRouter (wp : WalletProvider) (chainName : string)
    : M string :=
  PluginConfigManager.getUniswapAddress (configManager wp) chainName.

Definition getChainConfig (wp : WalletProvider) (chainName : string)
    : result ChainConfig :=
  PluginConfigManager.getChainConfig (configManager wp) chainName.

Definition getChainRpc (wp : WalletProvider) (chainName : string) : result string :=
  PluginConfigManager.getRPC (configManager wp) chainName.

Definition getChainNativetToken (wp : WalletProvider) (chainName : string)
    : result string :=
  PluginConfigManager.getChainNativeToken (configManager wp) chainName.

Definition isChainSupported (wp : WalletProvider) (chainName : string)
    : result bool :=
  if String.eqb chainName "" then Ok false
  else
    let+ _ := PluginConfigManager.getChainConfig (configManager wp) chainName in
    Ok true.

Definition commonTokens : list string := ["FAIR"; "USDT"; "USDC"; "SKL"; "WFAIR"].

(** The value that the promise returned by [formatAddress] resolves to. *)
Definition formatAddress (wp : WalletProvider) (address : option string) : string :=
  match address with
  | None => getAddress wp
  | Some address =>
      if (String.length (Js.trim address) =? 0)%nat then getAddress wp
      else
        let addressStr := Js.trim address in
        if Js.startsWith addressStr "0x" && (String.length addressStr =? 42)%nat
        then addressStr
        else if Js.includes commonTokens (Js.toUpperCase addressStr)
        then getAddress wp
        else if Js.startsWith addressStr "0x" then addressStr
        else getAddress wp
  end.

(** [getPublicClient] and [getWalletClient] build their transport from
    [getCurrentChain], which throws for a chain that is not registered. *)
Definition getClient (wp : WalletProvider) (chainName : string) : M Chain :=
  lift (getCurrentChain wp chainName).

Definition getBalance (wp : WalletProvider) (chainName : string) : M string :=
  let* _ := getClient wp chainName in
  let* balance :=
    perform (EvGetBalance chainName (account_address wp))
      (fun w h => rpc_getBalance w h chainName (account_address wp))
      ExtGetBalance in
  ask (fun w => formatUnits w balance 18).

Definition readContract {A : Type} (wp : WalletProvider) (chainName address : string)
    (call : contract_read) (answer : World -> list event -> option A) : M A :=
  let* _ := getClient wp chainName in
  perform (EvReadContract chainName address call) answer ExtReadContract.

Definition read_Decimals (wp : WalletProvider) (chainName address : string) : M Z :=
  readContract wp chainName address Decimals
    (fun w h => read_decimals w h chainName address).

Definition read_Allowance (wp : WalletProvider) (chainName address owner spender : string)
    : M Z :=
  readContract wp chainName address (Allowance owner spender)
    (fun w h => read_allowance w h chainName address owner spender).

Definition read_BalanceOf (wp : WalletProvider) (chainName address owner : string)
    : M Z :=
  readContract wp chainName address (BalanceOf owner)
    (fun w h => read_balanceOf w h chainName address owner).

Definition read_GetAmountsOut (wp : WalletProvider) (chainName address : string)
    (amountIn : Z) (path : list string) : M (list Z) :=
  readContract wp chainName address (GetAmountsOut amountIn path)
    (fun w h => read_getAmountsOut w h chainName address amountIn path).

(** [BiteMiddleware.encryptTransaction], reached through [encryptTx]: only
    [to] and [data] are handed to the SDK, and every failure is rethrown as
    'Failed to encrypt transaction'. *)
Definition encryptTx (rpcUrl : string) (transaction : EVMTransaction) : M Transaction :=
  let tx := {| tx_to := to transaction; tx_data := data transaction |} in
  fun w h =>
    match bite_encryptTransaction w h rpcUrl tx with
    | Some encrypted => (Ok encrypted, [EvEncrypt rpcUrl tx])
    | None => (Throw EncryptionFailed, [EvEncrypt rpcUrl tx])
    end.

Definition sendTransaction (wp : WalletProvider) (chainName : string)
    (tansaction : EVMTransaction) (isBite : option bool) : M (option string) :=
  let* _ := getClient wp chainName in
  let tx_ := {| tx_to := to tansaction; tx_data := data tansaction |} in
  let* tx_ :=
    if is_automatic (biteConfig wp) || Js.truthy_flag isBite
    then
      let* rpcUrl := lift (getChainRpc wp chainName) in
      encryptTx rpcUrl tansaction
    else ret tx_ in
  perform
    (EvSendTransaction chainName (account_address wp) tx_
       (value tansaction) (gas tansaction) (gasPrice tansaction))
    (fun w h =>
       rpc_sendTransaction w h chainName (account_address wp) tx_
         (value tansaction) (gas tansaction) (gasPrice tansaction))
    ExtSendTransaction.

Definition waitForReceipt (chainName : string) (hash : option string) : M unit :=
  perform (EvWaitForReceipt chainName hash)
    (fun w h =>
       if rpc_waitForTransactionReceipt w h chainName hash then Some tt else None)
    ExtWaitForReceipt.

Definition waitForTx (wp : WalletProvider) (chainName : string) (tx : option string)
    : M unit :=
  let* _ := getClient wp chainName in
  waitForReceipt chainName tx.

Definition getBiteConfig (wp : WalletProvider) : BiteConfig := biteConfig wp.

(** [new WalletProvider(privateKey, biteConfig = 'automatic', pluginConfig)].
    [address] is the address of the account that viem derives from the
    private key; an omitted [pluginConfig] is the empty one. *)
Definition new (address : string) (mode : option BiteConfig)
    (pluginConfig : option PluginConfig) : result WalletProvider :=
  let+ config := PluginConfigManager.new (default {| chains := ∅ |} pluginConfig) in
  Ok {| account_address := address;
        configManager := config;
        biteConfig := default automatic mode |}.

End Wallet.

(* ===================================================================== *)
(** ** SwapAction ([src/actions/swap.ts]) *)
(* ===================================================================== *)

Record TokenInfo : Type := {
  address : string;
  isNative : bool
}.

Record Quote : Type := {
  amountOut : Z;
  amountOutMin : Z
}.

Module SwapAction.

(** [0.5], in percent. *)
Definition DEFAULT_SLIPPAGE : Num.number := Num.half.
Definition DEFAULT_DEADLINE_MINUTES : Z := 5.
Definition SWAP_GAS : Z := 1000000.
Definition DEFAULT_GAS_PRICE : Z := 1000000.

Definition resolveTokenAddress (wp : WalletProvider) (token chainName : string)
    : result TokenInfo :=
  if Js.startsWith token "0x" then Ok {| address := token; isNative := false |}
  else
    let+ chain := Wallet.getCurrentChain wp chainName in
    let nativeToken := nativeCurrency_symbol chain in
    if String.eqb (Js.toLowerCase token) (Js.toLowerCase nativeToken) then
      let+ nativeAddress :=
        Wallet.getChainToken wp chainName (String.append "W" nativeToken) in
      Ok {| address := nativeAddress; isNative := true |}
    else
      let+ tokenAddress := Wallet.getChainToken wp chainName token in
      if negb (Js.truthy tokenAddress) then Throw (UnsupportedToken token chainName)
      else Ok {| address := tokenAddress; isNative := false |}.

(** [BigInt(Math.floor((100 - slippage) * 100))], the multiplier in basis
    points. *)
Definition slippageMultiplier (slippage : Num.number) : option Z :=
  Num.BigInt_floor (Num.mul (Num.sub Num.hundred slippage) Num.hundred).

Definition calculateAmountOut (wp : WalletProvider) (amountIn : Z)
    (inputTokenAddress outputTokenAddress : string) (slippage : Num.number)
    (chainName : string) : M Quote :=
  let path := [inputTokenAddress; outputTokenAddress] in
  let* routerAddress := Wallet.getChainUniswapRouter wp chainName in
  try_rethrow
    (let* amounts :=
       Wallet.read_GetAmountsOut wp chainName routerAddress amountIn path in
     match nth_error amounts 1 with
     | None => throw TypeError
     | Some amountOut =>
         match slippageMultiplier slippage with
         | None => throw RangeError
         | Some slippageMultiplier =>
             ret {| amountOut := amountOut;
                    amountOutMin := Z.quot (amountOut * slippageMultiplier) 10000 |}
         end
     end)
    QuoteUnavailable.

(** [encodeFunctionData({ abi, functionName, args })]; viem throws on
    arguments that it does not accept. *)
Definition encode (call : abi_call) : M calldata :=
  ask_opt (fun w => if encodeFunctionData w call then Some (Encoded call) else None)
    ExtEncodeFunctionData.

Definition swapETHForTokens (wp : WalletProvider) (amountIn amountOutMin : Z)
    (inputTokenAddress outputTokenAddress recipient : string) (deadline : Z)
    (chainName : string) (isBite : option bool) : M (option string) :=
  let path := [inputTokenAddress; outputTokenAddress] in
  let* transferData :=
    encode (SwapExactETHForTokens amountOutMin path recipient deadline) in
  let* router := Wallet.getChainUniswapRouter wp chainName in
  let* chain := lift (Wallet.getCurrentChain wp chainName) in
  let txContent :=
    {| to := Plain router; data := Some transferData; value := amountIn;
       gas := SWAP_GAS; gasPrice := DEFAULT_GAS_PRICE;
       evm_chainId := chain_id chain |} in
  Wallet.sendTransaction wp chainName txContent isBite.

Definition approveToken (wp : WalletProvider) (tokenAddress spender : string)
    (amount : Z) (chainName : string) (isBite : option bool) : M unit :=
  let* currentAllowance :=
    Wallet.read_Allowance wp chainName tokenAddress (Wallet.getAddress wp) spender in
  if currentAllowance <? amount then
    let* transferData := encode (Erc20Approve spender amount) in
    let* chain := lift (Wallet.getCurrentChain wp chainName) in
    let txContent :=
      {| to := Plain tokenAddress; data := Some transferData; value := 0;
         gas := SWAP_GAS; gasPrice := DEFAULT_GAS_PRICE;
         evm_chainId := chain_id chain |} in
    let* approveTxHash := Wallet.sendTransaction wp chainName txContent isBite in
    Wallet.waitForTx wp chainName approveTxHash
  else ret tt.

Definition swapTokensForETH (wp : WalletProvider) (amountIn amountOutMin : Z)
    (inputTokenAddress outputTokenAddress recipient : string) (deadline : Z)
    (chainName : string) (isBite : option bool) : M (option string) :=
  let* rounterAddress := Wallet.getChainUniswapRouter wp chainName in
  let* _ := approveToken wp inputTokenAddress rounterAddress amountIn chainName isBite in
  let path := [inputTokenAddress; outputTokenAddress] in
  let* transferData :=
    encode (SwapExactTokensForETH amountIn amountOutMin path recipient deadline) in
  let* chain := lift (Wallet.getCurrentChain wp chainName) in
  let txContent :=
    {| to := Plain rounterAddress; data := Some transferData; value := 0;
       gas := SWAP_GAS; gasPrice := DEFAULT_GAS_PRICE;
       evm_chainId := chain_id chain |} in
  Wallet.sendTransaction wp chainName txContent isBite.

Definition swapTokensForTokens (wp : WalletProvider) (amountIn amountOutMin : Z)
    (inputTokenAddress outputTokenAddress recipient : string) (deadline : Z)
    (chainName : string) (isBite : option bool) : M (option string) :=
  let* rounterAddress := Wallet.getChainUniswapRouter wp chainName in
  let* _ := approveToken wp inputTokenAddress rounterAddress amountIn chainName isBite in
  let path := [inputTokenAddress; outputTokenAddress] in
  let* transferData :=
    encode (SwapExactTokensForTokens amountIn amountOutMin path recipient deadline) in
  let* chain := lift (Wallet.getCurrentChain wp chainName) in
  let txContent :=
    {| to := Plain rounterAddress; data := Some transferData; value := 0;
       gas := SWAP_GAS; gasPrice := DEFAULT_GAS_PRICE;
       evm_chainId := chain_id chain |} in
  Wallet.sendTransaction wp chainName txContent isBite.

Definition validateAndNormalizeParams (params : SwapParams) : M unit :=
  if negb (Js.truthy (sp_inputToken params)) || negb (Js.truthy (sp_outputToken params))
  then throw TokensRequired
  else if String.eqb (Js.toLowerCase (sp_inputToken params))
            (Js.toLowerCase (sp_outputToken params))
  then throw SameTokenSwap
  else if negb (Js.truthy (sp_amount params)) then throw MissingAmount
  else
    let* amountFloat := ask (fun w => parseFloat w (sp_amount params)) in
    if Num.le amountFloat Num.zero then throw AmountNotPositive
    else
      match sp_slippage params with
      | Some slippage =>
          if Num.lt slippage Num.zero || Num.gt slippage Num.fifty
          then throw InvalidSlippage
          else ret tt
      | None => ret tt
      end.

(** [params.slippage || this.DEFAULT_SLIPPAGE] *)
Definition effectiveSlippage (params : SwapParams) : Num.number :=
  match sp_slippage params with
  | Some slippage => if Num.truthy slippage then slippage else DEFAULT_SLIPPAGE
  | None => DEFAULT_SLIPPAGE
  end.

(** [params.amount.includes('.') ? params.amount : `${params.amount}.0`] *)
Definition amountString (amount : string) : string :=
  if Js.includes_char amount "."%char then amount else String.append amount ".0".

Definition swap (wp : WalletProvider) (params : SwapParams) : M SwapResponse :=
  let chainName := sp_chainName params in
  let* supported := lift (Wallet.isChainSupported wp chainName) in
  if negb supported then throw (ChainNotSupported chainName)
  else
    let* _ := validateAndNormalizeParams params in
    let fromAddress := Wallet.getAddress wp in
    let* inputTokenInfo := lift (resolveTokenAddress wp (sp_inputToken params) chainName) in
    let* outputTokenInfo := lift (resolveTokenAddress wp (sp_outputToken params) chainName) in
    let* fromTokenDecimals := Wallet.read_Decimals wp chainName (address inputTokenInfo) in
    let* toTokenDecimals := Wallet.read_Decimals wp chainName (address outputTokenInfo) in
    let* amountIn :=
      ask_opt (fun w => parseUnits w (sp_amount params) fromTokenDecimals)
        ExtParseUnits in
    let* now := fun w h => (Ok (Date_now w h), []) in
    let deadline := now / 1000 + DEFAULT_DEADLINE_MINUTES * 60 in
    let slippage := effectiveSlippage params in
    let* quote :=
      calculateAmountOut wp amountIn (address inputTokenInfo) (address outputTokenInfo)
        slippage chainName in
    let* txHash :=
      if isNative inputTokenInfo && negb (isNative outputTokenInfo) then
        swapETHForTokens wp amountIn (amountOutMin quote) (address inputTokenInfo)
          (address outputTokenInfo) fromAddress deadline chainName (sp_isBite params)
      else if negb (isNative inputTokenInfo) && isNative outputTokenInfo then
        swapTokensForETH wp amountIn (amountOutMin quote) (address inputTokenInfo)
          (address outputTokenInfo) fromAddress deadline chainName (sp_isBite params)
      else
        swapTokensForTokens wp amountIn (amountOutMin quote) (address inputTokenInfo)
          (address outputTokenInfo) fromAddress deadline chainName (sp_isBite params) in
    match txHash with
    | None => throw SwapNotSubmitted
    | Some txHash =>
        if negb (Js.truthy txHash) || String.eqb txHash "0x" then throw SwapNotSubmitted
        else
          let* _ := Wallet.waitForTx wp chainName (Some txHash) in
          let* amountOutText :=
            ask (fun w => formatUnits w (amountOut quote) toTokenDecimals) in
          ret {| sr_chainName := chainName;
                 sr_txHash := txHash;
                 sr_inputToken := sp_inputToken params;
                 sr_outputToken := sp_outputToken params;
                 sr_amountIn := amountString (sp_amount params);
                 sr_amountOut := amountOutText;
                 sr_isBite := sp_isBite params |}
    end.

End SwapAction.

(* ===================================================================== *)
(** ** TransferAction ([src/actions/transfer.ts]) *)
(* ===================================================================== *)

Module TransferAction.

Definition TRANSFER_GAS : Z := 1000000.
Definition DEFAULT_GAS_PRICE : Z := 1000000.

(** The method is not [async] and does not await [formatAddress]: the
    promise itself is stored in [params.toAddress]. *)
Definition validateAndNormalizeParams (wp : WalletProvider) (params : TransferParams)
    : M NormalizedTransferParams :=
  if negb (Js.truthy_opt (tp_toAddress params)) then throw MissingRecipient
  else
    let toAddress := Pending (Wallet.formatAddress wp (tp_toAddress params)) in
    let* _ :=
      match tp_amount params with
      | Some amount =>
          let* amountFloat := ask (fun w => parseFloat w amount) in
          if SFeqb amountFloat Num.zero then throw ZeroAmount
          else if Num.lt amountFloat Num.zero then throw NegativeAmount
          else ret tt
      | None => ret tt
      end in
    let data :=
      match tp_data params with
      | Some d => if String.eqb "null" d then Some "0x" else Some d
      | None => None
      end in
    ret {| ntp_chainName := tp_chainName params;
           ntp_token := tp_token params;
           ntp_amount := tp_amount params;
           ntp_toAddress := toAddress;
           ntp_data := data;
           ntp_isBite := tp_isBite params |}.

(** [parseEther(amount)] is [parseUnits(amount, 18)]; it throws on a missing
    amount. *)
Definition parseAmount (amount : option string) (decimals : Z) : M Z :=
  ask_opt (fun w => a ← amount; parseUnits w a decimals) ExtParseUnits.

Definition amountString (amount : option string) : result string :=
  match amount with
  | Some a =>
      Ok (if Js.includes_char a "."%char then a else String.append a ".0")
  | None => Throw TypeError
  end.

Definition transfer (wp : WalletProvider) (params : TransferParams)
    : M TransferResponse :=
  let* supported := lift (Wallet.isChainSupported wp (tp_chainName params)) in
  if negb supported then throw (ChainNotSupported (tp_chainName params))
  else
    let* chainNativeToken := lift (Wallet.getChainNativetToken wp (tp_chainName params)) in
    let* params := validateAndNormalizeParams wp params in
    let chainName := ntp_chainName params in
    let* chain := lift (Wallet.getCurrentChain wp chainName) in
    let nativeToken := nativeCurrency_symbol chain in
    let chainId := chain_id chain in
    let token :=
      match ntp_token params with
      | None => nativeToken
      | Some t =>
          if negb (Js.truthy t) || String.eqb t "null" then nativeToken
          else if String.eqb (Js.toLowerCase t) (Js.toLowerCase nativeToken)
          then nativeToken
          else t
      end in
    let resp (txHash : option string) (amount token : string) :=
      {| tr_chainName := chainName;
         tr_txHash := txHash;
         tr_recipient := ntp_toAddress params;
         tr_amount := amount;
         tr_token := token;
         tr_isBite := ntp_isBite params |} in
    let txToEncrypt (recipient : address_ref) (data : option calldata) (value : Z) :=
      {| to := recipient; data := data; value := value;
         gas := TRANSFER_GAS; gasPrice := DEFAULT_GAS_PRICE;
         evm_chainId := chainId |} in
    if negb (Js.truthy token) || String.eqb token "null" || String.eqb token nativeToken
    then
      let* value := parseAmount (ntp_amount params) 18 in
      let* amountStr := lift (amountString (ntp_amount params)) in
      let* txHash :=
        Wallet.sendTransaction wp chainName
          (txToEncrypt (ntp_toAddress params) (Hex <$> ntp_data params) value)
          (ntp_isBite params) in
      ret (resp txHash amountStr token)
    else if String.eqb token chainNativeToken then
      let* value := parseAmount (ntp_amount params) 18 in
      let* amountStr := lift (amountString (ntp_amount params)) in
      let* txHash :=
        Wallet.sendTransaction wp chainName
          (txToEncrypt (ntp_toAddress params) (Hex <$> ntp_data params) value)
          (ntp_isBite params) in
      ret (resp txHash amountStr nativeToken)
    else
      let* tokenAddress := lift (Wallet.getChainToken wp chainName token) in
      let* decimals := Wallet.read_Decimals wp chainName tokenAddress in
      let* value := parseAmount (ntp_amount params) decimals in
      let* amountStr := lift (amountString (ntp_amount params)) in
      let* transferData :=
        SwapAction.encode (Erc20Transfer (ntp_toAddress params) value) in
      let* txHash :=
        Wallet.sendTransaction wp chainName
          (txToEncrypt (Plain tokenAddress) (Some transferData) 0)
          (ntp_isBite params) in
      if negb (Js.truthy_opt txHash) || bool_decide (txHash = Some "0x")
      then throw TransactionNotSubmitted
      else
        let* _ := Wallet.waitForReceipt chainName txHash in
        ret (resp txHash amountStr token).

End TransferAction.

(* ===================================================================== *)
(** ** GetBalanceAction ([src/actions/getBalance.ts]) *)
(* ===================================================================== *)

Module GetBalanceAction.

(** The token symbols that an address is compared with: the keys of the
    chain's token table and its native symbol. *)
Definition isCommonToken (config : ChainConfig) (s : string) : bool :=
  bool_decide (is_Some (tokens config !! s)) || String.eqb s (nativeToken config).

(** The body of the [try] block; the chain name is normalised before it can
    throw, so it is returned apart. *)
Definition normalizedChainName (params : GetBalanceParams) : string :=
  if negb (Js.truthy (gb_chainName params)) then "fair-testnet"
  else gb_chainName params.

Definition normalizedAddress (wp : WalletProvider) (params : GetBalanceParams)
    : string :=
  match gb_address params with
  | None => Wallet.getAddress wp
  | Some a =>
      if negb (Js.truthy a) then Wallet.getAddress wp
      else if String.eqb a "null" || String.eqb a "undefined" then Wallet.getAddress wp
      else if Js.startsWith a "0x" && (String.length a =? 42)%nat then a
      else
        match Wallet.getChainConfig wp (normalizedChainName params) with
        | Throw _ => Wallet.getAddress wp
        | Ok config =>
            if isCommonToken config (Js.toUpperCase a) then Wallet.getAddress wp
            else if Js.startsWith a "0x" then a
            else Wallet.getAddress wp
        end
  end.

Definition validateAndNormalizeParams (wp : WalletProvider) (params : GetBalanceParams)
    : GetBalanceParams :=
  {| gb_chainName := normalizedChainName params;
     gb_address := Some (normalizedAddress wp params);
     gb_token := gb_token params |}.

Definition getERC20TokenBalance (wp : WalletProvider)
    (chainName address tokenAddress : string) : M string :=
  let* balance := Wallet.read_BalanceOf wp chainName tokenAddress address in
  let* decimals := Wallet.read_Decimals wp chainName tokenAddress in
  ask (fun w => formatUnits w balance decimals).

Definition getBalance (wp : WalletProvider) (params : GetBalanceParams)
    : M GetBalanceResponse :=
  let params := validateAndNormalizeParams wp params in
  let chainName := gb_chainName params in
  let token := gb_token params in
  match gb_address params with
  | None => throw AddressRequired
  | Some address =>
      if negb (Js.truthy address) then throw AddressRequired
      else
        let* chain := lift (Wallet.getCurrentChain wp chainName) in
        let nativeSymbol := nativeCurrency_symbol chain in
        let* queryNativeToken :=
          if negb (Js.truthy token) then ret true
          else
            let* native := lift (Wallet.getChainNativetToken wp chainName) in
            ret (String.eqb (Js.toUpperCase token) native) in
        if negb queryNativeToken then
          let* amount :=
            if Js.startsWith token "0x" then
              getERC20TokenBalance wp chainName address token
            else
              let* tokenAddress := lift (Wallet.getChainToken wp chainName token) in
              if negb (Js.truthy tokenAddress)
              then throw (BalanceTokenNotSupported token)
              else getERC20TokenBalance wp chainName address tokenAddress in
          ret {| gbr_chainName := chainName; gbr_address := address;
                 gbr_balance := Some {| bal_token := token; bal_amount := amount |} |}
        else
          let* balance := Wallet.getBalance wp chainName in
          ret {| gbr_chainName := chainName; gbr_address := address;
                 gbr_balance :=
                   Some {| bal_token := nativeSymbol; bal_amount := balance |} |}
  end.

End GetBalanceAction.

(* ===================================================================== *)
(** ** The handler of the swap action ([swapAction] in [src/actions/swap.ts]) *)
(* ===================================================================== *)

Module swapAction.




Definition containsBiteParam (promptLower : string) : bool :=
  Js.includes_str promptLower "bite enable" ||
  Js.includes_str promptLower "bite encrypt" ||
  Js.includes_str promptLower "encrypt" ||
  Js.includes_str promptLower "encrypted" ||
  Js.includes_str promptLower "bite true" ||
  Js.includes_str promptLower "mev protect" ||
  Js.includes_str promptLower "mev protection" ||
  Js.includes_str promptLower "bite".



(** The flag written in the summary of a swap, ['Transaction Ecryption']:
    [true], or the flag of the response when the mode is manual. *)
Definition isBite (mode : BiteConfig) (swapResp : SwapResponse) : option bool :=
  match mode with
  | manual => sr_isBite swapResp
  | automatic => Some true
  end.


End swapAction.

(* ===================================================================== *)
(** ** The handler of the transfer action ([transferAction] in
       [src/actions/transfer.ts]): the parameters of the request *)
(* ===================================================================== *)

Module transferAction.

(** The content that the model extracted, once [isTransferContent] has
    accepted it: [chain] and [toAddress] are strings. *)
Record TransferContent : Type := {
  tc_chain : string;
  tc_token : option string;
  tc_amount : option string;
  tc_toAddress : string;
  tc_data : option string
}.

Definition containsNative (promptLower : string) : bool :=
  Js.includes_str promptLower "fair" ||
  Js.includes_str promptLower "Fair native token" ||
  Js.includes_str promptLower "gas token" ||
  Js.includes_str promptLower "gas" ||
  Js.includes_str promptLower "native token".

Definition containsBiteParam (promptLower : string) : bool :=
  Js.includes_str promptLower "bite enable" ||
  Js.includes_str promptLower "bite encrypt" ||
  Js.includes_str promptLower "encrypt" ||
  Js.includes_str promptLower "encrypted" ||
  Js.includes_str promptLower "bite true" ||
  Js.includes_str promptLower "mev protect" ||
  Js.includes_str promptLower "mev protection" ||
  Js.includes_str promptLower "bite".

(** [directTokenMatch]: the second of the three groups that [transferRegex]
    captured in the prompt, in upper case. *)
Definition directTokenMatch (captures : option (string * string * string))
    : option string :=
  match captures with
  | Some (_, tokenSymbol, _) => Some (Js.toUpperCase tokenSymbol)
  | None => None
  end.

Definition token (content : TransferContent)
    (captures : option (string * string * string)) (promptLower : string) : string :=
  let token :=
    if Js.truthy_opt (directTokenMatch captures)
    then default "" (directTokenMatch captures)
    else if Js.truthy_opt (tc_token content) then default "" (tc_token content)
    else if containsNative promptLower then "FAIR"
    else "FAIR" in
  if negb (Js.truthy token) then "FAIR" else token.

Definition dataParam (content : TransferContent) : option string :=
  match tc_data content with
  | Some d =>
      if Js.truthy d && (Js.startsWith d "0x" && negb (String.eqb d "0x"))
      then Some d else None
  | None => None
  end.

Definition paramOptions (content : TransferContent)
    (captures : option (string * string * string)) (promptLower : string)
    : TransferParams :=
  {| tp_chainName :=
       if Js.truthy (Js.toLowerCase (tc_chain content))
       then Js.toLowerCase (tc_chain content)
       else "fair-testnet";
     tp_token := Some (token content captures promptLower);
     tp_amount := tc_amount content;
     tp_toAddress := Some (tc_toAddress content);
     tp_data := dataParam content;
     tp_isBite := Some (if containsBiteParam promptLower then true else false) |}.

End transferAction.

(* ===================================================================== *)
(** ** Observations on the external calls *)
(* ===================================================================== *)

Definition is_send (ev : event) : bool :=
  match ev with
  | EvSendTransaction _ _ _ _ _ _ => true
  | _ => false
  end.

Definition is_encrypt (ev : event) : bool :=
  match ev with
  | EvEncrypt _ _ => true
  | _ => false
  end.

Definition is_wait (ev : event) : bool :=
  match ev with
  | EvWaitForReceipt _ _ => true
  | _ => false
  end.

(** The number of events of a kind among the calls made. *)
Fixpoint count (p : event -> bool) (evs : list event) : nat :=
  match evs with
  | [] => O
  | ev :: evs' => if p ev then S (count p evs') else count p evs'
  end.

(** The transactions handed to [wallet.sendTransaction]. *)
Fixpoint sent (evs : list event) : list Transaction :=
  match evs with
  | [] => []
  | EvSendTransaction _ _ tx _ _ _ :: evs' => tx :: sent evs'
  | _ :: evs' => sent evs'
  end.


(** What [sendTransaction] keeps of a transaction before it encrypts or
    sends it: [{ to, data }]. *)
Definition plain_tx (tx : EVMTransaction) : Transaction :=
  {| tx_to := to tx; tx_data := data tx |}.

(** The read of the allowance made by the approval gate. *)
Definition allowance_read (wp : WalletProvider) (chainName token spender : string)
    : event :=
  EvReadContract chainName token (Allowance (account_address wp) spender).

(** What ERC-20 asks of [approve]: in the world [w], after the calls of [h],
    the allowance of [spender] over the tokens of the provider's account is
    read as at least [amount]. *)
Definition allowance_covers (w : World) (h : list event) (wp : WalletProvider)
    (chainName token spender : string) (amount : Z) : Prop :=
  exists a, read_allowance w h chainName token (account_address wp) spender = Some a /\
            amount <= a.

(** The transaction that approves [spender] for [amount] on [token]. *)
Definition approve_tx (token spender : string) (amount : Z) : Transaction :=
  {| tx_to := Plain token; tx_data := Some (Encoded (Erc20Approve spender amount)) |}.

(** The token reference of a transfer request stands for the native token:
    it is omitted, empty, the string ["null"], or the native symbol up to
    case. *)
Definition native_reference (cfg : ChainConfig) (token : option string) : Prop :=
  match token with
  | None => True
  | Some t =>
      Js.truthy t = false \/ t = "null" \/
      Js.toLowerCase t = Js.toLowerCase (nativeToken cfg)
  end.

(** [params.data] after [TransferAction.validateAndNormalizeParams]. *)
Definition normalizedData (d : option string) : option string :=
  match d with
  | Some d => if String.eqb "null" d then Some "0x" else Some d
  | None => None
  end.

(** The transaction that [TransferAction.transfer] builds for a native
    transfer of [v] to the recipient [s]. *)
Definition native_transfer_tx (wp : WalletProvider) (cfg : ChainConfig)
    (params : TransferParams) (s : string) (v : Z) : EVMTransaction :=
  {| to := Pending (Wallet.formatAddress wp (Some s));
     data := Hex <$> normalizedData (tp_data params);
     value := v;
     gas := TransferAction.TRANSFER_GAS;
     gasPrice := TransferAction.DEFAULT_GAS_PRICE;
     evm_chainId := chainId cfg |}.

(** A swap request is rejected by the same-token rule or by the slippage
    rule. *)
Definition same_token (params : SwapParams) : Prop :=
  Js.toLowerCase (sp_inputToken params) = Js.toLowerCase (sp_outputToken params).

Definition slippage_out_of_range (params : SwapParams) : Prop :=
  exists s, sp_slippage params = Some s /\
    (Num.lt s Num.zero = true \/ Num.gt s Num.fifty = true).

(** The checks that [SwapAction.validateAndNormalizeParams] makes before it
    looks at the slippage. *)
Definition amount_accepted (w : World) (params : SwapParams) : Prop :=
  Js.truthy (sp_amount params) = true /\
  Num.le (parseFloat w (sp_amount params)) Num.zero = false.

Definition tokens_present (params : SwapParams) : Prop :=
  Js.truthy (sp_inputToken params) = true /\ Js.truthy (sp_outputToken params) = true.

(* ===================================================================== *)
(** ** Footprints: the calls and the errors of a computation *)
(* ===================================================================== *)

Definition is_read (ev : event) : bool :=
  match ev with
  | EvReadContract _ _ _ | EvGetBalance _ _ => true
  | _ => false
  end.

(** Whatever the world and the history, [m] makes at most [n] external
    calls of the kind [p]. *)
Definition at_most {A : Type} (p : event -> bool) (n : nat) (m : M A) : Prop :=
  forall w h, (count p (snd (m w h)) <= n)%nat.

(** Whatever the world and the history, [m] only throws errors of [P]. *)
Definition throws_only {A : Type} (P : error -> Prop) (m : M A) : Prop :=
  forall w h e, fst (m w h) = Throw e -> P e.

(** Whatever the world and the history, a run of [m] that throws an error
    of [P] has made no external call of the kind [p]. *)
Definition guarded {A : Type} (p : event -> bool) (P : error -> bool) (m : M A) : Prop :=
  forall w h e, fst (m w h) = Throw e -> P e = true -> count p (snd (m w h)) = 0%nat.

(** In the world [w], whatever the history, [m] throws and has made no
    external call of the kind [p]. *)
Definition fails_quietly {A : Type} (p : event -> bool) (w : World) (m : M A) : Prop :=
  forall h, is_ok (fst (m w h)) = false /\ count p (snd (m w h)) = 0%nat.

(** [this.biteConfig === 'automatic' || isBite], the test of
    [sendTransaction]. *)
Definition encrypts (wp : WalletProvider) (isBite : option bool) : bool :=
  Wallet.is_automatic (biteConfig wp) || Js.truthy_flag isBite.

(** The external calls of one transaction that [sendTransaction] submitted:
    the encryption of [tx] where it applies, and the broadcast of [tx] or of
    its encryption, with the value, the gas and the gas price in clear. *)
Inductive submitted (wp : WalletProvider) (chainName : string) (isBite : option bool)
    (tx : Transaction) (value gas gasPrice : Z) : list event -> Prop :=
| submitted_plain :
    encrypts wp isBite = false ->
    submitted wp chainName isBite tx value gas gasPrice
      [EvSendTransaction chainName (account_address wp) tx value gas gasPrice]
| submitted_encrypted (rpcUrl : string) (enc : Transaction) :
    encrypts wp isBite = true ->
    submitted wp chainName isBite tx value gas gasPrice
      [EvEncrypt rpcUrl tx;
       EvSendTransaction chainName (account_address wp) enc value gas gasPrice].

(** The external calls of a completed approval gate: the read of the
    allowance, followed, when an approval was needed, by its submission and
    the wait for its receipt. *)
Inductive approved (wp : WalletProvider) (chainName : string) (isBite : option bool)
    (token spender : string) (amount : Z) : list event -> Prop :=
| approved_before :
    approved wp chainName isBite token spender amount
      [allowance_read wp chainName token spender]
| approved_now (evs : list event) (hash : option string) :
    submitted wp chainName isBite (approve_tx token spender amount) 0
      SwapAction.SWAP_GAS SwapAction.DEFAULT_GAS_PRICE evs ->
    approved wp chainName isBite token spender amount
      (allowance_read wp chainName token spender :: evs ++
       [EvWaitForReceipt chainName hash]).

(** The transactions handed to the encryption. *)
Fixpoint encrypted_txs (evs : list event) : list Transaction :=
  match evs with
  | [] => []
  | EvEncrypt _ tx :: evs' => tx :: encrypted_txs evs'
  | _ :: evs' => encrypted_txs evs'
  end.

(** The transactions as the actions built them, before any encryption:
    those handed to the encryption where it applies, those sent otherwise. *)
Definition built (wp : WalletProvider) (isBite : option bool) (evs : list event)
    : list Transaction :=
  if encrypts wp isBite then encrypted_txs evs else sent evs.

(** The values that go with the transactions sent. *)
Fixpoint sent_values (evs : list event) : list Z :=
  match evs with
  | [] => []
  | EvSendTransaction _ _ _ value _ _ :: evs' => value :: sent_values evs'
  | _ :: evs' => sent_values evs'
  end.

(* ===================================================================== *)
(** ** Completed runs of the actions *)
(* ===================================================================== *)

(** The input of a swap is paid in the native token. *)
Definition pays_native (inputTokenInfo outputTokenInfo : TokenInfo) : bool :=
  isNative inputTokenInfo && negb (isNative outputTokenInfo).

(** The call of the router that [SwapAction.swap] chooses. *)
Definition swap_call (inputTokenInfo outputTokenInfo : TokenInfo)
    (amountIn amountOutMin : Z) (recipient : string) (deadline : Z) : abi_call :=
  let path := [address inputTokenInfo; address outputTokenInfo] in
  if isNative inputTokenInfo && negb (isNative outputTokenInfo)
  then SwapExactETHForTokens amountOutMin path recipient deadline
  else if negb (isNative inputTokenInfo) && isNative outputTokenInfo
  then SwapExactTokensForETH amountIn amountOutMin path recipient deadline
  else SwapExactTokensForTokens amountIn amountOutMin path recipient deadline.

(** What a completed swap went through. *)
Record SwapRun : Type := {
  run_cfg : ChainConfig;
  run_input : TokenInfo;
  run_output : TokenInfo;
  run_decimalsIn : Z;
  run_decimalsOut : Z;
  run_amountIn : Z;
  run_amounts : list Z;
  run_amountOut : Z;
  run_multiplier : Z;
  run_deadline : Z;
  run_approval : list event;
  run_submission : list event
}.

Definition run_amountOutMin (r : SwapRun) : Z :=
  Z.quot (run_amountOut r * run_multiplier r) 10000.

Definition run_tx (wp : WalletProvider) (r : SwapRun) : Transaction :=
  {| tx_to := Plain (uniswapV2Router (run_cfg r));
     tx_data :=
       Some (Encoded (swap_call (run_input r) (run_output r) (run_amountIn r)
                        (run_amountOutMin r) (Wallet.getAddress wp) (run_deadline r))) |}.

(** The two reads of the decimals, with which a swap starts. *)
Definition run_decimals_reads (params : SwapParams) (r : SwapRun) : list event :=
  [EvReadContract (sp_chainName params) (address (run_input r)) Decimals;
   EvReadContract (sp_chainName params) (address (run_output r)) Decimals].

Definition run_events (params : SwapParams) (resp : SwapResponse) (r : SwapRun)
    : list event :=
  let chainName := sp_chainName params in
  run_decimals_reads params r ++
  EvReadContract chainName (uniswapV2Router (run_cfg r))
    (GetAmountsOut (run_amountIn r) [address (run_input r); address (run_output r)]) ::
  run_approval r ++ run_submission r ++
  [EvWaitForReceipt chainName (Some (sr_txHash resp))].

Definition completed_swap (wp : WalletProvider) (params : SwapParams) (w : World)
    (h : list event) (resp : SwapResponse) (evs : list event) (r : SwapRun) : Prop :=
  let chainName := sp_chainName params in
  chains (configManager wp) !! chainName = Some (run_cfg r) /\
  fst (SwapAction.validateAndNormalizeParams params w h) = Ok tt /\
  SwapAction.resolveTokenAddress wp (sp_inputToken params) chainName = Ok (run_input r) /\
  SwapAction.resolveTokenAddress wp (sp_outputToken params) chainName = Ok (run_output r) /\
  read_decimals w h chainName (address (run_input r)) = Some (run_decimalsIn r) /\
  read_decimals w (h ++ [EvReadContract chainName (address (run_input r)) Decimals])
    chainName (address (run_output r)) = Some (run_decimalsOut r) /\
  parseUnits w (sp_amount params) (run_decimalsIn r) = Some (run_amountIn r) /\
  read_getAmountsOut w (h ++ run_decimals_reads params r)
    chainName (uniswapV2Router (run_cfg r)) (run_amountIn r)
    [address (run_input r); address (run_output r)] = Some (run_amounts r) /\
  nth_error (run_amounts r) 1 = Some (run_amountOut r) /\
  run_deadline r =
    Date_now w (h ++ run_decimals_reads params r) / 1000
    + SwapAction.DEFAULT_DEADLINE_MINUTES * 60 /\
  SwapAction.slippageMultiplier (SwapAction.effectiveSlippage params)
    = Some (run_multiplier r) /\
  (if pays_native (run_input r) (run_output r) then run_approval r = []
   else approved wp chainName (sp_isBite params) (address (run_input r))
          (uniswapV2Router (run_cfg r)) (run_amountIn r) (run_approval r)) /\
  submitted wp chainName (sp_isBite params) (run_tx wp r)
    (if pays_native (run_input r) (run_output r) then run_amountIn r else 0)
    SwapAction.SWAP_GAS SwapAction.DEFAULT_GAS_PRICE (run_submission r) /\
  evs = run_events params resp r /\
  Js.truthy (sr_txHash resp) = true /\ sr_txHash resp <> "0x" /\
  resp = {| sr_chainName := chainName;
            sr_txHash := sr_txHash resp;
            sr_inputToken := sp_inputToken params;
            sr_outputToken := sp_outputToken params;
            sr_amountIn := SwapAction.amountString (sp_amount params);
            sr_amountOut := formatUnits w (run_amountOut r) (run_decimalsOut r);
            sr_isBite := sp_isBite params |}.

(** [params.token] once [TransferAction.transfer] has replaced an omitted
    or empty token, the string ["null"] and the native symbol in any case by
    the native symbol of the chain. *)
Definition normalizedToken (nativeToken : string) (token : option string) : string :=
  match token with
  | None => nativeToken
  | Some t =>
      if negb (Js.truthy t) || String.eqb t "null" then nativeToken
      else if String.eqb (Js.toLowerCase t) (Js.toLowerCase nativeToken)
      then nativeToken
      else t
  end.

(** What a completed transfer went through. *)
Record TransferRun : Type := {
  trun_cfg : ChainConfig;
  trun_toAddress : string;
  trun_amount : string;
  trun_value : Z;
  trun_tokenAddress : string;
  trun_decimals : Z;
  trun_submission : list event
}.

Definition trun_recipient (wp : WalletProvider) (r : TransferRun) : address_ref :=
  Pending (Wallet.formatAddress wp (Some (trun_toAddress r))).

Definition trun_token (params : TransferParams) (r : TransferRun) : string :=
  normalizedToken (nativeToken (trun_cfg r)) (tp_token params).

(** The transaction of a native transfer, and the one of a transfer of
    ERC-20 tokens. *)
Definition native_tx (wp : WalletProvider) (params : TransferParams) (r : TransferRun)
    : Transaction :=
  {| tx_to := trun_recipient wp r;
     tx_data := Hex <$> normalizedData (tp_data params) |}.

Definition erc20_tx (wp : WalletProvider) (r : TransferRun) : Transaction :=
  {| tx_to := Plain (trun_tokenAddress r);
     tx_data := Some (Encoded (Erc20Transfer (trun_recipient wp r) (trun_value r))) |}.

Definition completed_transfer (wp : WalletProvider) (params : TransferParams)
    (w : World) (h : list event) (resp : TransferResponse) (evs : list event)
    (r : TransferRun) : Prop :=
  let chainName := tp_chainName params in
  let isBite := tp_isBite params in
  chains (configManager wp) !! chainName = Some (trun_cfg r) /\
  tp_toAddress params = Some (trun_toAddress r) /\
  Js.truthy (trun_toAddress r) = true /\
  tp_amount params = Some (trun_amount r) /\
  resp = {| tr_chainName := chainName;
            tr_txHash := tr_txHash resp;
            tr_recipient := trun_recipient wp r;
            tr_amount := SwapAction.amountString (trun_amount r);
            tr_token := trun_token params r;
            tr_isBite := isBite |} /\
  if String.eqb (trun_token params r) (nativeToken (trun_cfg r)) then
    parseUnits w (trun_amount r) 18 = Some (trun_value r) /\
    submitted wp chainName isBite (native_tx wp params r) (trun_value r)
      TransferAction.TRANSFER_GAS TransferAction.DEFAULT_GAS_PRICE (trun_submission r) /\
    evs = trun_submission r
  else
    tokens (trun_cfg r) !! trun_token params r = Some (trun_tokenAddress r) /\
    read_decimals w h chainName (trun_tokenAddress r) = Some (trun_decimals r) /\
    parseUnits w (trun_amount r) (trun_decimals r) = Some (trun_value r) /\
    submitted wp chainName isBite (erc20_tx wp r) 0
      TransferAction.TRANSFER_GAS TransferAction.DEFAULT_GAS_PRICE (trun_submission r) /\
    Js.truthy_opt (tr_txHash resp) = true /\ tr_txHash resp <> Some "0x" /\
    evs = EvReadContract chainName (trun_tokenAddress r) Decimals ::
          trun_submission r ++ [EvWaitForReceipt chainName (tr_txHash resp)].

(* ===================================================================== *)
(** ** The errors of the actions and of the registry *)
(* ===================================================================== *)


(** The failures of a swap that can come from the approval, from the
    submission of the swap or from the wait for its receipt. *)
Definition submission_error (e : error) : bool :=
  match e with
  | Rejected ExtReadContract | Rejected ExtEncodeFunctionData
  | Rejected ExtSendTransaction | Rejected ExtWaitForReceipt
  | ChainNotRegistered | NoUniswapRouter | EncryptionFailed | SwapNotSubmitted => true
  | _ => false
  end.



(** A chain that [validateConfig] accepts: its [chainId] and its [rpc] are
    not blank. *)
Definition well_formed_chain (c : ChainConfig) : Prop :=
  PluginConfigManager.blank (chainId c) = false /\
  PluginConfigManager.blank (rpc c) = false.

(** The error [e] that [validateConfig] throws for the chain [c] registered
    as [name]: the [chainId] is looked at before the [rpc]. *)
Definition chain_fault (e : error) (name : string) (c : ChainConfig) : Prop :=
  (e = MissingChainId name /\ PluginConfigManager.blank (chainId c) = true) \/
  (e = MissingRpc name /\ PluginConfigManager.blank (chainId c) = false /\
   PluginConfigManager.blank (rpc c) = true).

(* ===================================================================== *)
(** ** Ranges of binary64 values used in the proofs on the slippage *)
(* ===================================================================== *)

(** The record [r] is what remains of the integer [M] after [k] digits were
    shifted out, with the sticky bits telling whether they were all zero. *)
Definition shr_inv (M k : Z) (r : shr_record) : Prop :=
  shr_m r = M / 2 ^ k /\ (shr_r r || shr_s r = false <-> M mod 2 ^ k = 0).

(** A positive binary64 value between 50 and 100. *)
Definition in_50_100 (x : Num.number) : Prop :=
  exists mx ex, x = S754_finite false mx ex /\
    ((ex = -47 /\ 50 * 2 ^ 47 <= Zpos mx < 2 ^ 53) \/
     (ex = -46 /\ 2 ^ 52 <= Zpos mx <= 100 * 2 ^ 46)).

(** A positive binary64 value between 5000 and 10000. *)
Definition in_5000_10000 (y : Num.number) : Prop :=
  exists my ey, y = S754_finite false my ey /\
    ((ey = -40 /\ 5000 * 2 ^ 40 <= Zpos my < 2 ^ 53) \/
     (ey = -39 /\ 2 ^ 52 <= Zpos my <= 10000 * 2 ^ 39)).

(* ===================================================================== *)
(** ** The doubles of the test-suite ([src/tests]) *)
(* ===================================================================== *)

Module TestDoubles.

Definition walletAddress : string := "0x742d35Cc6634C0532925a3b844Bc454e4438f44e".
Definition recipient : string := "0x2CE4EaF47CACFbC6590686f8f7521e0385822334".
Definition otherAddress : string := "0x1111111111111111111111111111111111111111".
Definition txHash : string :=
  "0x1234567890abcdef1234567890abcdef1234567890abcdef1234567890abcdef".
Definition chain : string := "fair-testnet".
Definition USDC : string := "0x389E0Ec8a0226E96528761b5954830727d892117".
Definition WFAIR : string := "0x4706C664ab84B7d6b9a7911cFB47b1f81335b208".
Definition router : string := "0x05BD86b5e9A6a8E838ef50cAEB96a502271349D0".

Definition wallet (mode : BiteConfig) : WalletProvider :=
  {| account_address := walletAddress;
     configManager := DEFAULT_PLUGIN_CONFIG;
     biteConfig := mode |}.

(** [1] as a binary64 value. *)
Definition one : Num.number := S754_finite false 4503599627370496 (-52).

Definition parseFloat_double (s : string) : Num.number :=
  if String.eqb s "1.0" then one
  else if String.eqb s "100.0" then Num.hundred
  else if String.eqb s "0" then Num.zero
  else if String.eqb s "-1.0" then Num.minus_one
  else S754_nan.

Definition parseUnits_double (s : string) (decimals : Z) : option Z :=
  if String.eqb s "1.0" then Some (10 ^ decimals)
  else if String.eqb s "100.0" then Some (100 * 10 ^ decimals)
  else None.

Definition formatUnits_double (v decimals : Z) : string :=
  if (v =? 500000000000000000) && (decimals =? 18) then "0.5"
  else if (v =? 1000 * 10 ^ 18) && (decimals =? 18) then "1000"
  else if (v =? 7 * 10 ^ 18) && (decimals =? 18) then "7"
  else "0".

Definition encrypted : Transaction :=
  {| tx_to := Plain "0x0000000000000000000000000000000000000401";
     tx_data := Some (Hex "0xencrypted_data") |}.

(** The world of the test-suite: 18 decimals everywhere, a quote of 0.5 for
    1, a wallet holding 1000 FAIR.  [allowance] gives the allowance read
    after a history, [hash] what the broadcast returns. *)
Definition world (allowance : list event -> Z) (hash : option string) : World :=
  {| parseUnits := parseUnits_double;
     formatUnits := formatUnits_double;
     isAddress := fun a => Js.startsWith a "0x" && (String.length a =? 42)%nat;
     encodeFunctionData := fun _ => true;
     parseFloat := parseFloat_double;
     Date_now := fun _ => 1700000000000;
     read_decimals := fun _ _ _ => Some 18;
     read_allowance := fun h _ _ _ _ => Some (allowance h);
     read_balanceOf := fun _ _ _ _ => Some 0;
     read_getAmountsOut := fun _ _ _ amountIn _ => Some [amountIn; 500000000000000000];
     rpc_getBalance :=
       fun _ _ a =>
         Some (if String.eqb a walletAddress then 1000 * 10 ^ 18 else 7 * 10 ^ 18);
     rpc_sendTransaction := fun _ _ _ _ _ _ _ => Some hash;
     rpc_waitForTransactionReceipt := fun _ _ _ => true;
     bite_encryptTransaction := fun _ _ _ => Some encrypted |}.

(** No allowance, as in the test-suite. *)
Definition noAllowance : list event -> Z := fun _ => 0.

(** An ERC-20 token on which nothing was approved before: the allowance is
    [approved] once an approval of that amount was sent. *)
Definition erc20Allowance (approved : Z) : list event -> Z :=
  fun h => if existsb is_send h then approved else 0.

Definition swapParams (slippage : option Num.number) : SwapParams :=
  {| sp_chainName := chain; sp_inputToken := "FAIR"; sp_outputToken := "USDC";
     sp_amount := "1.0"; sp_slippage := slippage; sp_isBite := Some false |}.

Definition transferParams (token toAddress : string) : TransferParams :=
  {| tp_chainName := chain; tp_token := Some token; tp_amount := Some "1.0";
     tp_toAddress := Some toAddress; tp_data := None; tp_isBite := Some false |}.

(** A chain registered without a wrapped-native entry. *)
Definition bareChain : ChainConfig :=
  {| chainId := "1"; nativeToken := "ETH"; rpc := "http://localhost:8545";
     explorerUrl := ""; tokens := <["USDC" := USDC]> ∅;
     uniswapV2Router := router; biteDefault := false |}.

(** A chain registered without a router, and one without a chain id. *)
Definition routerless : ChainConfig :=
  {| chainId := "2"; nativeToken := "FAIR"; rpc := "http://localhost:8545";
     explorerUrl := ""; tokens := tokens DEFAULT_CHAIN_CONFIG;
     uniswapV2Router := ""; biteDefault := false |}.

(** The built-in chain, redefined by the caller with a token of its own. *)
Definition ownFair : ChainConfig :=
  {| chainId := "7"; nativeToken := "FAIR"; rpc := "http://localhost:8545";
     explorerUrl := ""; tokens := <["USDC" := otherAddress]> ∅;
     uniswapV2Router := router; biteDefault := false |}.

Definition nameless : ChainConfig :=
  {| chainId := " "; nativeToken := "ETH"; rpc := "http://localhost:8545";
     explorerUrl := ""; tokens := ∅; uniswapV2Router := router; biteDefault := false |}.

(** A provider whose registry holds one chain of the caller beside the
    built-in one. *)
Definition walletOn (name : string) (c : ChainConfig) : WalletProvider :=
  {| account_address := walletAddress;
     configManager := {| chains := <[name := c]> (chains DEFAULT_PLUGIN_CONFIG) |};
     biteConfig := manual |}.


Definition balanceParams (address token : string) : GetBalanceParams :=
  {| gb_chainName := chain; gb_address := Some address; gb_token := token |}.

End TestDoubles.

(* ===================================================================== *)
(** * Properties *)
(* ===================================================================== *)

(** ** The monad *)

Section MonadLaws.
Context {A B : Type}.

Lemma bind_ret (a : A) (k : A -> M B) (w : World) (h : list event) :
  bind (ret a) k w h = k a w h.
Proof.
  unfold bind, ret. rewrite app_nil_r. destruct (k a w h); reflexivity.
Qed.

Lemma bind_lift_ok (a : A) (k : A -> M B) (w : World) (h : list event) :
  bind (lift (Ok a)) k w h = k a w h.
Proof. exact (bind_ret a k w h). Qed.


Lemma bind_throw (e : error) (k : A -> M B) (w : World) (h : list event) :
  bind (throw e) k w h = (Throw e, []).
Proof. reflexivity. Qed.

Lemma bind_ask (f : World -> A) (k : A -> M B) (w : World) (h : list event) :
  bind (ask f) k w h = k (f w) w h.
Proof. exact (bind_ret (f w) k w h). Qed.

Lemma bind_run_ok (m : M A) (k : A -> M B) (w : World) (h : list event)
    (a : A) (evs : list event) :
  m w h = (Ok a, evs) ->
  bind m k w h = (fst (k a w (h ++ evs)), evs ++ snd (k a w (h ++ evs))).
Proof. intros H. unfold bind. rewrite H. destruct (k a w (h ++ evs)); reflexivity. Qed.

Lemma bind_run_throw (m : M A) (k : A -> M B) (w : World) (h : list event)
    (e : error) (evs : list event) :
  m w h = (Throw e, evs) -> bind m k w h = (Throw e, evs).
Proof. intros H. unfold bind. rewrite H. reflexivity. Qed.

Lemma bind_ok_inv (m : M A) (k : A -> M B) (w : World) (h : list event)
    (b : B) (evs : list event) :
  bind m k w h = (Ok b, evs) ->
  exists a evs1 evs2,
    m w h = (Ok a, evs1) /\ k a w (h ++ evs1) = (Ok b, evs2) /\ evs = evs1 ++ evs2.
Proof.
  unfold bind. destruct (m w h) as [[a | e] evs1]; [ | discriminate ].
  destruct (k a w (h ++ evs1)) as [r evs2] eqn:Ek.
  intros H. injection H as -> <-. eauto 6.
Qed.

End MonadLaws.

Lemma count_app (p : event -> bool) (l1 l2 : list event) :
  count p (l1 ++ l2) = (count p l1 + count p l2)%nat.
Proof.
  induction l1 as [ | ev l1 IH ]; cbn [count app]; [reflexivity | ].
  destruct (p ev); rewrite IH; reflexivity.
Qed.

Lemma bind_events {A B : Type} (m : M A) (k : A -> M B) (w : World) (h : list event) :
  snd (bind m k w h) =
    snd (m w h) ++
    match fst (m w h) with
    | Ok a => snd (k a w (h ++ snd (m w h)))
    | Throw _ => []
    end.
Proof.
  unfold bind. destruct (m w h) as [[a | e] evs]; cbn [fst snd].
  - destruct (k a w (h ++ evs)); reflexivity.
  - rewrite app_nil_r. reflexivity.
Qed.

Lemma lift_events {A : Type} (x : result A) (w : World) (h : list event)
    (r : result A) (evs : list event) :
  lift x w h = (r, evs) -> evs = [].
Proof. unfold lift. intros [= _ <-]. reflexivity. Qed.

(** The combinators of the monad, unfolded. *)
Ltac unfold_prog :=
  unfold bind, ret, throw, lift, ask, ask_opt, perform, try_rethrow in *.

(** Case analysis on the innermost scrutinee of the goal. *)
Ltac break_inner :=
  match goal with
  | |- context [match ?x with _ => _ end] =>
      lazymatch x with
      | context [match _ with _ => _ end] => fail
      | _ => destruct x eqn:?
      end
  end.

(** Inversion of a run that ended with a value. *)
Ltac inv_ok H :=
  repeat
    match type of H with
    | bind _ _ _ _ = (Ok _, _) =>
        let H1 := fresh "Hrun" in
        apply bind_ok_inv in H as (? & ? & ? & H1 & H & ?)
    | (if ?c then _ else _) _ _ = (Ok _, _) => destruct c eqn:?
    | match ?x with _ => _ end _ _ = (Ok _, _) => destruct x eqn:?
    | throw _ _ _ = (Ok _, _) => discriminate H
    end.

(** ** Rounding of binary64 values ([SpecFloat]) *)

Lemma digits2_pos_bounds (p : positive) :
  2 ^ (Zpos (digits2_pos p) - 1) <= Zpos p < 2 ^ Zpos (digits2_pos p).
Proof.
  induction p as [p IH | p IH | ]; cbn [digits2_pos].
  - rewrite Pos2Z.inj_succ. replace (Z.succ (Z.pos (digits2_pos p)) - 1) with (Z.succ (Z.pos (digits2_pos p) - 1)) by lia.
    rewrite !Z.pow_succ_r by lia. lia.
  - rewrite Pos2Z.inj_succ. replace (Z.succ (Z.pos (digits2_pos p)) - 1) with (Z.succ (Z.pos (digits2_pos p) - 1)) by lia.
    rewrite !Z.pow_succ_r by lia. lia.
  - simpl. lia.
Qed.

Lemma digits2_pos_unique (p : positive) (d : Z) :
  2 ^ (d - 1) <= Zpos p < 2 ^ d -> 0 < d -> Zpos (digits2_pos p) = d.
Proof.
  intros [Hlo Hhi] Hd.
  destruct (digits2_pos_bounds p) as [Blo Bhi].
  destruct (Z.lt_trichotomy (Zpos (digits2_pos p)) d) as [Hlt | [Heq | Hgt]]; [ | exact Heq | ].
  - exfalso. assert (2 ^ Zpos (digits2_pos p) <= 2 ^ (d - 1)) by (apply Z.pow_le_mono_r; lia). lia.
  - exfalso. assert (2 ^ d <= 2 ^ (Zpos (digits2_pos p) - 1)) by (apply Z.pow_le_mono_r; lia). lia.
Qed.


Lemma shr_1_m (r : shr_record) :
  0 <= shr_m r ->
  shr_m (shr_1 r) = shr_m r / 2 /\
  (shr_r (shr_1 r) = false <-> shr_m r mod 2 = 0) /\
  shr_s (shr_1 r) = shr_r r || shr_s r.
Proof.
  destruct r as [m r s]; cbn [shr_m shr_r shr_s]. intros Hm.
  destruct m as [ | [p | p | ] | p ]; cbn [shr_1 shr_m shr_r shr_s]; try lia.
  - repeat split; auto.
  - rewrite Pos2Z.inj_xI. repeat split; try discriminate.
    + apply Z.div_unique with (r := 1); lia.
    + intros H. exfalso. rewrite Z.add_comm, Z.mul_comm, Z.mod_add in H by lia. discriminate H.
  - rewrite Pos2Z.inj_xO. repeat split; auto.
    + apply Z.div_unique with (r := 0); lia.
    + intros _. rewrite Z.mul_comm. apply Z.mod_mul. lia.
  - repeat split; auto; discriminate.
Qed.

Lemma shr_1_inv (M k : Z) (r : shr_record) :
  0 <= M -> 0 <= k -> shr_inv M k r -> shr_inv M (k + 1) (shr_1 r).
Proof.
  intros HM Hk [Hm Hex].
  assert (Hpos : 0 < 2 ^ k) by (apply Z.pow_pos_nonneg; lia).
  assert (Hm0 : 0 <= shr_m r) by (rewrite Hm; apply Z.div_pos; lia).
  destruct (shr_1_m r Hm0) as (E1 & E2 & E3).
  split.
  - rewrite E1, Hm, Z.pow_add_r, Z.pow_1_r by lia. apply Z.div_div; lia.
  - rewrite Z.pow_add_r, Z.pow_1_r by lia.
    rewrite Z.rem_mul_r by lia. rewrite <- Hm.
    assert (0 <= M mod 2 ^ k < 2 ^ k) by (apply Z.mod_pos_bound; lia).
    assert (0 <= shr_m r mod 2 < 2) by (apply Z.mod_pos_bound; lia).
    rewrite E3. rewrite orb_false_iff. rewrite E2, Hex. nia.
Qed.

Lemma iter_pos_shr_inv (M : Z) (p : positive) :
  0 <= M -> forall k r, 0 <= k -> shr_inv M k r ->
  shr_inv M (k + Zpos p) (SpecFloat.iter_pos shr_1 p r).
Proof.
  intros HM. induction p as [p IH | p IH | ]; intros k r Hk Hr; cbn [SpecFloat.iter_pos].
  - replace (k + Z.pos p~1) with ((k + 1 + Z.pos p) + Z.pos p) by lia.
    apply IH; [lia | ]. apply IH; [lia | ]. apply shr_1_inv; assumption.
  - replace (k + Z.pos p~0) with ((k + Z.pos p) + Z.pos p) by lia.
    apply IH; [lia | ]. apply IH; assumption.
  - apply shr_1_inv; assumption.
Qed.

Lemma round_nearest_even_bounds (r : shr_record) :
  let q := shr_m r in
  q <= round_nearest_even q (loc_of_shr_record r) <= q + 1 /\
  (shr_r r || shr_s r = false -> round_nearest_even q (loc_of_shr_record r) = q).
Proof.
  destruct r as [m [|] [|]]; cbn; try destruct (Z.even m); split; try lia; try discriminate; auto.
Qed.

Lemma shr_start (M : Z) :
  shr_inv M 0 {| shr_m := M; shr_r := false; shr_s := false |}.
Proof.
  split; cbn [shr_m shr_r shr_s orb].
  - rewrite Z.pow_0_r, Z.div_1_r. reflexivity.
  - rewrite Z.pow_0_r, Z.mod_1_r. tauto.
Qed.

Lemma fexp_normal (d e n : Z) :
  n = d - 53 -> -1074 <= e + n -> fexp 53 1024 (d + e) - e = n.
Proof. intros -> H. unfold fexp, emin. lia. Qed.

Lemma binary_round_aux_normal (sx : bool) (M : positive) (e n a b : Z) :
  n = Zpos (digits2_pos M) - 53 -> 0 <= n -> -1074 <= e + n -> e + n + 1 <= 971 ->
  a * 2 ^ n <= Zpos M <= b * 2 ^ n ->
  exists (m' : positive) (e' : Z),
    binary_round_aux 53 1024 sx (Zpos M) e loc_Exact = S754_finite sx m' e' /\
    ((e' = e + n /\ a <= Zpos m' <= b /\ 2 ^ 52 <= Zpos m' < 2 ^ 53) \/
     (e' = e + n + 1 /\ m' = 4503599627370496%positive /\ 2 ^ 53 <= b)).
Proof.
  intros Hn Hn0 He1 He2 Hab.
  pose proof (digits2_pos_bounds M) as HdM.
  unfold binary_round_aux, shr_fexp. cbn [Zdigits2].
  rewrite (fexp_normal _ e n Hn He1). cbn [shr_record_of_loc].
  destruct n as [ | p | p ]; [ | | lia ].
  - (* the mantissa already has 53 digits *)
    cbn [shr loc_of_shr_record round_nearest_even shr_m shr_r shr_s Zdigits2].
    rewrite (fexp_normal _ e 0 Hn He1). cbn [shr shr_record_of_loc shr_m].
    replace (e <=? 1024 - 53) with true by (symmetry; apply Z.leb_le; lia).
    exists M, e. split; [reflexivity | left].
    replace (Zpos (digits2_pos M)) with 53 in HdM by lia.
    rewrite Z.pow_0_r in Hab. change (53 - 1) with 52 in HdM. lia.
  - (* [p] digits are shifted out *)
    cbn [shr].
    pose proof (iter_pos_shr_inv (Zpos M) p ltac:(lia) 0 _ ltac:(lia) (shr_start (Zpos M))) as Hinv.
    rewrite Z.add_0_l in Hinv.
    set (r := SpecFloat.iter_pos shr_1 p _) in *.
    destruct Hinv as [Hq Hex].
    destruct (round_nearest_even_bounds r) as [Hrne Hexact].
    cbn zeta in Hrne, Hexact.
    set (m1 := round_nearest_even (shr_m r) (loc_of_shr_record r)) in *.
    assert (Hpow : 0 < 2 ^ Zpos p) by (apply Z.pow_pos_nonneg; lia).
    assert (Hsplit : 2 ^ Zpos (digits2_pos M) = 2 ^ 53 * 2 ^ Zpos p).
    { rewrite <- Z.pow_add_r by lia. f_equal. lia. }
    assert (Hsplit' : 2 ^ (Zpos (digits2_pos M) - 1) = 2 ^ 52 * 2 ^ Zpos p).
    { rewrite <- Z.pow_add_r by lia. f_equal. lia. }
    assert (Hq52 : 2 ^ 52 <= shr_m r < 2 ^ 53).
    { rewrite Hq. split.
      - apply Z.div_le_lower_bound; lia.
      - apply Z.div_lt_upper_bound; lia. }
    assert (Hqa : a <= shr_m r).
    { rewrite Hq. apply Z.div_le_lower_bound; lia. }
    assert (Hm1b : m1 <= b).
    { destruct (Z.eq_dec (Zpos M mod 2 ^ Zpos p) 0) as [Hz | Hnz].
      - rewrite (Hexact (proj2 Hex Hz)). rewrite Hq.
        apply Z.div_le_upper_bound; lia.
      - assert (shr_m r < b); [ | lia ].
        rewrite Hq.
        apply Z.div_lt_upper_bound; [lia | ].
        pose proof (Z.div_mod (Zpos M) (2 ^ Zpos p) ltac:(lia)) as Hdm.
        pose proof (Z.mod_pos_bound (Zpos M) (2 ^ Zpos p) Hpow).
        destruct (Z.eq_dec (Zpos M) (b * 2 ^ Zpos p)) as [Heq | Hne]; [ | lia ].
        exfalso. apply Hnz. rewrite Heq. apply Z.mod_mul. lia. }
    clearbody m1. destruct m1 as [ | m | m ]; [ lia | | lia ].
    cbn [Zdigits2].
    destruct (Z.eq_dec (Zpos m) (2 ^ 53)) as [Hcarry | Hno].
    + (* the rounded mantissa is [2^53] *)
      assert (m = 9007199254740992%positive) as -> by (change (2 ^ 53) with 9007199254740992 in Hcarry; congruence).
      change (Zpos (digits2_pos 9007199254740992)) with 54.
      replace (fexp 53 1024 (54 + (e + Zpos p)) - (e + Zpos p)) with 1 by (unfold fexp, emin; lia).
      cbn [shr shr_record_of_loc SpecFloat.iter_pos shr_1 shr_m].
      replace (e + Zpos p + 1 <=? 1024 - 53) with true by (symmetry; apply Z.leb_le; lia).
      eexists _, _. split; [reflexivity | right]. repeat split. lia.
    + assert (Hd1 : Zpos (digits2_pos m) = 53) by (apply digits2_pos_unique; change (53 - 1) with 52; lia).
      rewrite Hd1.
      rewrite (fexp_normal 53 (e + Zpos p) 0) by lia.
      cbn [shr shr_record_of_loc shr_m].
      replace (e + Zpos p <=? 1024 - 53) with true by (symmetry; apply Z.leb_le; lia).
      exists m, (e + Zpos p). split; [reflexivity | left]. lia.
Qed.

Lemma iter_xO_pow (p d : positive) : Zpos (Pos.iter xO p d) = Zpos p * 2 ^ Zpos d.
Proof.
  induction d as [ | d IH ] using Pos.peano_ind.
  - cbn [Pos.iter]. rewrite Pos2Z.inj_xO. change (2 ^ 1) with 2. lia.
  - rewrite Pos.iter_succ, Pos2Z.inj_xO, IH, Pos2Z.inj_succ, Z.pow_succ_r by lia. lia.
Qed.

Lemma shl_align_value (mx : positive) (ex ex' : Z) :
  ex' <= ex -> Zpos (fst (shl_align mx ex ex')) = Zpos mx * 2 ^ (ex - ex').
Proof.
  intros H. unfold shl_align.
  destruct (ex' - ex) as [ | d | d ] eqn:E; cbn [fst].
  - replace (ex - ex') with 0 by lia. rewrite Z.pow_0_r. lia.
  - lia.
  - rewrite iter_xO_pow. f_equal. f_equal. lia.
Qed.

Lemma shl_align_id (mx : positive) (ex ex' : Z) :
  ex <= ex' -> shl_align mx ex ex' = (mx, ex).
Proof.
  intros H. unfold shl_align. destruct (ex' - ex) eqn:E; try reflexivity. lia.
Qed.

Lemma canonical_digits (m : positive) (e : Z) :
  canonical_mantissa 53 1024 m e = true -> Zpos m < 2 ^ 53 /\ -1074 <= e.
Proof.
  unfold canonical_mantissa, fexp, emin. intros H. apply Z.eqb_eq in H.
  pose proof (digits2_pos_bounds m) as [_ Hhi].
  split; [ | lia ].
  assert (2 ^ Zpos (digits2_pos m) <= 2 ^ 53) by (apply Z.pow_le_mono_r; lia). lia.
Qed.

Lemma slippage_cases (s : spec_float) :
  Num.valid s = true -> Num.le Num.zero s = true -> Num.le s Num.fifty = true ->
  (exists b, s = S754_zero b) \/
  (exists m e, s = S754_finite false m e /\ Zpos m < 2 ^ 53 /\ e <= -47 /\
     Zpos m <= 50 * 2 ^ 47 * 2 ^ (-47 - e)).
Proof.
  intros Hv H0 H50. destruct s as [b | b | | sg m e].
  - left. eauto.
  - destruct b; discriminate.
  - discriminate.
  - right. destruct sg; [discriminate | ].
    exists m, e. split; [reflexivity | ].
    unfold Num.valid, valid_binary, bounded in Hv. apply andb_prop in Hv as [Hc _].
    apply canonical_digits in Hc as [Hm Hemin].
    unfold Num.le, SFleb, SFcompare, Num.fifty in H50.
    assert (He47 : e <= -47 /\ (e = -47 -> (Zpos m <= 7036874417766400)%Z)).
    { destruct (Z.compare_spec e (-47)) as [He | He | He].
      - split; [lia | intros _].
        rewrite Pos.compare_cont_spec in H50. cbn [Pos.switch_Eq] in H50.
        destruct (Pos.compare_spec m 7036874417766400) as [Hc | Hc | Hc].
        + rewrite Hc. apply Z.le_refl.
        + apply Z.lt_le_incl, Pos2Z.pos_lt_pos, Hc.
        + discriminate H50.
      - split; [lia | intros Hc; lia].
      - discriminate H50. }
    destruct He47 as [He Hm47]. clear H0 H50.
    split; [exact Hm | ]. split; [exact He | ].
    change (2 ^ 47) with 140737488355328.
    destruct (Z.eq_dec e (-47)) as [-> | Hne].
    + change (-47 - -47) with 0. rewrite Z.pow_0_r. specialize (Hm47 eq_refl). lia.
    + assert (2 ^ 1 <= 2 ^ (-47 - e)) by (apply Z.pow_le_mono_r; lia).
      change (2 ^ 1) with 2 in *.
      change (2 ^ 53) with 9007199254740992 in Hm. lia.
Qed.

Lemma sub_hundred_range (s : spec_float) :
  Num.valid s = true -> Num.le Num.zero s = true -> Num.le s Num.fifty = true ->
  in_50_100 (Num.sub Num.hundred s).
Proof.
  intros Hv H0 H50.
  destruct (slippage_cases s Hv H0 H50) as [[b ->] | (m & e & -> & Hm & He & Hle)].
  - exists 7036874417766400%positive, (-46). split; [reflexivity | right].
    change (2 ^ 52) with 4503599627370496. change (2 ^ 46) with 70368744177664. lia.
  - clear Hv H0 H50. unfold Num.sub, Num.hundred, SFsub.
    change Num.prec with 53. change Num.emax with 1024.
    rewrite Z.min_r by lia. cbn [cond_Zopp].
    rewrite (shl_align_value 7036874417766400 (-46) e) by lia.
    rewrite (shl_align_value m e e) by lia.
    replace (e - e) with 0 by lia. rewrite Z.pow_0_r, Z.mul_1_r.
    set (t := 2 ^ (-47 - e)) in *.
    assert (Ht : 1 <= t) by (unfold t; change 1 with (2 ^ 0); apply Z.pow_le_mono_r; lia).
    assert (Ht2 : 2 ^ (-46 - e) = 2 * t).
    { unfold t. replace (-46 - e) with (Z.succ (-47 - e)) by lia. apply Z.pow_succ_r. lia. }
    rewrite Ht2.
    change (2 ^ 47) with 140737488355328 in Hle.
    change (2 ^ 53) with 9007199254740992 in Hm.
    destruct (7036874417766400 * (2 * t) - Zpos m) as [ | D | D ] eqn:ED; [ lia | | lia ].
    cbn [binary_normalize]. unfold binary_round.
    pose proof (digits2_pos_bounds D) as HdD.
    assert (Hcases : Zpos (digits2_pos D) = 6 - e \/ Zpos (digits2_pos D) = 7 - e).
    { destruct (Z.lt_ge_cases (Zpos D) (2 ^ 53 * t)) as [Hs | Hb].
      - left. apply digits2_pos_unique; [ | lia ].
        replace (6 - e - 1) with (52 + (-47 - e)) by lia.
        replace (6 - e) with (53 + (-47 - e)) by lia.
        rewrite !Z.pow_add_r by lia. fold t.
        change (2 ^ 52) with 4503599627370496. change (2 ^ 53) with 9007199254740992 in *. lia.
      - right. apply digits2_pos_unique; [ | lia ].
        replace (7 - e - 1) with (53 + (-47 - e)) by lia.
        replace (7 - e) with (54 + (-47 - e)) by lia.
        rewrite !Z.pow_add_r by lia. fold t.
        change (2 ^ 54) with 18014398509481984. change (2 ^ 53) with 9007199254740992 in *. lia. }
    rewrite shl_align_id by (unfold fexp, emin; lia).
    destruct Hcases as [Hd | Hd].
    + destruct (binary_round_aux_normal false D e (-47 - e) (50 * 2 ^ 47) (2 ^ 53))
        as (m' & e' & Hr & Hres); try lia.
      { fold t. rewrite Hd in HdD.
        replace (6 - e) with (53 + (-47 - e)) in HdD by lia.
        rewrite Z.pow_add_r in HdD by lia. fold t in HdD.
        change (2 ^ 47) with 140737488355328. lia. }
      exists m', e'. split; [exact Hr | ].
      destruct Hres as [(-> & Hab & Hn) | (-> & -> & _)].
      * left. split; [lia | ]. lia.
      * right. split; [lia | ].
        change (2 ^ 52) with 4503599627370496. change (2 ^ 46) with 70368744177664. lia.
    + destruct (binary_round_aux_normal false D e (-46 - e) (2 ^ 52) (100 * 2 ^ 46))
        as (m' & e' & Hr & Hres); try lia.
      { rewrite Ht2. rewrite Hd in HdD.
        replace (7 - e - 1) with (53 + (-47 - e)) in HdD by lia.
        rewrite Z.pow_add_r in HdD by lia. fold t in HdD.
        change (2 ^ 53) with 9007199254740992 in HdD.
        change (2 ^ 52) with 4503599627370496. change (2 ^ 46) with 70368744177664. lia. }
      exists m', e'. split; [exact Hr | ].
      destruct Hres as [(-> & Hab & Hn) | (-> & -> & Hb)].
      * right. split; [lia | ]. lia.
      * exfalso. change (2 ^ 53) with 9007199254740992 in Hb.
        change (2 ^ 46) with 70368744177664 in Hb. lia.
Qed.

Lemma mul_hundred_range (x : spec_float) :
  in_50_100 x -> in_5000_10000 (Num.mul x Num.hundred).
Proof.
  intros (mx & ex & -> & Hx).
  unfold Num.mul, Num.hundred, SFmul. cbn [xorb].
  change Num.prec with 53. change Num.emax with 1024.
  set (P := (mx * 7036874417766400)%positive).
  assert (HP : Zpos P = Zpos mx * 7036874417766400) by (unfold P; apply Pos2Z.inj_mul).
  clearbody P.
  change (2 ^ 47) with 140737488355328 in Hx.
  change (2 ^ 46) with 70368744177664 in Hx.
  change (2 ^ 52) with 4503599627370496 in Hx.
  change (2 ^ 53) with 9007199254740992 in Hx.
  destruct Hx as [[-> Hmx] | [-> Hmx]].
  - (* 50 <= x < 64 *)
    assert (Hd : Zpos (digits2_pos P) = 106).
    { apply digits2_pos_unique; [ | lia ].
      change (106 - 1) with 105.
      change (2 ^ 105) with 40564819207303340847894502572032.
      change (2 ^ 106) with 81129638414606681695789005144064. lia. }
    destruct (binary_round_aux_normal false P (-47 + -46) 53 (5000 * 2 ^ 40) (6400 * 2 ^ 40))
      as (m' & e' & Hr & Hres); try lia.
    exists m', e'. split; [exact Hr | ].
    change (2 ^ 40) with 1099511627776 in *. change (2 ^ 53) with 9007199254740992 in *.
    change (2 ^ 52) with 4503599627370496 in *.
    destruct Hres as [(-> & Hab & Hn) | (-> & -> & Hb)]; [ | lia ].
    left. split; lia.
  - (* 64 <= x <= 100 *)
    destruct (Z.lt_ge_cases (Zpos P) (2 ^ 105)) as [Hs | Hb].
    + assert (Hd : Zpos (digits2_pos P) = 105).
      { apply digits2_pos_unique; [ | lia ].
        change (105 - 1) with 104.
        change (2 ^ 104) with 20282409603651670423947251286016.
        change (2 ^ 105) with 40564819207303340847894502572032 in *. lia. }
      destruct (binary_round_aux_normal false P (-46 + -46) 52 (6400 * 2 ^ 40) (2 ^ 53))
        as (m' & e' & Hr & Hres); try lia.
      exists m', e'. split; [exact Hr | ].
      change (2 ^ 40) with 1099511627776 in *. change (2 ^ 53) with 9007199254740992 in *.
      change (2 ^ 52) with 4503599627370496 in *. change (2 ^ 39) with 549755813888.
      destruct Hres as [(-> & Hab & Hn) | (-> & -> & _)].
      * left. split; lia.
      * right. split; lia.
    + assert (Hd : Zpos (digits2_pos P) = 106).
      { apply digits2_pos_unique; [ | lia ].
        change (106 - 1) with 105.
        change (2 ^ 105) with 40564819207303340847894502572032 in *.
        change (2 ^ 106) with 81129638414606681695789005144064. lia. }
      destruct (binary_round_aux_normal false P (-46 + -46) 53 (2 ^ 52) (10000 * 2 ^ 39))
        as (m' & e' & Hr & Hres); try lia.
      exists m', e'. split; [exact Hr | ].
      change (2 ^ 39) with 549755813888 in *. change (2 ^ 53) with 9007199254740992 in *.
      change (2 ^ 52) with 4503599627370496 in *.
      destruct Hres as [(-> & Hab & Hn) | (-> & -> & Hb')]; [ | lia ].
      right. split; lia.
Qed.

Lemma floor_range (y : spec_float) :
  in_5000_10000 y -> exists k, Num.BigInt_floor y = Some k /\ 5000 <= k <= 10000.
Proof.
  intros (my & ey & -> & [[-> Hm] | [-> Hm]]);
    cbn [Num.BigInt_floor Z.leb Z.compare cond_Zopp Z.opp].
  - change (- (-40)) with 40.
    change (2 ^ 40) with 1099511627776 in *. change (2 ^ 53) with 9007199254740992 in *.
    eexists. split; [reflexivity | ].
    assert (Zpos my / 1099511627776 < 8192) by (apply Z.div_lt_upper_bound; lia).
    split; [ apply Z.div_le_lower_bound; lia | lia ].
  - change (- (-39)) with 39.
    change (2 ^ 39) with 549755813888 in *. change (2 ^ 52) with 4503599627370496 in *.
    eexists. split; [reflexivity | ].
    split; [ apply Z.div_le_lower_bound; lia | apply Z.div_le_upper_bound; lia ].
Qed.

Lemma slippageMultiplier_range (s : spec_float) :
  Num.valid s = true -> Num.le Num.zero s = true -> Num.le s Num.fifty = true ->
  exists k, SwapAction.slippageMultiplier s = Some k /\ 5000 <= k <= 10000.
Proof.
  intros Hv H0 H50. unfold SwapAction.slippageMultiplier.
  apply floor_range, mul_hundred_range, sub_hundred_range; assumption.
Qed.

(** ** The chain registry and the provider *)

Lemma getCurrentChain_registered (wp : WalletProvider) (chainName : string)
    (cfg : ChainConfig) :
  chains (configManager wp) !! chainName = Some cfg ->
  Wallet.getCurrentChain wp chainName =
    Ok {| chain_id := chainId cfg; chain_name := chainName;
          nativeCurrency_symbol := nativeToken cfg; chain_rpcUrl := rpc cfg |}.
Proof.
  intros H. unfold Wallet.getCurrentChain, PluginConfigManager.getChainConfig.
  rewrite H. reflexivity.
Qed.

Lemma isChainSupported_true (wp : WalletProvider) (chainName : string) :
  Wallet.isChainSupported wp chainName = Ok true ->
  exists cfg, chains (configManager wp) !! chainName = Some cfg.
Proof.
  unfold Wallet.isChainSupported, PluginConfigManager.getChainConfig.
  destruct (String.eqb chainName ""); [discriminate | ].
  destruct (chains (configManager wp) !! chainName) as [cfg | ]; [eauto | discriminate].
Qed.

Lemma isChainSupported_registered (wp : WalletProvider) (chainName : string)
    (cfg : ChainConfig) :
  chains (configManager wp) !! chainName = Some cfg -> chainName <> "" ->
  Wallet.isChainSupported wp chainName = Ok true.
Proof.
  intros Hc Hn. unfold Wallet.isChainSupported, PluginConfigManager.getChainConfig.
  apply String.eqb_neq in Hn. rewrite Hn, Hc. reflexivity.
Qed.

Lemma getChainUniswapRouter_run (wp : WalletProvider) (chainName : string)
    (cfg : ChainConfig) (w : World) (h : list event) :
  chains (configManager wp) !! chainName = Some cfg ->
  isAddress w (uniswapV2Router cfg) = true ->
  Wallet.getChainUniswapRouter wp chainName w h = (Ok (uniswapV2Router cfg), []).
Proof.
  intros Hc Ha.
  unfold Wallet.getChainUniswapRouter, PluginConfigManager.getUniswapAddress,
    PluginConfigManager.hasUniswap.
  rewrite Hc, bind_ask, Ha. reflexivity.
Qed.

Lemma encode_events (call : abi_call) (w : World) (h : list event)
    (r : result calldata) (evs : list event) :
  SwapAction.encode call w h = (r, evs) -> evs = [].
Proof.
  unfold SwapAction.encode, ask_opt. destruct (encodeFunctionData w call); intros [= _ <-]; reflexivity.
Qed.

Lemma encode_run (call : abi_call) (w : World) (h : list event) :
  encodeFunctionData w call = true ->
  SwapAction.encode call w h = (Ok (Encoded call), []).
Proof. intros H. unfold SwapAction.encode, ask_opt. rewrite H. reflexivity. Qed.

Lemma sendTransaction_plain (wp : WalletProvider) (chainName : string)
    (cfg : ChainConfig) (tx : EVMTransaction) (isBite : option bool)
    (w : World) (h : list event) :
  chains (configManager wp) !! chainName = Some cfg ->
  Wallet.is_automatic (biteConfig wp) || Js.truthy_flag isBite = false ->
  snd (Wallet.sendTransaction wp chainName tx isBite w h) =
    [EvSendTransaction chainName (account_address wp) (plain_tx tx)
       (value tx) (gas tx) (gasPrice tx)].
Proof.
  intros Hc Hm. unfold Wallet.sendTransaction, Wallet.getClient.
  rewrite (getCurrentChain_registered _ _ _ Hc), bind_lift_ok, Hm, bind_ret.
  unfold perform, plain_tx. break_inner; reflexivity.
Qed.

Lemma sendTransaction_encrypted (wp : WalletProvider) (chainName : string)
    (cfg : ChainConfig) (tx : EVMTransaction) (isBite : option bool)
    (w : World) (h : list event) :
  chains (configManager wp) !! chainName = Some cfg ->
  Wallet.is_automatic (biteConfig wp) || Js.truthy_flag isBite = true ->
  snd (Wallet.sendTransaction wp chainName tx isBite w h) =
    EvEncrypt (rpc cfg) (plain_tx tx) ::
    match bite_encryptTransaction w h (rpc cfg) (plain_tx tx) with
    | Some enc =>
        [EvSendTransaction chainName (account_address wp) enc
           (value tx) (gas tx) (gasPrice tx)]
    | None => []
    end.
Proof.
  intros Hc Hm. unfold Wallet.sendTransaction, Wallet.getClient.
  rewrite (getCurrentChain_registered _ _ _ Hc), bind_lift_ok, Hm.
  unfold Wallet.getChainRpc, PluginConfigManager.getRPC, PluginConfigManager.getChainConfig.
  rewrite Hc. cbn [rbind]. unfold Wallet.encryptTx, plain_tx.
  unfold_prog. rewrite !app_nil_r. cbn [app].
  destruct (bite_encryptTransaction w h (rpc cfg) _); [ | reflexivity ].
  break_inner; reflexivity.
Qed.

Lemma sendTransaction_sends_once (wp : WalletProvider) (chainName : string)
    (tx : EVMTransaction) (isBite : option bool) (w : World) (h : list event) :
  (count is_send (snd (Wallet.sendTransaction wp chainName tx isBite w h)) <= 1)%nat /\
  (is_ok (fst (Wallet.sendTransaction wp chainName tx isBite w h)) = true ->
   count is_send (snd (Wallet.sendTransaction wp chainName tx isBite w h)) = 1%nat).
Proof.
  unfold Wallet.sendTransaction, Wallet.getClient, Wallet.getChainRpc, Wallet.encryptTx.
  unfold_prog.
  repeat break_inner; cbn; split; try lia; try discriminate; auto.
Qed.

Lemma sendTransaction_no_wait (wp : WalletProvider) (chainName : string)
    (tx : EVMTransaction) (isBite : option bool) (w : World) (h : list event) :
  count is_wait (snd (Wallet.sendTransaction wp chainName tx isBite w h)) = 0%nat.
Proof.
  unfold Wallet.sendTransaction, Wallet.getClient, Wallet.getChainRpc, Wallet.encryptTx.
  unfold_prog.
  repeat break_inner; reflexivity.
Qed.

Lemma waitForTx_no_send (wp : WalletProvider) (chainName : string) (hash : option string)
    (w : World) (h : list event) :
  count is_send (snd (Wallet.waitForTx wp chainName hash w h)) = 0%nat.
Proof.
  unfold Wallet.waitForTx, Wallet.waitForReceipt, Wallet.getClient. unfold_prog.
  repeat break_inner; reflexivity.
Qed.

(* ===================================================================== *)
(** ** C1: the quote and the slippage *)
(* ===================================================================== *)

Lemma calculateAmountOut_run (wp : WalletProvider) (chainName : string)
    (cfg : ChainConfig) (w : World) (h : list event) (amountIn : Z)
    (tokenIn tokenOut : string) (slippage : Num.number) (amounts : list Z)
    (out k : Z) :
  chains (configManager wp) !! chainName = Some cfg ->
  isAddress w (uniswapV2Router cfg) = true ->
  read_getAmountsOut w h chainName (uniswapV2Router cfg) amountIn [tokenIn; tokenOut]
    = Some amounts ->
  nth_error amounts 1 = Some out ->
  SwapAction.slippageMultiplier slippage = Some k ->
  SwapAction.calculateAmountOut wp amountIn tokenIn tokenOut slippage chainName w h =
    (Ok {| amountOut := out; amountOutMin := Z.quot (out * k) 10000 |},
     [EvReadContract chainName (uniswapV2Router cfg)
        (GetAmountsOut amountIn [tokenIn; tokenOut])]).
Proof.
  intros Hc Ha Hq Hn Hk. unfold SwapAction.calculateAmountOut.
  rewrite (bind_run_ok _ _ _ _ _ _ (getChainUniswapRouter_run _ _ _ _ _ Hc Ha)).
  rewrite app_nil_r. cbn [app].
  unfold try_rethrow, Wallet.read_GetAmountsOut, Wallet.readContract, Wallet.getClient.
  rewrite (getCurrentChain_registered _ _ _ Hc).
  unfold bind, lift, perform. rewrite app_nil_r, Hq. cbn [app].
  rewrite Hn, Hk. reflexivity.
Qed.

Lemma multiplier_zero : SwapAction.slippageMultiplier Num.zero = Some 10000.
Proof. reflexivity. Qed.

Lemma multiplier_fifty : SwapAction.slippageMultiplier Num.fifty = Some 5000.
Proof. vm_compute. reflexivity. Qed.

Lemma multiplier_half : SwapAction.slippageMultiplier Num.half = Some 9950.
Proof. vm_compute. reflexivity. Qed.

(** C1.  For every output amount that the quote call returns and every
    slippage percent between 0 and 50, [calculateAmountOut] returns
    [amountOutMin = amountOut * floor((100 - slippage) * 100) / 10000], the
    division being the truncating one of integers; the multiplier lies
    between 5000 and 10000.  With slippage 0 [amountOutMin] is [amountOut],
    with slippage 50 it is [amountOut / 2]. *)
Theorem calculateAmountOut_slippage (wp : WalletProvider) (chainName : string)
    (cfg : ChainConfig) (w : World) (h : list event) (amountIn : Z)
    (tokenIn tokenOut : string) (slippage : Num.number) (amounts : list Z) (out : Z) :
  chains (configManager wp) !! chainName = Some cfg ->
  isAddress w (uniswapV2Router cfg) = true ->
  read_getAmountsOut w h chainName (uniswapV2Router cfg) amountIn [tokenIn; tokenOut]
    = Some amounts ->
  nth_error amounts 1 = Some out ->
  Num.valid slippage = true ->
  Num.le Num.zero slippage = true ->
  Num.le slippage Num.fifty = true ->
  exists k,
    Num.BigInt_floor (Num.mul (Num.sub Num.hundred slippage) Num.hundred) = Some k /\
    5000 <= k <= 10000 /\
    SwapAction.calculateAmountOut wp amountIn tokenIn tokenOut slippage chainName w h =
      (Ok {| amountOut := out; amountOutMin := Z.quot (out * k) 10000 |},
       [EvReadContract chainName (uniswapV2Router cfg)
          (GetAmountsOut amountIn [tokenIn; tokenOut])]) /\
    (slippage = Num.zero -> Z.quot (out * k) 10000 = out) /\
    (slippage = Num.fifty -> Z.quot (out * k) 10000 = Z.quot out 2).
Proof.
  intros Hc Ha Hq Hn Hv H0 H50.
  destruct (slippageMultiplier_range slippage Hv H0 H50) as (k & Hk & Hrange).
  exists k. split; [exact Hk | ]. split; [exact Hrange | ].
  split; [ exact (calculateAmountOut_run _ _ _ _ _ _ _ _ _ _ _ _ Hc Ha Hq Hn Hk) | ].
  split; intros ->.
  - rewrite multiplier_zero in Hk. injection Hk as <-. apply Z.quot_mul. discriminate.
  - rewrite multiplier_fifty in Hk. injection Hk as <-.
    change 10000 with (2 * 5000). apply Z.quot_mul_cancel_r; discriminate.
Qed.

(** The quote of the test-suite, 0.5 for 1, with the default slippage of
    0.5 percent. *)
Lemma calculateAmountOut_slippage_witness :
  SwapAction.calculateAmountOut (TestDoubles.wallet manual) (10 ^ 18)
    TestDoubles.WFAIR TestDoubles.USDC Num.half TestDoubles.chain
    (TestDoubles.world TestDoubles.noAllowance (Some TestDoubles.txHash)) [] =
  (Ok {| amountOut := 500000000000000000; amountOutMin := 497500000000000000 |},
   [EvReadContract TestDoubles.chain TestDoubles.router
      (GetAmountsOut (10 ^ 18) [TestDoubles.WFAIR; TestDoubles.USDC])]).
Proof.
  destruct (calculateAmountOut_slippage (TestDoubles.wallet manual) TestDoubles.chain
              DEFAULT_CHAIN_CONFIG
              (TestDoubles.world TestDoubles.noAllowance (Some TestDoubles.txHash)) []
              (10 ^ 18) TestDoubles.WFAIR TestDoubles.USDC Num.half
              [10 ^ 18; 500000000000000000] 500000000000000000)
    as (k & Hk & _ & Hrun & _);
    [ reflexivity | reflexivity | reflexivity | reflexivity
    | reflexivity | reflexivity | reflexivity | ].
  vm_compute in Hk. injection Hk as <-. exact Hrun.
Defined.

(* ===================================================================== *)
(** ** C2 and C9: token resolution *)
(* ===================================================================== *)



(** Without a wrapped-native entry in the token table the lookup of the
    registry throws. *)
Lemma resolve_native_unwrapped (wp : WalletProvider) (token chainName : string)
    (cfg : ChainConfig) :
  chains (configManager wp) !! chainName = Some cfg ->
  Js.startsWith token "0x" = false ->
  Js.toLowerCase token = Js.toLowerCase (nativeToken cfg) ->
  tokens cfg !! String.append "W" (nativeToken cfg) = None ->
  SwapAction.resolveTokenAddress wp token chainName = Throw TokenNotRegistered.
Proof.
  intros Hc Hp Hl Ht. unfold SwapAction.resolveTokenAddress.
  rewrite Hp, (getCurrentChain_registered _ _ _ Hc). cbn [rbind nativeCurrency_symbol].
  rewrite Hl, String.eqb_refl.
  unfold Wallet.getChainToken, PluginConfigManager.getTokenAddress.
  rewrite Hc, Ht. reflexivity.
Qed.




(* ===================================================================== *)
(** ** C3: the slippage handed to the quote *)
(* ===================================================================== *)

(** A given slippage is used when it is a truthy number. *)
Lemma effectiveSlippage_given (params : SwapParams) (s : Num.number) :
  sp_slippage params = Some s -> Num.truthy s = true ->
  SwapAction.effectiveSlippage params = s.
Proof.
  intros Hs Ht. unfold SwapAction.effectiveSlippage. rewrite Hs, Ht. reflexivity.
Qed.

Lemma effectiveSlippage_omitted (params : SwapParams) :
  sp_slippage params = None ->
  SwapAction.effectiveSlippage params = SwapAction.DEFAULT_SLIPPAGE.
Proof. intros Hs. unfold SwapAction.effectiveSlippage. rewrite Hs. reflexivity. Qed.

(** C3 fails in the code for a slippage of 0.  The validation accepts it,
    but [params.slippage || DEFAULT_SLIPPAGE] replaces the falsy 0 by 0.5:
    for the quote of 0.5 the swap is sent with a minimum of
    497500000000000000 instead of 500000000000000000. *)
Lemma swap_zero_slippage_uses_default :
  let w := TestDoubles.world TestDoubles.noAllowance (Some TestDoubles.txHash) in
  let params := TestDoubles.swapParams (Some Num.zero) in
  SwapAction.validateAndNormalizeParams params w [] = (Ok tt, []) /\
  SwapAction.effectiveSlippage params = Num.half /\
  sent (snd (SwapAction.swap (TestDoubles.wallet manual) params w [])) =
    [ {| tx_to := Plain TestDoubles.router;
         tx_data :=
           Some (Encoded (SwapExactETHForTokens 497500000000000000
                            [TestDoubles.WFAIR; TestDoubles.USDC]
                            TestDoubles.walletAddress 1700000300)) |} ].
Proof. cbv zeta. split; [ | split ]; vm_compute; reflexivity. Qed.

(* ===================================================================== *)
(** ** C4: validation of a swap request *)
(* ===================================================================== *)

Lemma swap_validate_same (params : SwapParams) (w : World) (h : list event) :
  tokens_present params -> same_token params ->
  SwapAction.validateAndNormalizeParams params w h = (Throw SameTokenSwap, []).
Proof.
  intros [Hi Ho] Hs. unfold SwapAction.validateAndNormalizeParams.
  rewrite Hi, Ho. cbn [negb orb]. red in Hs. rewrite Hs, String.eqb_refl. reflexivity.
Qed.

Lemma swap_validate_slippage (params : SwapParams) (w : World) (h : list event) :
  tokens_present params -> ~ same_token params -> amount_accepted w params ->
  slippage_out_of_range params ->
  SwapAction.validateAndNormalizeParams params w h = (Throw InvalidSlippage, []).
Proof.
  intros [Hi Ho] Hs [Ha Hf] (s & Hsl & Hout). unfold SwapAction.validateAndNormalizeParams.
  rewrite Hi, Ho. cbn [negb orb].
  apply String.eqb_neq in Hs. rewrite Hs, Ha. cbn [negb].
  rewrite bind_ask, Hf, Hsl.
  destruct Hout as [-> | ->]; [ reflexivity | ].
  rewrite orb_true_r. reflexivity.
Qed.

Lemma swap_validate_rejects (params : SwapParams) (w : World) (h : list event) :
  same_token params \/ slippage_out_of_range params ->
  exists e, SwapAction.validateAndNormalizeParams params w h = (Throw e, []).
Proof.
  intros Hbad. unfold SwapAction.validateAndNormalizeParams.
  destruct (negb (Js.truthy (sp_inputToken params)) || negb (Js.truthy (sp_outputToken params)));
    [eexists; reflexivity | ].
  destruct (String.eqb (Js.toLowerCase (sp_inputToken params))
              (Js.toLowerCase (sp_outputToken params))) eqn:Es;
    [eexists; reflexivity | ].
  destruct (negb (Js.truthy (sp_amount params))); [eexists; reflexivity | ].
  rewrite bind_ask.
  destruct (Num.le (parseFloat w (sp_amount params)) Num.zero); [eexists; reflexivity | ].
  destruct Hbad as [Hs | (s & Hsl & Hout)].
  - apply String.eqb_neq in Es. contradiction.
  - rewrite Hsl. destruct Hout as [-> | ->]; [ eexists; reflexivity | ].
    rewrite orb_true_r. eexists; reflexivity.
Qed.

Lemma swap_after_validation (wp : WalletProvider) (params : SwapParams) (w : World)
    (h : list event) (e : error) :
  Wallet.isChainSupported wp (sp_chainName params) = Ok true ->
  SwapAction.validateAndNormalizeParams params w h = (Throw e, []) ->
  SwapAction.swap wp params w h = (Throw e, []).
Proof.
  intros Hsup Hv. unfold SwapAction.swap. rewrite Hsup, bind_lift_ok. cbn [negb].
  apply bind_run_throw. exact Hv.
Qed.

Lemma swap_rejected_early (wp : WalletProvider) (params : SwapParams) (w : World)
    (h : list event) :
  same_token params \/ slippage_out_of_range params ->
  exists e, SwapAction.swap wp params w h = (Throw e, []).
Proof.
  intros Hbad.
  destruct (Wallet.isChainSupported wp (sp_chainName params)) as [[ | ] | e] eqn:Hsup.
  - destruct (swap_validate_rejects params w h Hbad) as [e He].
    exists e. apply swap_after_validation; assumption.
  - eexists. unfold SwapAction.swap. rewrite Hsup, bind_lift_ok. reflexivity.
  - eexists. unfold SwapAction.swap. rewrite Hsup. reflexivity.
Qed.

(** C4.  A swap request whose input and output tokens are equal up to
    case, or whose given slippage is below 0 or above 50, fails before any
    external call is made: no decimals are read, no quote is asked, no
    transaction is sent.  On a supported chain the first fails with
    [SameTokenSwap] once both tokens are present, and the second with
    [InvalidSlippage] once the tokens and the amount have passed the checks
    that come before the one on the slippage. *)
Theorem swap_validation_before_network (wp : WalletProvider) (params : SwapParams)
    (w : World) (h : list event) :
  (same_token params \/ slippage_out_of_range params ->
   exists e, SwapAction.swap wp params w h = (Throw e, [])) /\
  (Wallet.isChainSupported wp (sp_chainName params) = Ok true ->
   tokens_present params -> same_token params ->
   SwapAction.swap wp params w h = (Throw SameTokenSwap, [])) /\
  (Wallet.isChainSupported wp (sp_chainName params) = Ok true ->
   tokens_present params -> ~ same_token params -> amount_accepted w params ->
   slippage_out_of_range params ->
   SwapAction.swap wp params w h = (Throw InvalidSlippage, [])).
Proof.
  split; [ | split ].
  - apply swap_rejected_early.
  - intros Hsup Hp Hs. apply swap_after_validation; [exact Hsup | ].
    apply swap_validate_same; assumption.
  - intros Hsup Hp Hs Ha Hout. apply swap_after_validation; [exact Hsup | ].
    apply swap_validate_slippage; assumption.
Qed.

(** Scenarios D and E: USDC for usdc, and a slippage of 60. *)
Lemma swap_validation_before_network_witness :
  let w := TestDoubles.world TestDoubles.noAllowance (Some TestDoubles.txHash) in
  SwapAction.swap (TestDoubles.wallet manual)
    {| sp_chainName := TestDoubles.chain; sp_inputToken := "USDC";
       sp_outputToken := "usdc"; sp_amount := "1.0"; sp_slippage := None;
       sp_isBite := None |} w [] = (Throw SameTokenSwap, []) /\
  SwapAction.swap (TestDoubles.wallet manual)
    (TestDoubles.swapParams (Some Num.sixty)) w [] = (Throw InvalidSlippage, []).
Proof.
  cbv zeta. split.
  - apply (proj1 (proj2 (swap_validation_before_network _ _ _ _))).
    + reflexivity.
    + split; reflexivity.
    + reflexivity.
  - apply (proj2 (proj2 (swap_validation_before_network _ _ _ _))).
    + reflexivity.
    + split; reflexivity.
    + discriminate.
    + split; reflexivity.
    + exists Num.sixty. split; [reflexivity | right; reflexivity].
Defined.

(* ===================================================================== *)
(** ** C5: the approval gate *)
(* ===================================================================== *)

Lemma read_Allowance_run (wp : WalletProvider) (chainName token spender : string)
    (cfg : ChainConfig) (w : World) (h : list event) (a : Z) :
  chains (configManager wp) !! chainName = Some cfg ->
  read_allowance w h chainName token (account_address wp) spender = Some a ->
  Wallet.read_Allowance wp chainName token (Wallet.getAddress wp) spender w h =
    (Ok a, [allowance_read wp chainName token spender]).
Proof.
  intros Hc Ha. unfold Wallet.read_Allowance, Wallet.readContract, Wallet.getClient.
  rewrite (getCurrentChain_registered _ _ _ Hc), bind_lift_ok.
  unfold perform, Wallet.getAddress. rewrite Ha. reflexivity.
Qed.

Lemma approveToken_sufficient (wp : WalletProvider) (chainName token spender : string)
    (amount : Z) (isBite : option bool) (cfg : ChainConfig) (w : World)
    (h : list event) (a : Z) :
  chains (configManager wp) !! chainName = Some cfg ->
  read_allowance w h chainName token (account_address wp) spender = Some a ->
  amount <= a ->
  SwapAction.approveToken wp token spender amount chainName isBite w h =
    (Ok tt, [allowance_read wp chainName token spender]).
Proof.
  intros Hc Ha Hle. unfold SwapAction.approveToken.
  rewrite (bind_run_ok _ _ _ _ _ _ (read_Allowance_run _ _ _ _ _ _ _ _ Hc Ha)).
  replace (a <? amount) with false by (symmetry; apply Z.ltb_ge; exact Hle).
  cbn [ret fst snd]. rewrite app_nil_r. reflexivity.
Qed.

Lemma approveToken_sends_once (wp : WalletProvider) (chainName token spender : string)
    (amount : Z) (isBite : option bool) (w : World) (h : list event) :
  (count is_send
     (snd (SwapAction.approveToken wp token spender amount chainName isBite w h)) <= 1)%nat.
Proof.
  unfold SwapAction.approveToken.
  unfold bind at 1.
  destruct (Wallet.read_Allowance _ _ _ _ _ w h) as [[a | e] evs] eqn:Er.
  - assert (Hevs : count is_send evs = 0%nat).
    { revert Er. unfold Wallet.read_Allowance, Wallet.readContract, Wallet.getClient.
      unfold_prog. repeat break_inner; intros [= <- <-] || intros [=]; reflexivity. }
    destruct (a <? amount).
    + unfold bind at 1. unfold SwapAction.encode at 1. unfold ask_opt.
      destruct (encodeFunctionData w _); [ | cbn; rewrite app_nil_r; lia ].
      unfold bind at 1. unfold lift at 1.
      destruct (Wallet.getCurrentChain wp chainName) as [c | e]; [ | cbn; rewrite !app_nil_r; lia ].
      rewrite !app_nil_r. cbn [app].
      unfold bind.
      match goal with
      | |- context [Wallet.sendTransaction ?x1 ?x2 ?x3 ?x4 ?x5 ?x6] =>
          pose proof (sendTransaction_sends_once x1 x2 x3 x4 x5 x6) as [Hs _];
          destruct (Wallet.sendTransaction x1 x2 x3 x4 x5 x6) as [[hash | e] evs2]
      end; cbn [snd] in Hs.
      * match goal with
        | |- context [Wallet.waitForTx ?x1 ?x2 ?x3 ?x4 ?x5] =>
            pose proof (waitForTx_no_send x1 x2 x3 x4 x5) as Hw;
            destruct (Wallet.waitForTx x1 x2 x3 x4 x5) as [r evs3]
        end; cbn [snd] in Hw |- *.
        rewrite !count_app. lia.
      * cbn [snd]. rewrite !count_app. cbn [count]. lia.
    + cbn. rewrite app_nil_r. lia.
  - cbn [snd].
    revert Er. unfold Wallet.read_Allowance, Wallet.readContract, Wallet.getClient.
    unfold_prog. repeat break_inner; intros [= <- <-] || intros [=]; cbn; lia.
Qed.

Lemma approveToken_completed (wp : WalletProvider) (chainName token spender : string)
    (amount : Z) (isBite : option bool) (cfg : ChainConfig) (w : World)
    (h : list event) (a : Z) (evs : list event) :
  chains (configManager wp) !! chainName = Some cfg ->
  read_allowance w h chainName token (account_address wp) spender = Some a ->
  a < amount ->
  SwapAction.approveToken wp token spender amount chainName isBite w h = (Ok tt, evs) ->
  count is_send evs = 1%nat.
Proof.
  intros Hc Ha Hlt. unfold SwapAction.approveToken.
  rewrite (bind_run_ok _ _ _ _ _ _ (read_Allowance_run _ _ _ _ _ _ _ _ Hc Ha)).
  replace (a <? amount) with true by (symmetry; apply Z.ltb_lt; exact Hlt).
  intros H.
  match type of H with
  | (fst ?r, _ ++ snd ?r) = _ => destruct r as [r1 evs'] eqn:Er
  end.
  cbn [fst snd] in H. injection H as -> <-.
  apply bind_ok_inv in Er as (d & e1 & e2 & He1 & Er & ->).
  apply bind_ok_inv in Er as (c & e3 & e4 & He3 & Er & ->).
  apply bind_ok_inv in Er as (hash & e5 & e6 & Hs & Hw & ->).
  apply encode_events in He1 as ->. apply lift_events in He3 as ->.
  match type of Hs with
  | Wallet.sendTransaction ?x1 ?x2 ?x3 ?x4 ?x5 ?x6 = _ =>
      pose proof (sendTransaction_sends_once x1 x2 x3 x4 x5 x6) as [_ Hone]
  end.
  rewrite Hs in Hone. specialize (Hone eq_refl). cbn [snd] in Hone.
  match type of Hw with
  | Wallet.waitForTx ?x1 ?x2 ?x3 ?x4 ?x5 = _ =>
      pose proof (waitForTx_no_send x1 x2 x3 x4 x5) as Hzero
  end.
  rewrite Hw in Hzero. cbn [snd] in Hzero.
  cbn [app count allowance_read is_send]. rewrite count_app. lia.
Qed.

Lemma approveToken_submits (wp : WalletProvider) (chainName token spender : string)
    (amount : Z) (isBite : option bool) (cfg : ChainConfig) (w : World)
    (h : list event) (a : Z) :
  chains (configManager wp) !! chainName = Some cfg ->
  read_allowance w h chainName token (account_address wp) spender = Some a ->
  a < amount ->
  encodeFunctionData w (Erc20Approve spender amount) = true ->
  (Wallet.is_automatic (biteConfig wp) || Js.truthy_flag isBite = true ->
   is_Some (bite_encryptTransaction w (h ++ [allowance_read wp chainName token spender])
              (rpc cfg) (approve_tx token spender amount))) ->
  count is_send
    (snd (SwapAction.approveToken wp token spender amount chainName isBite w h)) = 1%nat /\
  (Wallet.is_automatic (biteConfig wp) || Js.truthy_flag isBite = false ->
   sent (snd (SwapAction.approveToken wp token spender amount chainName isBite w h)) =
     [approve_tx token spender amount]).
Proof.
  intros Hc Ha Hlt Henc Hbite. unfold SwapAction.approveToken.
  rewrite (bind_run_ok _ _ _ _ _ _ (read_Allowance_run _ _ _ _ _ _ _ _ Hc Ha)).
  replace (a <? amount) with true by (symmetry; apply Z.ltb_lt; exact Hlt).
  cbn [snd].
  rewrite (bind_run_ok _ _ _ _ _ _ (encode_run _ _ _ Henc)). cbn [snd app].
  rewrite (getCurrentChain_registered _ _ _ Hc), !bind_lift_ok.
  rewrite !bind_events, ?app_nil_r.
  match goal with
  | |- context [Wallet.waitForTx ?x1 ?x2] =>
      assert (Hw : forall hash w' h', count is_send (snd (Wallet.waitForTx x1 x2 hash w' h')) = 0%nat
                   /\ sent (snd (Wallet.waitForTx x1 x2 hash w' h')) = [])
  end.
  { intros hash w' h'. unfold Wallet.waitForTx, Wallet.waitForReceipt, Wallet.getClient.
    unfold_prog. repeat break_inner; split; reflexivity. }
  destruct (Wallet.is_automatic (biteConfig wp) || Js.truthy_flag isBite) eqn:Em.
  - rewrite (sendTransaction_encrypted _ _ _ _ _ _ _ Hc Em).
    destruct (Hbite eq_refl) as [enc Hb]. unfold plain_tx. cbn [to data].
    fold (approve_tx token spender amount). cbn [app] in Hb |- *. rewrite Hb.
    split; [ | discriminate ].
    cbn [app count allowance_read is_send value gas gasPrice].
    destruct (fst _); [ rewrite (proj1 (Hw _ _ _)) | ]; reflexivity.
  - rewrite (sendTransaction_plain _ _ _ _ _ _ _ Hc Em).
    unfold plain_tx. cbn [to data]. fold (approve_tx token spender amount).
    split; [ | intros _ ].
    + cbn [app count allowance_read is_send value gas gasPrice].
      destruct (fst _); [ rewrite (proj1 (Hw _ _ _)) | ]; reflexivity.
    + cbn [app sent allowance_read].
      destruct (fst _); [ rewrite (proj2 (Hw _ _ _)) | ]; reflexivity.
Qed.

Lemma approveToken_twice (wp : WalletProvider) (chainName token spender : string)
    (amount : Z) (isBite : option bool) (cfg : ChainConfig) (w : World)
    (h : list event) (a : Z) (evs1 : list event) :
  chains (configManager wp) !! chainName = Some cfg ->
  read_allowance w h chainName token (account_address wp) spender = Some a ->
  SwapAction.approveToken wp token spender amount chainName isBite w h = (Ok tt, evs1) ->
  (a < amount -> allowance_covers w (h ++ evs1) wp chainName token spender amount) ->
  (count is_send
     (evs1 ++ snd (SwapAction.approveToken wp token spender amount chainName isBite w
                     (h ++ evs1))) <= 1)%nat.
Proof.
  intros Hc Ha Hrun Hchain. rewrite count_app.
  destruct (Z.lt_ge_cases a amount) as [Hlt | Hge].
  - rewrite (approveToken_completed _ _ _ _ _ _ _ _ _ _ _ Hc Ha Hlt Hrun).
    destruct (Hchain Hlt) as (a' & Ha' & Hle).
    rewrite (approveToken_sufficient _ _ _ _ _ _ _ _ _ _ Hc Ha' Hle). cbn. lia.
  - rewrite (approveToken_sufficient _ _ _ _ _ _ _ _ _ _ Hc Ha Hge) in Hrun.
    injection Hrun as <-. cbn [count allowance_read is_send].
    pose proof (approveToken_sends_once wp chainName token spender amount isBite w
                  (h ++ [allowance_read wp chainName token spender])). 
    cbn [allowance_read] in *. lia.
Qed.

(** C5.  The approval gate reads the allowance of the router over the
    owner's tokens.  When the allowance covers the amount, the read is the
    only external call.  When it is strictly below the amount, one
    [approve(router, amount)] transaction is submitted (given that the call
    encodes and that the encryption, where it applies, succeeds).  For a run
    that completes, a transaction was sent exactly when the allowance was
    strictly below the amount.  Two completed runs in a row from the same
    allowance and for the same amount send at most one approval, the
    approval of the first run, once confirmed, covering the amount as ERC-20
    has it. *)
Theorem approval_gate (wp : WalletProvider) (chainName token spender : string)
    (amount : Z) (isBite : option bool) (cfg : ChainConfig) (w : World)
    (h : list event) (a : Z) :
  chains (configManager wp) !! chainName = Some cfg ->
  read_allowance w h chainName token (account_address wp) spender = Some a ->
  let gate := SwapAction.approveToken wp token spender amount chainName isBite w in
  (amount <= a -> gate h = (Ok tt, [allowance_read wp chainName token spender])) /\
  (a < amount ->
   encodeFunctionData w (Erc20Approve spender amount) = true ->
   (Wallet.is_automatic (biteConfig wp) || Js.truthy_flag isBite = true ->
    is_Some (bite_encryptTransaction w (h ++ [allowance_read wp chainName token spender])
               (rpc cfg) (approve_tx token spender amount))) ->
   count is_send (snd (gate h)) = 1%nat /\
   (Wallet.is_automatic (biteConfig wp) || Js.truthy_flag isBite = false ->
    sent (snd (gate h)) = [approve_tx token spender amount])) /\
  (fst (gate h) = Ok tt -> (count is_send (snd (gate h)) = 1%nat <-> a < amount)) /\
  (forall evs1, gate h = (Ok tt, evs1) ->
   (a < amount -> allowance_covers w (h ++ evs1) wp chainName token spender amount) ->
   (count is_send (evs1 ++ snd (gate (h ++ evs1))) <= 1)%nat).
Proof.
  intros Hc Ha gate. subst gate. split; [ | split; [ | split ] ].
  - intros Hle. exact (approveToken_sufficient _ _ _ _ _ _ _ _ _ _ Hc Ha Hle).
  - intros Hlt Henc Hbite. exact (approveToken_submits _ _ _ _ _ _ _ _ _ _ Hc Ha Hlt Henc Hbite).
  - intros Hok.
    destruct (SwapAction.approveToken wp token spender amount chainName isBite w h)
      as [r evs] eqn:Hrun.
    cbn [fst snd] in Hok |- *. subst r.
    destruct (Z.lt_ge_cases a amount) as [Hlt | Hge].
    + rewrite (approveToken_completed _ _ _ _ _ _ _ _ _ _ _ Hc Ha Hlt Hrun). tauto.
    + rewrite (approveToken_sufficient _ _ _ _ _ _ _ _ _ _ Hc Ha Hge) in Hrun.
      injection Hrun as <-. cbn [count allowance_read is_send]. split; [discriminate | lia].
  - intros evs1 Hrun Hnext.
    exact (approveToken_twice _ _ _ _ _ _ _ _ _ _ _ Hc Ha Hrun Hnext).
Qed.

(** An ERC-20 token on which the router has no allowance, and an amount of
    [10^18]: the first run sends the approval, the second one finds the
    allowance and sends nothing. *)
Lemma approval_gate_witness :
  let w := TestDoubles.world (TestDoubles.erc20Allowance (10 ^ 18)) (Some TestDoubles.txHash) in
  let gate :=
    SwapAction.approveToken (TestDoubles.wallet manual) TestDoubles.USDC
      TestDoubles.router (10 ^ 18) TestDoubles.chain (Some false) w in
  sent (snd (gate [])) = [approve_tx TestDoubles.USDC TestDoubles.router (10 ^ 18)] /\
  (count is_send (snd (gate []) ++ snd (gate ([] ++ snd (gate [])))) <= 1)%nat.
Proof.
  cbv zeta.
  pose proof (approval_gate (TestDoubles.wallet manual) TestDoubles.chain TestDoubles.USDC
                TestDoubles.router (10 ^ 18) (Some false) DEFAULT_CHAIN_CONFIG
                (TestDoubles.world (TestDoubles.erc20Allowance (10 ^ 18))
                   (Some TestDoubles.txHash))
                [] 0 eq_refl eq_refl) as (_ & Hsend & _ & Htwice).
  split.
  - apply Hsend.
    + reflexivity.
    + reflexivity.
    + discriminate.
    + reflexivity.
  - apply Htwice.
    + vm_compute. reflexivity.
    + intros _. exists (10 ^ 18). split; [vm_compute; reflexivity | apply Z.le_refl].
Defined.

(* ===================================================================== *)
(** ** C6: a broadcast without a transaction hash *)
(* ===================================================================== *)

Lemma parseAmount_run (a : string) (decimals v : Z) (w : World) (h : list event) :
  parseUnits w a decimals = Some v ->
  TransferAction.parseAmount (Some a) decimals w h = (Ok v, []).
Proof.
  intros H. unfold TransferAction.parseAmount, ask_opt. cbn [mbind option_bind].
  rewrite H. reflexivity.
Qed.

(** A native transfer answers with whatever hash the broadcast returned, and
    waits for no receipt. *)
Lemma transfer_native_keeps_hash (wp : WalletProvider) (params : TransferParams)
    (w : World) (h : list event) (cfg : ChainConfig) (s a : string) (v : Z)
    (hash : option string) (evs : list event) :
  tp_chainName params <> "" ->
  chains (configManager wp) !! tp_chainName params = Some cfg ->
  tp_toAddress params = Some s -> Js.truthy s = true ->
  tp_amount params = Some a ->
  SFeqb (parseFloat w a) Num.zero = false ->
  Num.lt (parseFloat w a) Num.zero = false ->
  parseUnits w a 18 = Some v ->
  native_reference cfg (tp_token params) ->
  Wallet.sendTransaction wp (tp_chainName params) (native_transfer_tx wp cfg params s v)
    (tp_isBite params) w h = (Ok hash, evs) ->
  exists resp,
    TransferAction.transfer wp params w h = (Ok resp, evs) /\
    tr_txHash resp = hash /\ count is_wait evs = 0%nat.
Proof.
  intros Hn Hc Hto Hs Ha Hz Hneg Hv Hnat Hsend.
  unfold TransferAction.transfer.
  rewrite (isChainSupported_registered _ _ _ Hc Hn), bind_lift_ok. cbn [negb].
  unfold Wallet.getChainNativetToken, PluginConfigManager.getChainNativeToken,
    PluginConfigManager.getChainConfig.
  rewrite Hc. cbn [rbind]. rewrite bind_lift_ok.
  assert (Hval : TransferAction.validateAndNormalizeParams wp params w h =
            (Ok {| ntp_chainName := tp_chainName params;
                   ntp_token := tp_token params;
                   ntp_amount := tp_amount params;
                   ntp_toAddress := Pending (Wallet.formatAddress wp (Some s));
                   ntp_data := normalizedData (tp_data params);
                   ntp_isBite := tp_isBite params |}, [])).
  { unfold TransferAction.validateAndNormalizeParams.
    rewrite Hto. cbn [Js.truthy_opt]. rewrite Hs, Ha. cbn [negb].
    unfold bind, ask, ret. rewrite Hz, Hneg. reflexivity. }
  rewrite (bind_run_ok _ _ _ _ _ _ Hval). cbn [app ntp_chainName ntp_token].
  rewrite app_nil_r.
  rewrite (getCurrentChain_registered _ _ _ Hc), bind_lift_ok.
  cbn [nativeCurrency_symbol chain_id ntp_toAddress ntp_isBite ntp_amount ntp_data].
  set (token := match tp_token params with None => _ | Some t => _ end).
  assert (Htok : token = nativeToken cfg).
  { unfold token. destruct (tp_token params) as [t | ]; [ | reflexivity ].
    destruct Hnat as [Ht | [-> | Ht]].
    - rewrite Ht. reflexivity.
    - destruct (negb (Js.truthy "null")); reflexivity.
    - rewrite Ht, String.eqb_refl. destruct (_ || _); reflexivity. }
  rewrite Htok, String.eqb_refl, !orb_true_r. rewrite Ha.
  rewrite (bind_run_ok _ _ _ _ _ _ (parseAmount_run _ _ _ _ _ Hv)).
  cbn [TransferAction.amountString]. rewrite app_nil_r, bind_lift_ok.
  fold (native_transfer_tx wp cfg params s v).
  rewrite (bind_run_ok _ _ _ _ _ _ Hsend).
  cbn [ret fst snd app]. rewrite app_nil_r.
  eexists. split; [reflexivity | ]. split; [reflexivity | ].
  pose proof (sendTransaction_no_wait wp (tp_chainName params)
                (native_transfer_tx wp cfg params s v) (tp_isBite params) w h) as Hw.
  rewrite Hsend in Hw. exact Hw.
Qed.

Lemma transfer_validate_keeps_chain (wp : WalletProvider) (params : TransferParams)
    (w : World) (h : list event) (params' : NormalizedTransferParams) (evs : list event) :
  TransferAction.validateAndNormalizeParams wp params w h = (Ok params', evs) ->
  ntp_chainName params' = tp_chainName params.
Proof.
  unfold TransferAction.validateAndNormalizeParams. intros H. inv_ok H.
  unfold ret in H. injection H as <- _. reflexivity.
Qed.

Lemma transfer_token_cases (native : string) (tok : option string) :
  let token :=
    match tok with
    | None => native
    | Some t =>
        if negb (Js.truthy t) || String.eqb t "null" then native
        else if String.eqb (Js.toLowerCase t) (Js.toLowerCase native) then native
        else t
    end in
  token = native \/ (Js.truthy token = true /\ String.eqb token "null" = false).
Proof.
  cbv zeta. destruct tok as [t | ]; [ | left; reflexivity ].
  destruct (Js.truthy t) eqn:Et; cbn [negb orb]; [ | left; reflexivity ].
  destruct (String.eqb t "null") eqn:En; [left; reflexivity | ].
  destruct (String.eqb (Js.toLowerCase t) (Js.toLowerCase native));
    [left; reflexivity | right; split; assumption ].
Qed.

(** A transfer that answers for a token other than the native one went
    through the check of the hash. *)
Lemma transfer_erc20_checks_hash (wp : WalletProvider) (params : TransferParams)
    (w : World) (h : list event) (cfg : ChainConfig) (resp : TransferResponse)
    (evs : list event) :
  chains (configManager wp) !! tp_chainName params = Some cfg ->
  TransferAction.transfer wp params w h = (Ok resp, evs) ->
  tr_token resp <> nativeToken cfg ->
  Js.truthy_opt (tr_txHash resp) = true /\ tr_txHash resp <> Some "0x".
Proof.
  intros Hc H Hne. unfold TransferAction.transfer in H.
  apply bind_ok_inv in H as (sup & e1 & e2 & _ & H & _).
  destruct (negb sup); [discriminate H | ].
  apply bind_ok_inv in H as (nat & e3 & e4 & Hnat & H & _).
  apply bind_ok_inv in H as (params' & e5 & e6 & Hval & H & _).
  apply transfer_validate_keeps_chain in Hval.
  apply bind_ok_inv in H as (chain & e7 & e8 & Hchain & H & _).
  rewrite Hval, (getCurrentChain_registered _ _ _ Hc) in Hchain.
  unfold lift in Hchain. injection Hchain as <- _.
  cbn [nativeCurrency_symbol chain_id] in H.
  unfold Wallet.getChainNativetToken, PluginConfigManager.getChainNativeToken,
    PluginConfigManager.getChainConfig, lift in Hnat.
  rewrite Hc in Hnat. cbn [rbind] in Hnat. injection Hnat as <- _.
  set (token := match ntp_token params' with None => _ | Some t => _ end) in H.
  assert (Htoken : token = nativeToken cfg \/
                   (Js.truthy token = true /\ String.eqb token "null" = false))
    by apply transfer_token_cases.
  clearbody token.
  match type of H with
  | (if ?c then _ else _) _ _ = _ => destruct c eqn:Ec
  end.
  - (* the native branch answers with the native symbol *)
    exfalso. inv_ok H. unfold ret in H. injection H as <- _. cbn [tr_token] in Hne.
    destruct Htoken as [-> | [Ht Hn]]; [contradiction | ].
    rewrite Ht, Hn in Ec. cbn [negb orb] in Ec. apply String.eqb_eq in Ec. contradiction.
  - destruct (String.eqb token (nativeToken cfg)) eqn:Ee.
    + exfalso. inv_ok H. unfold ret in H. injection H as <- _. cbn [tr_token] in Hne.
      contradiction.
    + inv_ok H. unfold ret in H. injection H as <- _. cbn [tr_txHash].
      match goal with
      | Hcheck : negb (Js.truthy_opt ?x) || bool_decide (?x = Some "0x") = false |- _ =>
          apply orb_false_iff in Hcheck as [Ht Hz];
          apply negb_false_iff in Ht; apply bool_decide_eq_false in Hz
      end.
      split; assumption.
Qed.

(** C6 fails in the code for native transfers.  When the broadcast returns
    the empty hash ["0x"], or no hash at all, the ERC-20 branch throws
    [TransactionNotSubmitted] and waits for no receipt, but the native
    branch returns its response right after [sendTransaction], with that
    hash in it. *)
Lemma native_transfer_accepts_empty_hash :
  let wp := TestDoubles.wallet manual in
  let native := TestDoubles.transferParams "FAIR" TestDoubles.recipient in
  let erc20 := TestDoubles.transferParams "USDC" TestDoubles.recipient in
  let empty := TestDoubles.world TestDoubles.noAllowance (Some "0x") in
  let none := TestDoubles.world TestDoubles.noAllowance None in
  (fst (TransferAction.transfer wp native empty []) =
     Ok {| tr_chainName := TestDoubles.chain; tr_txHash := Some "0x";
           tr_recipient := Pending TestDoubles.recipient; tr_amount := "1.0";
           tr_token := "FAIR"; tr_isBite := Some false |} /\
   tr_txHash <$> (match fst (TransferAction.transfer wp native none []) with
                  | Ok r => Some r
                  | Throw _ => None
                  end) = Some None) /\
  (fst (TransferAction.transfer wp erc20 empty []) = Throw TransactionNotSubmitted /\
   fst (TransferAction.transfer wp erc20 none []) = Throw TransactionNotSubmitted /\
   count is_wait (snd (TransferAction.transfer wp erc20 empty [])) = 0%nat /\
   count is_wait (snd (TransferAction.transfer wp erc20 none [])) = 0%nat).
Proof. cbv zeta. repeat split; vm_compute; reflexivity. Qed.

(* ===================================================================== *)
(** ** C7: the native balance *)
(* ===================================================================== *)

(** When the native token is asked for, the only external call reads the
    balance of the provider's own account, whatever the address of the
    request. *)
Lemma getBalance_native_reads_account (wp : WalletProvider) (params : GetBalanceParams)
    (w : World) (h : list event) (cfg : ChainConfig) :
  let chainName := GetBalanceAction.normalizedChainName params in
  let address := GetBalanceAction.normalizedAddress wp params in
  chains (configManager wp) !! chainName = Some cfg ->
  Js.truthy address = true ->
  Js.truthy (gb_token params) = false \/
    Js.toUpperCase (gb_token params) = nativeToken cfg ->
  snd (GetBalanceAction.getBalance wp params w h) =
    [EvGetBalance chainName (account_address wp)] /\
  (forall balance,
     rpc_getBalance w h chainName (account_address wp) = Some balance ->
     fst (GetBalanceAction.getBalance wp params w h) =
       Ok {| gbr_chainName := chainName;
             gbr_address := address;
             gbr_balance :=
               Some {| bal_token := nativeToken cfg;
                       bal_amount := formatUnits w balance 18 |} |}).
Proof.
  intros chainName address Hc Ha Ht.
  unfold GetBalanceAction.getBalance, GetBalanceAction.validateAndNormalizeParams.
  cbn [gb_chainName gb_address gb_token].
  fold chainName. fold address. rewrite Ha. cbn [negb].
  rewrite (getCurrentChain_registered _ _ _ Hc), bind_lift_ok.
  cbn [nativeCurrency_symbol].
  assert (Hq : forall (k : bool -> M GetBalanceResponse),
             bind (if negb (Js.truthy (gb_token params)) then ret true
                   else bind (lift (Wallet.getChainNativetToken wp chainName))
                          (fun native =>
                             ret (String.eqb (Js.toUpperCase (gb_token params)) native))) k w h
             = k true w h).
  { intros k. destruct Ht as [Ht | Ht].
    - rewrite Ht. cbn [negb]. apply bind_ret.
    - unfold Wallet.getChainNativetToken, PluginConfigManager.getChainNativeToken,
        PluginConfigManager.getChainConfig.
      rewrite Hc. cbn [rbind].
      destruct (negb _); [apply bind_ret | ].
      unfold bind at 2. unfold lift, ret. cbn [app].
      rewrite Ht, String.eqb_refl. apply (bind_ret true k w h). }
  rewrite Hq. cbn [negb].
  unfold Wallet.getBalance, Wallet.getClient.
  rewrite (getCurrentChain_registered _ _ _ Hc).
  unfold_prog. rewrite !app_nil_r.
  destruct (rpc_getBalance w h chainName (account_address wp)) as [balance | ];
    cbn [fst snd app]; split; try reflexivity.
  - intros b [= <-]. reflexivity.
  - intros b [=].
Qed.

(** C7 fails in the code for an address other than the wallet's own.  The
    native branch calls [WalletProvider.getBalance(chainName)], which reads
    the balance of [this.account.address]: the response names the address
    that was asked for, with the amount of the wallet (1000 in the world of
    the test-suite, where the address asked for holds 7). *)
Lemma native_balance_of_own_account :
  let w := TestDoubles.world TestDoubles.noAllowance (Some TestDoubles.txHash) in
  let params :=
    {| gb_chainName := TestDoubles.chain;
       gb_address := Some TestDoubles.otherAddress;
       gb_token := "FAIR" |} in
  GetBalanceAction.validateAndNormalizeParams (TestDoubles.wallet manual) params = params /\
  rpc_getBalance w [] TestDoubles.chain TestDoubles.otherAddress = Some (7 * 10 ^ 18) /\
  GetBalanceAction.getBalance (TestDoubles.wallet manual) params w [] =
    (Ok {| gbr_chainName := TestDoubles.chain;
           gbr_address := TestDoubles.otherAddress;
           gbr_balance := Some {| bal_token := "FAIR"; bal_amount := "1000" |} |},
     [EvGetBalance TestDoubles.chain TestDoubles.walletAddress]).
Proof. cbv zeta. repeat split; vm_compute; reflexivity. Qed.

(* ===================================================================== *)
(** ** C8: the recipient of a transfer *)
(* ===================================================================== *)

Lemma prefix_0x (s : string) :
  Js.startsWith s "0x" = true -> exists rest, s = String "0" (String "x" rest).
Proof.
  unfold Js.startsWith. destruct s as [ | c [ | d rest ] ]; cbn [String.prefix].
  - discriminate.
  - destruct (ascii_dec "0" c); discriminate.
  - destruct (ascii_dec "0" c) as [<- | ]; [ | discriminate ].
    destruct (ascii_dec "x" d) as [<- | ]; [ | discriminate ].
    eauto.
Qed.

Lemma symbol_not_prefixed (s : string) :
  Js.startsWith s "0x" = true ->
  Js.includes Wallet.commonTokens (Js.toUpperCase s) = false.
Proof.
  intros H. destruct (prefix_0x s H) as [rest ->]. reflexivity.
Qed.

Lemma length_zero (s : string) : (String.length s =? 0)%nat = true -> s = "".
Proof. destruct s; [reflexivity | discriminate]. Qed.

Lemma formatAddress_spec (wp : WalletProvider) (s : string) :
  Wallet.formatAddress wp (Some s) =
    if Js.startsWith (Js.trim s) "0x" then Js.trim s else Wallet.getAddress wp.
Proof.
  unfold Wallet.formatAddress.
  destruct (String.length (Js.trim s) =? 0)%nat eqn:El.
  - apply length_zero in El. rewrite El. reflexivity.
  - destruct (Js.startsWith (Js.trim s) "0x") eqn:Ep; cbn [andb].
    + rewrite (symbol_not_prefixed _ Ep). destruct (_ =? 42)%nat; reflexivity.
    + destruct (Js.includes _ _); reflexivity.
Qed.

Lemma transfer_validate_missing (wp : WalletProvider) (params : TransferParams)
    (w : World) (h : list event) :
  Js.truthy_opt (tp_toAddress params) = false ->
  TransferAction.validateAndNormalizeParams wp params w h = (Throw MissingRecipient, []).
Proof.
  intros H. unfold TransferAction.validateAndNormalizeParams. rewrite H. reflexivity.
Qed.





(* ===================================================================== *)
(** ** C10: encryption of the submitted transactions *)
(* ===================================================================== *)

Lemma swap_echoes_flag (wp : WalletProvider) (params : SwapParams) (w : World)
    (h : list event) (resp : SwapResponse) (evs : list event) :
  SwapAction.swap wp params w h = (Ok resp, evs) ->
  sr_isBite resp = sp_isBite params.
Proof.
  unfold SwapAction.swap. intros H. inv_ok H.
  unfold ret in H. injection H as <- _. reflexivity.
Qed.

Lemma transfer_validate_keeps_flag (wp : WalletProvider) (params : TransferParams)
    (w : World) (h : list event) (params' : NormalizedTransferParams) (evs : list event) :
  TransferAction.validateAndNormalizeParams wp params w h = (Ok params', evs) ->
  ntp_isBite params' = tp_isBite params.
Proof.
  unfold TransferAction.validateAndNormalizeParams. intros H. inv_ok H.
  unfold ret in H. injection H as <- _. reflexivity.
Qed.

Lemma transfer_echoes_flag (wp : WalletProvider) (params : TransferParams) (w : World)
    (h : list event) (resp : TransferResponse) (evs : list event) :
  TransferAction.transfer wp params w h = (Ok resp, evs) ->
  tr_isBite resp = tp_isBite params.
Proof.
  unfold TransferAction.transfer. intros H. inv_ok H;
    unfold ret in H; injection H as <- _; cbn [tr_isBite];
    eapply transfer_validate_keeps_flag; eassumption.
Qed.

Lemma existsb_encrypt_sent (enc : option Transaction) (rpcUrl chainName account : string)
    (tx : Transaction) (v g p : Z) :
  existsb is_encrypt
    (EvEncrypt rpcUrl tx ::
     match enc with
     | Some e => [EvSendTransaction chainName account e v g p]
     | None => []
     end) = true.
Proof. reflexivity. Qed.

(** C10.  On a registered chain [sendTransaction] calls the encryption
    exactly when the mode of the provider is automatic or the flag of the
    request is set.  When it does, the transaction handed to the wallet
    client is the one returned by the encryption, never the plain one, and
    nothing is sent when the encryption fails; when it does not, the plain
    transaction is sent.  So the automatic mode encrypts whatever the flag,
    and the manual mode encrypts exactly the requests with the flag.  In
    both modes the results of [swap] and of [transfer] carry the flag of the
    request. *)
Theorem sendTransaction_encryption (wp : WalletProvider) (chainName : string)
    (cfg : ChainConfig) (tx : EVMTransaction) (isBite : option bool)
    (w : World) (h : list event) :
  chains (configManager wp) !! chainName = Some cfg ->
  let evs := snd (Wallet.sendTransaction wp chainName tx isBite w h) in
  (existsb is_encrypt evs = true <-> biteConfig wp = automatic \/ isBite = Some true) /\
  (biteConfig wp = automatic \/ isBite = Some true ->
   evs = EvEncrypt (rpc cfg) (plain_tx tx) ::
         match bite_encryptTransaction w h (rpc cfg) (plain_tx tx) with
         | Some enc =>
             [EvSendTransaction chainName (account_address wp) enc
                (value tx) (gas tx) (gasPrice tx)]
         | None => []
         end) /\
  (biteConfig wp = manual -> isBite <> Some true ->
   evs = [EvSendTransaction chainName (account_address wp) (plain_tx tx)
            (value tx) (gas tx) (gasPrice tx)]) /\
  (forall params resp evs',
     SwapAction.swap wp params w h = (Ok resp, evs') ->
     sr_isBite resp = sp_isBite params) /\
  (forall params resp evs',
     TransferAction.transfer wp params w h = (Ok resp, evs') ->
     tr_isBite resp = tp_isBite params).
Proof.
  intros Hc evs. subst evs.
  assert (Hmode : Wallet.is_automatic (biteConfig wp) || Js.truthy_flag isBite = true <->
                  biteConfig wp = automatic \/ isBite = Some true).
  { destruct (biteConfig wp), isBite as [[ | ] | ]; cbn; split; intros H;
      try reflexivity; try discriminate; auto;
      destruct H as [H | H]; discriminate H. }
  split; [ | split; [ | split; [ | split ] ] ].
  - destruct (Wallet.is_automatic (biteConfig wp) || Js.truthy_flag isBite) eqn:Em.
    + rewrite (sendTransaction_encrypted _ _ _ _ _ _ _ Hc Em), existsb_encrypt_sent.
      split; [intros _; apply Hmode; reflexivity | reflexivity].
    + rewrite (sendTransaction_plain _ _ _ _ _ _ _ Hc Em). cbn [existsb is_encrypt orb].
      split; [discriminate | ]. intros H. apply Hmode in H. discriminate H.
  - intros H. apply Hmode in H. exact (sendTransaction_encrypted _ _ _ _ _ _ _ Hc H).
  - intros Hm Hf. apply (sendTransaction_plain _ _ _ _ _ _ _ Hc).
    rewrite Hm. destruct isBite as [[ | ] | ]; try reflexivity. contradiction.
  - intros params resp evs'. apply swap_echoes_flag.
  - intros params resp evs'. apply transfer_echoes_flag.
Qed.

(** The automatic mode with the flag off: the transaction is encrypted, and
    the response of the swap carries the flag of the request. *)
Lemma sendTransaction_encryption_witness :
  let w := TestDoubles.world TestDoubles.noAllowance (Some TestDoubles.txHash) in
  let wp := TestDoubles.wallet automatic in
  let tx :=
    {| to := Plain TestDoubles.recipient; data := None; value := 10 ^ 18;
       gas := 1000000; gasPrice := 1000000; evm_chainId := "1328435889" |} in
  snd (Wallet.sendTransaction wp TestDoubles.chain tx (Some false) w []) =
    [EvEncrypt (rpc DEFAULT_CHAIN_CONFIG) (plain_tx tx);
     EvSendTransaction TestDoubles.chain TestDoubles.walletAddress TestDoubles.encrypted
       (10 ^ 18) 1000000 1000000] /\
  sr_isBite <$> (match fst (SwapAction.swap wp (TestDoubles.swapParams None) w []) with
                 | Ok r => Some r
                 | Throw _ => None
                 end) = Some (Some false).
Proof.
  cbv zeta. split.
  - etransitivity.
    + apply (proj1 (proj2 (sendTransaction_encryption (TestDoubles.wallet automatic)
               TestDoubles.chain DEFAULT_CHAIN_CONFIG _ (Some false)
               (TestDoubles.world TestDoubles.noAllowance (Some TestDoubles.txHash)) []
               eq_refl))).
      left. reflexivity.
    + reflexivity.
  - destruct (SwapAction.swap (TestDoubles.wallet automatic) (TestDoubles.swapParams None)
                (TestDoubles.world TestDoubles.noAllowance (Some TestDoubles.txHash)) [])
      as [[resp | e] evs'] eqn:Hrun.
    + cbn [fst fmap option_fmap option_map]. f_equal.
      exact (proj1 (proj2 (proj2 (proj2 (sendTransaction_encryption
               (TestDoubles.wallet automatic) TestDoubles.chain DEFAULT_CHAIN_CONFIG
               {| to := Plain TestDoubles.recipient; data := None; value := 10 ^ 18;
                  gas := 1000000; gasPrice := 1000000; evm_chainId := "1328435889" |}
               (Some false)
               (TestDoubles.world TestDoubles.noAllowance (Some TestDoubles.txHash)) []
               eq_refl)))) _ _ _ Hrun).
    + vm_compute in Hrun. discriminate Hrun.
Defined.

(* ===================================================================== *)
(** ** The embedding on the cases of the test-suite *)
(* ===================================================================== *)

(** [new PluginConfigManager()] registers the built-in chain. *)
Example config_default :
  PluginConfigManager.new {| chains := ∅ |} = Ok DEFAULT_PLUGIN_CONFIG.
Proof. vm_compute. reflexivity. Qed.

(** A chain of the caller is registered beside the built-in one, with or
    without a wrapped-native entry. *)
Example config_user_chain :
  (chains <$> (match PluginConfigManager.new
                       {| chains := <["my-chain" := TestDoubles.bareChain]> ∅ |} with
               | Ok c => Some c
               | Throw _ => None
               end)) =
  Some (<["my-chain" := TestDoubles.bareChain]> (chains DEFAULT_PLUGIN_CONFIG)).
Proof. vm_compute. reflexivity. Qed.

(** The literals are well-formed binary64 values. *)
Example literals_valid :
  forallb Num.valid
    [Num.zero; Num.half; Num.fifty; Num.sixty; Num.hundred; Num.minus_one;
     TestDoubles.one] = true.
Proof. reflexivity. Qed.

(** The multiplier in basis points for 0.1, 0.29, 1, 1.5 and 2 percent. *)
Example multiplier_examples :
  map SwapAction.slippageMultiplier
    [S754_finite false 7205759403792794 (-56);
     S754_finite false 5224175567749775 (-54);
     TestDoubles.one;
     S754_finite false 6755399441055744 (-52);
     S754_finite false 4503599627370496 (-51)] =
  [Some 9990; Some 9971; Some 9900; Some 9850; Some 9800].
Proof. vm_compute. reflexivity. Qed.

(** 'should swap native token for ERC20 token' *)
Example swap_native_for_token :
  fst (SwapAction.swap (TestDoubles.wallet manual) (TestDoubles.swapParams None)
         (TestDoubles.world TestDoubles.noAllowance (Some TestDoubles.txHash)) []) =
  Ok {| sr_chainName := "fair-testnet"; sr_txHash := TestDoubles.txHash;
        sr_inputToken := "FAIR"; sr_outputToken := "USDC";
        sr_amountIn := "1.0"; sr_amountOut := "0.5"; sr_isBite := Some false |}.
Proof. vm_compute. reflexivity. Qed.

(** 'should throw error for unsupported token' and 'should throw error for
    zero amount' *)
Example swap_rejections :
  let w := TestDoubles.world TestDoubles.noAllowance (Some TestDoubles.txHash) in
  let request input amount :=
    {| sp_chainName := TestDoubles.chain; sp_inputToken := input;
       sp_outputToken := "USDC"; sp_amount := amount; sp_slippage := None;
       sp_isBite := None |} in
  SwapAction.swap (TestDoubles.wallet manual) (request "UNKNOWN" "1.0") w [] =
    (Throw TokenNotRegistered, []) /\
  SwapAction.swap (TestDoubles.wallet manual) (request "FAIR" "0") w [] =
    (Throw AmountNotPositive, []) /\
  SwapAction.swap (TestDoubles.wallet manual) (request "" "1.0") w [] =
    (Throw TokensRequired, []).
Proof. cbv zeta. repeat split; vm_compute; reflexivity. Qed.

(** 'should throw error for missing toAddress' *)
Example transfer_missing_recipient :
  TransferAction.transfer (TestDoubles.wallet manual)
    {| tp_chainName := TestDoubles.chain; tp_token := Some "FAIR";
       tp_amount := Some "1.0"; tp_toAddress := None; tp_data := None;
       tp_isBite := None |}
    (TestDoubles.world TestDoubles.noAllowance (Some TestDoubles.txHash)) [] =
  (Throw MissingRecipient, []).
Proof. vm_compute. reflexivity. Qed.

(* ===================================================================== *)
(** * Further properties of the code *)
(* ===================================================================== *)

(** ** Footprints *)

Section Footprint.
Context {A B : Type} (p : event -> bool).

Lemma at_most_weaken (n n' : nat) (m : M A) :
  at_most p n m -> (n <= n')%nat -> at_most p n' m.
Proof. intros H Hle w h. specialize (H w h). lia. Qed.

Lemma at_most_ret (a : A) : at_most p 0 (ret a).
Proof. intros w h. cbn. lia. Qed.

Lemma at_most_throw (e : error) : at_most p 0 (@throw A e).
Proof. intros w h. cbn. lia. Qed.

Lemma at_most_lift (r : result A) : at_most p 0 (lift r).
Proof. intros w h. cbn. lia. Qed.

Lemma at_most_ask (f : World -> A) : at_most p 0 (ask f).
Proof. intros w h. cbn. lia. Qed.

Lemma at_most_ask_opt (f : World -> option A) (x : external) : at_most p 0 (ask_opt f x).
Proof. intros w h. unfold ask_opt. destruct (f w); cbn; lia. Qed.

Lemma at_most_perform (ev : event) (answer : World -> list event -> option A)
    (x : external) :
  at_most p (if p ev then 1 else 0) (perform ev answer x).
Proof.
  intros w h. unfold perform. destruct (answer w h); cbn [snd count]; destruct (p ev); lia.
Qed.

Lemma at_most_bind (a b : nat) (m : M A) (k : A -> M B) :
  at_most p a m -> (forall x, at_most p b (k x)) -> at_most p (a + b) (bind m k).
Proof.
  intros Hm Hk w h. rewrite bind_events, count_app.
  specialize (Hm w h). destruct (fst (m w h)) as [x | e].
  - specialize (Hk x w (h ++ snd (m w h))). lia.
  - cbn [count]. lia.
Qed.

Lemma at_most_try_rethrow (n : nat) (m : M A) (e : error) :
  at_most p n m -> at_most p n (try_rethrow m e).
Proof.
  intros Hm w h. specialize (Hm w h). unfold try_rethrow.
  destruct (m w h) as [[a | e'] evs]; exact Hm.
Qed.

Lemma at_most_now (f : World -> list event -> A) :
  at_most p 0 (fun w h => (Ok (f w h), [])).
Proof. intros w h. cbn. lia. Qed.

End Footprint.

Section Errors.
Context {A B : Type} (P : error -> Prop).

Lemma throws_only_ret (a : A) : throws_only P (ret a).
Proof. intros w h e. discriminate. Qed.

Lemma throws_only_ask (f : World -> A) : throws_only P (ask f).
Proof. intros w h e. discriminate. Qed.

Lemma throws_only_now (f : World -> list event -> A) :
  throws_only P (fun w h => (Ok (f w h), [])).
Proof. intros w h e. discriminate. Qed.

Lemma throws_only_throw (e : error) : P e -> throws_only P (@throw A e).
Proof. intros H w h e' [= <-]. exact H. Qed.

Lemma throws_only_lift (r : result A) :
  (forall e, r = Throw e -> P e) -> throws_only P (lift r).
Proof. intros H w h e He. apply H. exact He. Qed.

Lemma throws_only_ask_opt (f : World -> option A) (x : external) :
  P (Rejected x) -> throws_only P (ask_opt f x).
Proof. intros H w h e. unfold ask_opt. destruct (f w); intros [= <-]. exact H. Qed.

Lemma throws_only_perform (ev : event) (answer : World -> list event -> option A)
    (x : external) :
  P (Rejected x) -> throws_only P (perform ev answer x).
Proof. intros H w h e. unfold perform. destruct (answer w h); intros [= <-]. exact H. Qed.

Lemma throws_only_bind_ok (m : M A) (k : A -> M B) :
  throws_only P m ->
  (forall a w h evs, m w h = (Ok a, evs) -> throws_only P (k a)) ->
  throws_only P (bind m k).
Proof.
  intros Hm Hk w h e. unfold bind.
  destruct (m w h) as [[a | e'] evs] eqn:Em.
  - destruct (k a w (h ++ evs)) as [r evs'] eqn:Ek. cbn [fst]. intros ->.
    apply (Hk a w h evs Em w (h ++ evs)). rewrite Ek. reflexivity.
  - cbn [fst]. intros [= <-]. apply (Hm w h). rewrite Em. reflexivity.
Qed.

Lemma throws_only_bind (m : M A) (k : A -> M B) :
  throws_only P m -> (forall x, throws_only P (k x)) -> throws_only P (bind m k).
Proof. intros Hm Hk. apply throws_only_bind_ok; [exact Hm | intros a _ _ _ _; apply Hk]. Qed.

Lemma throws_only_bind_fails (m : M A) (k : A -> M B) :
  (forall w h, exists e, fst (m w h) = Throw e /\ P e) -> throws_only P (bind m k).
Proof.
  intros Hm w h e. unfold bind. destruct (Hm w h) as (e' & He' & HP).
  destruct (m w h) as [[a | e''] evs]; cbn [fst] in *; [discriminate | ].
  intros [= <-]. injection He' as ->. exact HP.
Qed.

Lemma throws_only_try_rethrow (m : M A) (e : error) :
  P e -> throws_only P (try_rethrow m e).
Proof.
  intros H w h e'. unfold try_rethrow. destruct (m w h) as [[a | e''] evs]; intros [= <-].
  exact H.
Qed.

End Errors.

Section Guards.
Context {A B : Type} (p : event -> bool).

Lemma guarded_bind (P : error -> bool) (m : M A) (k : A -> M B) :
  at_most p 0 m -> (forall a, guarded p P (k a)) -> guarded p P (bind m k).
Proof.
  intros Hm Hk w h e.
  specialize (Hm w h). unfold bind.
  destruct (m w h) as [[a | e'] evs] eqn:Em; cbn [fst snd] in *.
  - destruct (k a w (h ++ evs)) as [r evs'] eqn:Ek. cbn [fst snd]. intros -> HP.
    pose proof (Hk a w (h ++ evs) e) as Hka. rewrite Ek in Hka. cbn [fst snd] in Hka.
    rewrite count_app, (Hka eq_refl HP). lia.
  - intros _ _. lia.
Qed.

Lemma guarded_throws_only (P : error -> bool) (m : M A) :
  throws_only (fun e => P e = false) m -> guarded p P m.
Proof. intros H w h e He HP. rewrite (H w h e He) in HP. discriminate. Qed.

Lemma guarded_quiet (P : error -> bool) (m : M A) : at_most p 0 m -> guarded p P m.
Proof. intros H w h e _ _. specialize (H w h). lia. Qed.

Lemma fails_quietly_throw (w : World) (e : error) : fails_quietly p w (@throw A e).
Proof. intros h. split; reflexivity. Qed.

Lemma fails_quietly_first (w : World) (m : M A) (k : A -> M B) :
  fails_quietly p w m -> fails_quietly p w (bind m k).
Proof.
  intros Hm h. destruct (Hm h) as [Hf Hc]. unfold bind.
  destruct (m w h) as [[a | e] evs]; [discriminate Hf | ]. split; [reflexivity | exact Hc].
Qed.

Lemma fails_quietly_bind (w : World) (m : M A) (k : A -> M B) :
  at_most p 0 m -> (forall a, fails_quietly p w (k a)) -> fails_quietly p w (bind m k).
Proof.
  intros Hm Hk h. specialize (Hm w h). unfold bind.
  destruct (m w h) as [[a | e] evs]; cbn [snd] in Hm.
  - destruct (Hk a (h ++ evs)) as [Hf Hc].
    destruct (k a w (h ++ evs)) as [r evs']. cbn [fst snd] in *.
    split; [exact Hf | ]. rewrite count_app. lia.
  - split; [reflexivity | cbn [snd]; lia].
Qed.

End Guards.

(** ** The calls and the errors of the provider *)

Lemma readContract_at_most {A : Type} (p : event -> bool) (wp : WalletProvider)
    (chainName address : string) (call : contract_read)
    (answer : World -> list event -> option A) :
  at_most p (if p (EvReadContract chainName address call) then 1 else 0)
    (Wallet.readContract wp chainName address call answer).
Proof.
  unfold Wallet.readContract, Wallet.getClient.
  apply (at_most_bind p 0); [apply at_most_lift | ].
  intros _. apply at_most_perform.
Qed.

Lemma encryptTx_throws (P : error -> Prop) (rpcUrl : string) (tx : EVMTransaction) :
  P EncryptionFailed -> throws_only P (Wallet.encryptTx rpcUrl tx).
Proof.
  intros H w h e. unfold Wallet.encryptTx.
  destruct (bite_encryptTransaction w h rpcUrl _); intros [= <-]. exact H.
Qed.

Lemma sendTransaction_at_most_send (wp : WalletProvider) (chainName : string)
    (tx : EVMTransaction) (isBite : option bool) :
  at_most is_send 1 (Wallet.sendTransaction wp chainName tx isBite).
Proof. intros w h. apply sendTransaction_sends_once. Qed.

Lemma sendTransaction_at_most_encrypt (wp : WalletProvider) (chainName : string)
    (tx : EVMTransaction) (isBite : option bool) :
  at_most is_encrypt 1 (Wallet.sendTransaction wp chainName tx isBite).
Proof.
  intros w h. unfold Wallet.sendTransaction, Wallet.getClient, Wallet.getChainRpc,
    Wallet.encryptTx. unfold_prog. repeat break_inner; cbn; lia.
Qed.

Lemma getChainConfig_throws (config : PluginConfig) (chainName : string) (e : error) :
  PluginConfigManager.getChainConfig config chainName = Throw e -> e = ChainNotRegistered.
Proof.
  unfold PluginConfigManager.getChainConfig.
  destruct (chains config !! chainName); [discriminate | ]. intros [= <-]. reflexivity.
Qed.

Lemma getCurrentChain_throws (wp : WalletProvider) (chainName : string) (e : error) :
  Wallet.getCurrentChain wp chainName = Throw e -> e = ChainNotRegistered.
Proof.
  unfold Wallet.getCurrentChain.
  destruct (PluginConfigManager.getChainConfig _ _) as [c | e'] eqn:Hc; [discriminate | ].
  cbn [rbind]. intros [= <-]. eapply getChainConfig_throws; eassumption.
Qed.

Lemma getChainRpc_throws (wp : WalletProvider) (chainName : string) (e : error) :
  Wallet.getChainRpc wp chainName = Throw e -> e = ChainNotRegistered.
Proof.
  unfold Wallet.getChainRpc, PluginConfigManager.getRPC.
  destruct (PluginConfigManager.getChainConfig _ _) as [c | e'] eqn:Hc; [discriminate | ].
  cbn [rbind]. intros [= <-]. eapply getChainConfig_throws; eassumption.
Qed.

Lemma getChainNativetToken_throws (wp : WalletProvider) (chainName : string) (e : error) :
  Wallet.getChainNativetToken wp chainName = Throw e -> e = ChainNotRegistered.
Proof.
  unfold Wallet.getChainNativetToken, PluginConfigManager.getChainNativeToken.
  destruct (PluginConfigManager.getChainConfig _ _) as [c | e'] eqn:Hc; [discriminate | ].
  cbn [rbind]. intros [= <-]. eapply getChainConfig_throws; eassumption.
Qed.

Lemma isChainSupported_throws (wp : WalletProvider) (chainName : string) (e : error) :
  Wallet.isChainSupported wp chainName = Throw e -> e = ChainNotRegistered.
Proof.
  unfold Wallet.isChainSupported. destruct (String.eqb _ _); [discriminate | ].
  destruct (PluginConfigManager.getChainConfig _ _) as [c | e'] eqn:Hc; [discriminate | ].
  cbn [rbind]. intros [= <-]. eapply getChainConfig_throws; eassumption.
Qed.

(** The lookup of a token: an address that is not empty, or an exception;
    the [TypeError] comes from a chain that is not registered. *)
Lemma getChainToken_cases (wp : WalletProvider) (chainName tokenName : string) :
  match Wallet.getChainToken wp chainName tokenName with
  | Ok a =>
      Js.truthy a = true /\
      exists cfg, chains (configManager wp) !! chainName = Some cfg /\
                  tokens cfg !! tokenName = Some a
  | Throw e =>
      (e = TypeError /\ chains (configManager wp) !! chainName = None) \/
      (e = TokenNotRegistered /\ is_Some (chains (configManager wp) !! chainName))
  end.
Proof.
  unfold Wallet.getChainToken, PluginConfigManager.getTokenAddress.
  destruct (chains (configManager wp) !! chainName) as [cfg | ]; [ | left; auto ].
  destruct (tokens cfg !! tokenName) as [a | ] eqn:Et; [ | right; split; eauto ].
  destruct (Js.truthy a) eqn:Ea; [ | right; split; eauto ].
  split; [exact Ea | ]. exists cfg. split; [reflexivity | exact Et].
Qed.

Lemma resolveTokenAddress_throws (wp : WalletProvider) (token chainName : string)
    (e : error) :
  SwapAction.resolveTokenAddress wp token chainName = Throw e ->
  e = ChainNotRegistered \/ e = TokenNotRegistered.
Proof.
  unfold SwapAction.resolveTokenAddress.
  destruct (Js.startsWith token "0x"); [discriminate | ].
  destruct (Wallet.getCurrentChain wp chainName) as [chain | e'] eqn:Hc; cbn [rbind].
  2:{ intros [= <-]. left. eapply getCurrentChain_throws; eassumption. }
  assert (Hno : chains (configManager wp) !! chainName <> None).
  { revert Hc. unfold Wallet.getCurrentChain, PluginConfigManager.getChainConfig.
    destruct (chains (configManager wp) !! chainName); [discriminate | discriminate]. }
  destruct (String.eqb _ _).
  - pose proof (getChainToken_cases wp chainName ("W" +:+ nativeCurrency_symbol chain)) as Ht.
    destruct (Wallet.getChainToken _ _ _) as [a | e'']; cbn [rbind]; [discriminate | ].
    intros [= <-]. destruct Ht as [[_ Ht] | [-> _]]; [contradiction | right; reflexivity].
  - pose proof (getChainToken_cases wp chainName token) as Ht.
    destruct (Wallet.getChainToken _ _ _) as [a | e'']; cbn [rbind].
    + destruct Ht as [Ht _]. rewrite Ht. discriminate.
    + intros [= <-]. destruct Ht as [[_ Ht] | [-> _]]; [contradiction | right; reflexivity].
Qed.

(** ** Stepping through a computation *)

Ltac unfold_actions :=
  unfold SwapAction.swapETHForTokens, SwapAction.swapTokensForETH,
    SwapAction.swapTokensForTokens, SwapAction.approveToken, SwapAction.calculateAmountOut,
    SwapAction.validateAndNormalizeParams, SwapAction.encode,
    TransferAction.validateAndNormalizeParams, TransferAction.parseAmount,
    GetBalanceAction.getERC20TokenBalance,
    Wallet.sendTransaction, Wallet.waitForTx, Wallet.waitForReceipt,
    Wallet.read_Decimals, Wallet.read_Allowance, Wallet.read_BalanceOf,
    Wallet.read_GetAmountsOut, Wallet.getBalance,
    Wallet.getChainUniswapRouter, PluginConfigManager.getUniswapAddress,
    PluginConfigManager.hasUniswap;
  unfold Wallet.readContract; unfold Wallet.getClient.

(** No call of the kind at hand. *)
Ltac quiet_step :=
  lazymatch goal with
  | |- at_most _ 0 (bind _ _) => apply (at_most_bind _ 0 0); [ | intros ? ]
  | |- at_most _ 0 (ret _) => apply at_most_ret
  | |- at_most _ 0 (throw _) => apply at_most_throw
  | |- at_most _ 0 (lift _) => apply at_most_lift
  | |- at_most _ 0 (ask _) => apply at_most_ask
  | |- at_most _ 0 (ask_opt _ _) => apply at_most_ask_opt
  | |- at_most _ 0 (try_rethrow _ _) => apply at_most_try_rethrow
  | |- at_most ?p 0 (perform ?ev _ _) => exact (at_most_perform p ev _ _)
  | |- at_most _ 0 (fun _ _ => (Ok _, [])) => apply at_most_now
  | |- at_most _ 0 (if ?c then _ else _) => destruct c
  | |- at_most _ 0 (match ?x with _ => _ end) => destruct x
  end.

Ltac quiet := unfold_actions; repeat quiet_step.

(** The errors of a pure function of the provider. *)
Ltac errs_pure H :=
  first
    [ discriminate H
    | apply getCurrentChain_throws in H
    | apply getChainRpc_throws in H
    | apply getChainNativetToken_throws in H
    | apply isChainSupported_throws in H
    | apply resolveTokenAddress_throws in H; destruct H as [H | H]
    | lazymatch type of H with
      | Wallet.getChainToken ?wp ?c ?t = Throw _ =>
          let Hc := fresh "Hc" in
          pose proof (getChainToken_cases wp c t) as Hc; rewrite H in Hc;
          destruct Hc as [[_ Hc] | [Hc _]]; [ congruence | ]
      end ];
  subst; reflexivity.

Ltac errs_step :=
  lazymatch goal with
  | |- throws_only _ (bind (lift (Wallet.getChainToken ?wp ?c ?t)) _) =>
      (* the address found is not empty *)
      apply throws_only_bind_ok;
      [ | let a := fresh "a" in let Hok := fresh "Hok" in let Hc := fresh "Hc" in
          intros a ? ? ? Hok; unfold lift in Hok; injection Hok as Hok;
          pose proof (getChainToken_cases wp c t) as Hc; rewrite Hok in Hc;
          destruct Hc as [Hc _]; rewrite ?Hc; cbn [negb] ]
  | |- throws_only _ (bind (TransferAction.parseAmount None _) _) =>
      apply throws_only_bind_fails; intros ? ?;
      exists (Rejected ExtParseUnits); split; reflexivity
  | |- throws_only _ (bind _ _) => apply throws_only_bind; [ | intros ? ]
  | |- throws_only _ (ret _) => apply throws_only_ret
  | |- throws_only _ (ask _) => apply throws_only_ask
  | |- throws_only _ (throw _) => apply throws_only_throw; reflexivity
  | |- throws_only _ (ask_opt _ _) => apply throws_only_ask_opt; reflexivity
  | |- throws_only _ (perform _ _ _) => apply throws_only_perform; reflexivity
  | |- throws_only _ (try_rethrow _ _) => apply throws_only_try_rethrow; reflexivity
  | |- throws_only _ (Wallet.encryptTx _ _) => apply encryptTx_throws; reflexivity
  | |- throws_only _ (fun _ _ => (Ok _, [])) => apply throws_only_now
  | |- throws_only _ (lift _) =>
      apply throws_only_lift; let e := fresh "e" in let H := fresh "H" in
      intros e H; errs_pure H
  | |- throws_only _ (if ?c then _ else _) => destruct c
  | |- throws_only _ (match ?x with _ => _ end) => destruct x
  end.

Ltac errs := unfold_actions; repeat errs_step.

(** ** Completed calls of the provider *)

Lemma getClient_ok (wp : WalletProvider) (chainName : string) (w : World)
    (h : list event) (c : Chain) (evs : list event) :
  Wallet.getClient wp chainName w h = (Ok c, evs) ->
  evs = [] /\ is_Some (chains (configManager wp) !! chainName).
Proof.
  unfold Wallet.getClient, lift, Wallet.getCurrentChain, PluginConfigManager.getChainConfig.
  destruct (chains (configManager wp) !! chainName) as [cfg | ]; cbn [rbind];
    intros [= <- <-]. eauto.
Qed.

Lemma readContract_ok {A : Type} (wp : WalletProvider) (chainName address : string)
    (call : contract_read) (answer : World -> list event -> option A) (w : World)
    (h : list event) (a : A) (evs : list event) :
  Wallet.readContract wp chainName address call answer w h = (Ok a, evs) ->
  evs = [EvReadContract chainName address call] /\ answer w h = Some a.
Proof.
  unfold Wallet.readContract. intros H.
  apply bind_ok_inv in H as (c & e1 & e2 & Hc & H & ->).
  apply getClient_ok in Hc as [-> _]. rewrite app_nil_r in H. unfold perform in H.
  destruct (answer w h); [ | discriminate ]. injection H as <- <-. auto.
Qed.

Lemma readContract_run {A : Type} (wp : WalletProvider) (chainName address : string)
    (call : contract_read) (answer : World -> list event -> option A)
    (cfg : ChainConfig) (w : World) (h : list event) (a : A) :
  chains (configManager wp) !! chainName = Some cfg ->
  answer w h = Some a ->
  Wallet.readContract wp chainName address call answer w h =
    (Ok a, [EvReadContract chainName address call]).
Proof.
  intros Hc Ha. unfold Wallet.readContract, Wallet.getClient.
  rewrite (getCurrentChain_registered _ _ _ Hc), bind_lift_ok.
  unfold perform. rewrite Ha. reflexivity.
Qed.

Lemma router_ok (wp : WalletProvider) (chainName : string) (cfg : ChainConfig)
    (w : World) (h : list event) (router : string) (evs : list event) :
  chains (configManager wp) !! chainName = Some cfg ->
  Wallet.getChainUniswapRouter wp chainName w h = (Ok router, evs) ->
  evs = [] /\ router = uniswapV2Router cfg.
Proof.
  intros Hc. unfold Wallet.getChainUniswapRouter, PluginConfigManager.getUniswapAddress,
    PluginConfigManager.hasUniswap.
  rewrite Hc, bind_ask. destruct (isAddress w (uniswapV2Router cfg)); [ | discriminate ].
  intros [= <- <-]. auto.
Qed.

Lemma encode_ok (call : abi_call) (w : World) (h : list event) (d : calldata)
    (evs : list event) :
  SwapAction.encode call w h = (Ok d, evs) -> evs = [] /\ d = Encoded call.
Proof.
  unfold SwapAction.encode, ask_opt. destruct (encodeFunctionData w call); [ | discriminate ].
  intros [= <- <-]. auto.
Qed.

Lemma sendTransaction_ok (wp : WalletProvider) (chainName : string)
    (tx : EVMTransaction) (isBite : option bool) (w : World) (h : list event)
    (hash : option string) (evs : list event) :
  Wallet.sendTransaction wp chainName tx isBite w h = (Ok hash, evs) ->
  submitted wp chainName isBite (plain_tx tx) (value tx) (gas tx) (gasPrice tx) evs.
Proof.
  unfold Wallet.sendTransaction. intros H.
  apply bind_ok_inv in H as (c & e1 & e2 & Hc & H & ->).
  apply getClient_ok in Hc as [-> _]. cbn [app] in H. rewrite app_nil_r in H.
  apply bind_ok_inv in H as (tx' & e3 & e4 & Htx & H & ->).
  fold (encrypts wp isBite) in Htx.
  destruct (encrypts wp isBite) eqn:Em.
  - apply bind_ok_inv in Htx as (rpcUrl & e5 & e6 & Hr & Htx & ->).
    apply lift_events in Hr as ->. cbn [app] in Htx |- *. rewrite app_nil_r in Htx.
    unfold Wallet.encryptTx in Htx.
    destruct (bite_encryptTransaction w h rpcUrl _) as [enc | ]; [ | discriminate ].
    injection Htx as <- <-. unfold perform in H.
    destruct (rpc_sendTransaction w _ _ _ _ _ _ _); [ | discriminate ].
    injection H as <- <-. apply (submitted_encrypted _ _ _ _ _ _ _ rpcUrl enc Em).
  - unfold ret in Htx. injection Htx as <- <-. unfold perform in H.
    destruct (rpc_sendTransaction w _ _ _ _ _ _ _); [ | discriminate ].
    injection H as <- <-. apply (submitted_plain _ _ _ _ _ _ _ Em).
Qed.

Lemma waitForReceipt_ok (chainName : string) (hash : option string) (w : World)
    (h : list event) (evs : list event) :
  Wallet.waitForReceipt chainName hash w h = (Ok tt, evs) ->
  evs = [EvWaitForReceipt chainName hash].
Proof.
  unfold Wallet.waitForReceipt, perform.
  destruct (rpc_waitForTransactionReceipt w h chainName hash); [ | discriminate ].
  intros [= <-]. reflexivity.
Qed.

Lemma waitForTx_ok (wp : WalletProvider) (chainName : string) (hash : option string)
    (w : World) (h : list event) (evs : list event) :
  Wallet.waitForTx wp chainName hash w h = (Ok tt, evs) ->
  evs = [EvWaitForReceipt chainName hash].
Proof.
  unfold Wallet.waitForTx. intros H.
  apply bind_ok_inv in H as (c & e1 & e2 & Hc & H & ->).
  apply getClient_ok in Hc as [-> _]. apply waitForReceipt_ok in H as ->. reflexivity.
Qed.

(** ** The calls of a submission and of an approval *)

Lemma sent_app (l1 l2 : list event) : sent (l1 ++ l2) = sent l1 ++ sent l2.
Proof.
  induction l1 as [ | ev l1 IH ]; [reflexivity | ].
  destruct ev; cbn [app sent]; rewrite IH; reflexivity.
Qed.

Lemma encrypted_txs_app (l1 l2 : list event) :
  encrypted_txs (l1 ++ l2) = encrypted_txs l1 ++ encrypted_txs l2.
Proof.
  induction l1 as [ | ev l1 IH ]; [reflexivity | ].
  destruct ev; cbn [app encrypted_txs]; rewrite IH; reflexivity.
Qed.

Lemma sent_values_app (l1 l2 : list event) :
  sent_values (l1 ++ l2) = sent_values l1 ++ sent_values l2.
Proof.
  induction l1 as [ | ev l1 IH ]; [reflexivity | ].
  destruct ev; cbn [app sent_values]; rewrite IH; reflexivity.
Qed.

Lemma built_app (wp : WalletProvider) (isBite : option bool) (l1 l2 : list event) :
  built wp isBite (l1 ++ l2) = built wp isBite l1 ++ built wp isBite l2.
Proof.
  unfold built. destruct (encrypts wp isBite); [apply encrypted_txs_app | apply sent_app].
Qed.

Lemma built_nil (wp : WalletProvider) (isBite : option bool) : built wp isBite [] = [].
Proof. unfold built. destruct (encrypts wp isBite); reflexivity. Qed.

Lemma built_read (wp : WalletProvider) (isBite : option bool) (c a : string)
    (call : contract_read) (l : list event) :
  built wp isBite (EvReadContract c a call :: l) = built wp isBite l.
Proof. unfold built. destruct (encrypts wp isBite); reflexivity. Qed.

Lemma built_wait (wp : WalletProvider) (isBite : option bool) (c : string)
    (hash : option string) (l : list event) :
  built wp isBite (EvWaitForReceipt c hash :: l) = built wp isBite l.
Proof. unfold built. destruct (encrypts wp isBite); reflexivity. Qed.

Lemma submitted_calls (wp : WalletProvider) (chainName : string) (isBite : option bool)
    (tx : Transaction) (v g p : Z) (evs : list event) :
  submitted wp chainName isBite tx v g p evs ->
  count is_send evs = 1%nat /\ count is_wait evs = 0%nat /\ count is_read evs = 0%nat /\
  count is_encrypt evs = (if encrypts wp isBite then 1 else 0)%nat /\
  built wp isBite evs = [tx] /\ sent_values evs = [v].
Proof.
  intros [Hm | rpcUrl enc Hm]; unfold built; rewrite Hm; repeat split; reflexivity.
Qed.

Lemma approved_calls (wp : WalletProvider) (chainName : string) (isBite : option bool)
    (token spender : string) (amount : Z) (evs : list event) :
  approved wp chainName isBite token spender amount evs ->
  count is_read evs = 1%nat /\
  ((count is_send evs = 0%nat /\ count is_wait evs = 0%nat /\
    count is_encrypt evs = 0%nat /\ built wp isBite evs = [] /\ sent_values evs = []) \/
   (count is_send evs = 1%nat /\ count is_wait evs = 1%nat /\
    count is_encrypt evs = (if encrypts wp isBite then 1 else 0)%nat /\
    built wp isBite evs = [approve_tx token spender amount] /\ sent_values evs = [0])).
Proof.
  intros [ | evs' hash Hs].
  - split; [reflexivity | left]. unfold built. destruct (encrypts wp isBite);
      repeat split; reflexivity.
  - apply submitted_calls in Hs as (Hs & Hw & Hr & He & Hb & Hv).
    change (allowance_read wp chainName token spender :: evs' ++ [EvWaitForReceipt chainName hash])
      with ([allowance_read wp chainName token spender] ++ evs' ++ [EvWaitForReceipt chainName hash]).
    rewrite !count_app, !built_app, !sent_values_app, Hs, Hw, Hr, He, Hb, Hv.
    split; [reflexivity | right].
    unfold built. destruct (encrypts wp isBite); repeat split; reflexivity.
Qed.
(* ===================================================================== *)
(** ** The registry of chains ([PluginConfigManager]) *)
(* ===================================================================== *)

Lemma mergedChains_lookup (userConfig : PluginConfig) (name : string) :
  PluginConfigManager.mergedChains userConfig !! name =
    PluginConfigManager.mergeChain
      (chains DEFAULT_PLUGIN_CONFIG !! name) (chains userConfig !! name).
Proof.
  unfold PluginConfigManager.mergedChains. rewrite lookup_merge.
  destruct (chains DEFAULT_PLUGIN_CONFIG !! name), (chains userConfig !! name); reflexivity.
Qed.

Lemma default_chains_lookup (name : string) :
  chains DEFAULT_PLUGIN_CONFIG !! name =
    if decide (name = "fair-testnet") then Some DEFAULT_CHAIN_CONFIG else None.
Proof.
  unfold DEFAULT_PLUGIN_CONFIG. cbn [chains].
  destruct (decide (name = "fair-testnet")) as [-> | Hn].
  - apply lookup_insert_eq.
  - rewrite lookup_insert_ne by congruence. apply lookup_empty.
Qed.

(** X1.  The chains of a registry built from a configuration of the
    caller.  A chain that the caller does not name is the built-in one, a
    chain of the caller under another name than the built-in one is taken as
    it is, and a chain of the caller named ["fair-testnet"] replaces the
    fields of the built-in chain while the two token tables are merged: a
    symbol of the caller's table has the caller's address, any other symbol
    keeps the built-in address. *)
Theorem mergedChains_spec (userConfig : PluginConfig) (name : string) :
  (chains userConfig !! name = None ->
   PluginConfigManager.mergedChains userConfig !! name =
     chains DEFAULT_PLUGIN_CONFIG !! name) /\
  (forall u, chains userConfig !! name = Some u -> name <> "fair-testnet" ->
   PluginConfigManager.mergedChains userConfig !! name = Some u) /\
  (forall u, chains userConfig !! "fair-testnet" = Some u ->
   exists m,
     PluginConfigManager.mergedChains userConfig !! "fair-testnet" = Some m /\
     chainId m = chainId u /\ nativeToken m = nativeToken u /\ rpc m = rpc u /\
     explorerUrl m = explorerUrl u /\ uniswapV2Router m = uniswapV2Router u /\
     forall t,
       tokens m !! t =
         match tokens u !! t with
         | Some a => Some a
         | None => tokens DEFAULT_CHAIN_CONFIG !! t
         end).
Proof.
  split; [ | split ].
  - intros Hu. rewrite mergedChains_lookup, Hu.
    destruct (chains DEFAULT_PLUGIN_CONFIG !! name); reflexivity.
  - intros u Hu Hn. rewrite mergedChains_lookup, Hu, default_chains_lookup.
    destruct (decide _); [contradiction | reflexivity].
  - intros u Hu. rewrite mergedChains_lookup, Hu, default_chains_lookup.
    cbn [decide]. eexists. split; [reflexivity | ].
    cbn [chainId nativeToken rpc explorerUrl uniswapV2Router tokens].
    repeat (split; [reflexivity | ]).
    intros t. rewrite lookup_union.
    destruct (tokens u !! t), (tokens DEFAULT_CHAIN_CONFIG !! t); reflexivity.
Qed.

(** The built-in chain redefined with one token of its own: USDC has the
    new address, WFAIR the built-in one. *)
Lemma mergedChains_spec_witness :
  exists m,
    PluginConfigManager.mergedChains
      {| chains := <["fair-testnet" := TestDoubles.ownFair]> ∅ |} !! "fair-testnet"
      = Some m /\
    chainId m = "7" /\
    tokens m !! "USDC" = Some TestDoubles.otherAddress /\
    tokens m !! "WFAIR" = Some TestDoubles.WFAIR.
Proof.
  destruct (proj2 (proj2 (mergedChains_spec
              {| chains := <["fair-testnet" := TestDoubles.ownFair]> ∅ |}
              "fair-testnet")) TestDoubles.ownFair)
    as (m & Hm & Hid & _ & _ & _ & _ & Ht); [ vm_compute; reflexivity | ].
  exists m. split; [exact Hm | ]. split; [exact Hid | ].
  split; rewrite Ht; reflexivity.
Defined.

Lemma validateChains_ok (l : list (string * ChainConfig)) :
  PluginConfigManager.validateChains l = Ok tt <->
  forall name c, (name, c) ∈ l -> well_formed_chain c.
Proof.
  induction l as [ | [n c] l IH ]; cbn [PluginConfigManager.validateChains].
  - split; [ | reflexivity ]. intros _ name c H. apply elem_of_nil in H. contradiction.
  - destruct (PluginConfigManager.blank (chainId c)) eqn:Ei.
    { split; [discriminate | ]. intros H.
      destruct (H n c (list_elem_of_here _ _)) as [H1 _]. congruence. }
    destruct (PluginConfigManager.blank (rpc c)) eqn:Er.
    { split; [discriminate | ]. intros H.
      destruct (H n c (list_elem_of_here _ _)) as [_ H1]. congruence. }
    rewrite IH. split.
    + intros H name c' Hin. apply elem_of_cons in Hin as [[= -> ->] | Hin].
      * split; assumption.
      * eapply H; eassumption.
    + intros H name c' Hin. apply (H name c'). apply elem_of_cons. right. exact Hin.
Qed.

Lemma validateChains_throw (l : list (string * ChainConfig)) (e : error) :
  PluginConfigManager.validateChains l = Throw e ->
  exists name c, (name, c) ∈ l /\ chain_fault e name c.
Proof.
  induction l as [ | [n c] l IH ]; cbn [PluginConfigManager.validateChains]; [discriminate | ].
  destruct (PluginConfigManager.blank (chainId c)) eqn:Ei.
  { intros [= <-]. exists n, c. split; [apply list_elem_of_here | left; auto]. }
  destruct (PluginConfigManager.blank (rpc c)) eqn:Er.
  { intros [= <-]. exists n, c. split; [apply list_elem_of_here | right; auto]. }
  intros H. destruct (IH H) as (name & c' & Hin & Hf).
  exists name, c'. split; [ | exact Hf ]. apply elem_of_cons. right. exact Hin.
Qed.

Lemma mergedChains_default (userConfig : PluginConfig) :
  is_Some (PluginConfigManager.mergedChains userConfig !! "fair-testnet").
Proof.
  rewrite mergedChains_lookup, default_chains_lookup. cbn [decide].
  destruct (chains userConfig !! "fair-testnet"); cbn; eauto.
Qed.

Lemma mergedChains_nonempty (userConfig : PluginConfig) :
  PluginConfigManager.mergedChains userConfig <> ∅.
Proof.
  intros H. pose proof (mergedChains_default userConfig) as [c Hc].
  rewrite H, lookup_empty in Hc. discriminate.
Qed.

Lemma validateConfig_chains (config : PluginConfig) :
  chains config <> ∅ ->
  PluginConfigManager.validateConfig config =
    PluginConfigManager.validateChains (map_to_list (chains config)).
Proof.
  intros Hne. unfold PluginConfigManager.validateConfig.
  destruct (map_to_list (chains config)) as [ | x l ] eqn:El; [ | reflexivity ].
  apply map_to_list_empty_iff in El. contradiction.
Qed.

Lemma new_config_run (userConfig : PluginConfig) :
  PluginConfigManager.new userConfig =
    rbind
      (PluginConfigManager.validateChains
         (map_to_list (PluginConfigManager.mergedChains userConfig)))
      (fun _ => Ok {| chains := PluginConfigManager.mergedChains userConfig |}).
Proof.
  unfold PluginConfigManager.new.
  rewrite validateConfig_chains by apply mergedChains_nonempty. reflexivity.
Qed.

Lemma new_config_ok (userConfig config : PluginConfig) :
  PluginConfigManager.new userConfig = Ok config ->
  config = {| chains := PluginConfigManager.mergedChains userConfig |} /\
  forall name c,
    PluginConfigManager.mergedChains userConfig !! name = Some c -> well_formed_chain c.
Proof.
  rewrite new_config_run.
  destruct (PluginConfigManager.validateChains _) as [[] | e] eqn:Ev; cbn [rbind];
    [ | discriminate ].
  pose proof (proj1 (validateChains_ok _) Ev) as Hall.
  intros [= <-]. split; [reflexivity | ]. intros name c Hc.
  apply (Hall name c). apply elem_of_map_to_list. exact Hc.
Qed.

(** X2.  The constructor of the registry succeeds exactly when every chain
    of the merged configuration has a [chainId] and an [rpc] that are not
    blank; the registry is then the merged configuration.  So every chain of
    a registry that was built is well formed. *)
Theorem new_config_valid (userConfig config : PluginConfig) :
  PluginConfigManager.new userConfig = Ok config <->
  config = {| chains := PluginConfigManager.mergedChains userConfig |} /\
  forall name c,
    PluginConfigManager.mergedChains userConfig !! name = Some c -> well_formed_chain c.
Proof.
  split; [apply new_config_ok | ].
  intros [-> H]. rewrite new_config_run.
  assert (Hok : PluginConfigManager.validateChains
                  (map_to_list (PluginConfigManager.mergedChains userConfig)) = Ok tt).
  { apply validateChains_ok. intros name c Hin. apply (H name c).
    apply elem_of_map_to_list. exact Hin. }
  rewrite Hok. reflexivity.
Qed.

(** X3.  When the constructor of the registry throws, the error names a
    chain of the merged configuration whose [chainId] is blank, or whose
    [chainId] is not blank and whose [rpc] is; the error 'requires at least
    one chain' never occurs, the built-in chain being always there. *)
Theorem new_config_failure (userConfig : PluginConfig) (e : error) :
  PluginConfigManager.new userConfig = Throw e ->
  e <> NoChainConfigured /\
  exists name c,
    PluginConfigManager.mergedChains userConfig !! name = Some c /\ chain_fault e name c.
Proof.
  rewrite new_config_run.
  destruct (PluginConfigManager.validateChains _) as [[] | e'] eqn:Ev; cbn [rbind];
    [discriminate | ].
  intros [= ->]. apply validateChains_throw in Ev as (name & c & Hin & Hf).
  split.
  - destruct Hf as [[-> _] | [-> _]]; discriminate.
  - exists name, c. split; [ | exact Hf ]. apply elem_of_map_to_list. exact Hin.
Qed.

(** A chain of the caller with a blank [chainId]. *)
Lemma new_config_failure_witness :
  MissingChainId "side" <> NoChainConfigured /\
  exists name c,
    PluginConfigManager.mergedChains {| chains := <["side" := TestDoubles.nameless]> ∅ |}
      !! name = Some c /\
    chain_fault (MissingChainId "side") name c.
Proof.
  apply (new_config_failure {| chains := <["side" := TestDoubles.nameless]> ∅ |}
           (MissingChainId "side")).
  vm_compute. reflexivity.
Defined.

(* ===================================================================== *)
(** ** The provider ([WalletProvider]) *)
(* ===================================================================== *)

(** X4.  A provider that was constructed has the address of its account,
    supports the built-in chain, has only well-formed chains, has the
    built-in registry when no configuration was given, and, when no mode was
    given, is in the automatic mode: every transaction that it submits on a
    registered chain goes through the encryption. *)
Theorem new_wallet_defaults (address : string) (mode : option BiteConfig)
    (pluginConfig : option PluginConfig) (wp : WalletProvider) :
  Wallet.new address mode pluginConfig = Ok wp ->
  Wallet.getAddress wp = address /\
  Wallet.isChainSupported wp "fair-testnet" = Ok true /\
  (forall name c, chains (configManager wp) !! name = Some c -> well_formed_chain c) /\
  (pluginConfig = None -> configManager wp = DEFAULT_PLUGIN_CONFIG) /\
  (mode = None ->
   Wallet.getBiteConfig wp = automatic /\
   forall chainName cfg tx isBite w h,
     chains (configManager wp) !! chainName = Some cfg ->
     existsb is_encrypt (snd (Wallet.sendTransaction wp chainName tx isBite w h)) = true).
Proof.
  unfold Wallet.new.
  destruct (PluginConfigManager.new _) as [config | e] eqn:Hnew; [ | discriminate ].
  cbn [rbind]. intros [= <-].
  apply new_config_ok in Hnew as [-> Hall].
  split; [reflexivity | ]. split; [ | split; [exact Hall | split ] ].
  - destruct (mergedChains_default (default {| chains := ∅ |} pluginConfig)) as [c Hc].
    eapply isChainSupported_registered; [ exact Hc | discriminate ].
  - intros ->. cbn [default configManager].
    destruct DEFAULT_PLUGIN_CONFIG as [dc] eqn:Ed. f_equal.
    apply map_eq. intros name. rewrite mergedChains_lookup. cbn [chains].
    rewrite lookup_empty, Ed. cbn [chains]. destruct (dc !! name); reflexivity.
  - intros ->. split; [reflexivity | ]. intros chainName cfg tx isBite w h Hc.
    rewrite (sendTransaction_encrypted _ _ _ _ _ _ _ Hc eq_refl). reflexivity.
Qed.

(** The provider of the test-suite, built with a key alone. *)
Lemma new_wallet_defaults_witness :
  Wallet.isChainSupported (TestDoubles.wallet automatic) "fair-testnet" = Ok true /\
  Wallet.getBiteConfig (TestDoubles.wallet automatic) = automatic.
Proof.
  pose proof (new_wallet_defaults TestDoubles.walletAddress None None
                (TestDoubles.wallet automatic)) as H.
  destruct H as (_ & Hs & _ & _ & Hm); [ vm_compute; reflexivity | ].
  split; [exact Hs | exact (proj1 (Hm eq_refl))].
Defined.



Lemma trimEnd_idem (s : string) : Js.trimEnd (Js.trimEnd s) = Js.trimEnd s.
Proof.
  induction s as [ | c s IH ]; [reflexivity | ].
  cbn [Js.trimEnd]. destruct (Js.trimEnd s) as [ | d t ] eqn:Et.
  - destruct (Js.is_space c) eqn:Ec; [reflexivity | ].
    cbn [Js.trimEnd]. rewrite Ec. reflexivity.
  - cbn [Js.trimEnd]. cbn [Js.trimEnd] in IH. rewrite IH. reflexivity.
Qed.

Lemma trimStart_cases (s : string) :
  Js.trimStart s = "" \/
  exists c t, Js.trimStart s = String c t /\ Js.is_space c = false.
Proof.
  induction s as [ | c s IH ]; [left; reflexivity | ].
  cbn [Js.trimStart]. destruct (Js.is_space c) eqn:Ec; [exact IH | ].
  right. exists c, s. split; [reflexivity | exact Ec].
Qed.

Lemma trimEnd_head (c : ascii) (s : string) :
  Js.is_space c = false -> exists t, Js.trimEnd (String c s) = String c t.
Proof.
  intros H. cbn [Js.trimEnd]. destruct (Js.trimEnd s); [ rewrite H | ]; eauto.
Qed.

Lemma trim_idem (s : string) : Js.trim (Js.trim s) = Js.trim s.
Proof.
  unfold Js.trim. destruct (trimStart_cases s) as [-> | (c & t & -> & Hc)].
  - reflexivity.
  - destruct (trimEnd_head c t Hc) as [t' Ht]. rewrite Ht.
    cbn [Js.trimStart]. rewrite Hc, <- Ht. apply trimEnd_idem.
Qed.

(** X6.  [formatAddress] is idempotent: for a wallet whose own address has
    no white space around it, an address that was normalised is left as it
    is by a second normalisation. *)
Theorem formatAddress_idempotent (wp : WalletProvider) (address : option string) :
  Js.trim (Wallet.getAddress wp) = Wallet.getAddress wp ->
  Wallet.formatAddress wp (Some (Wallet.formatAddress wp address)) =
    Wallet.formatAddress wp address.
Proof.
  intros Hw.
  assert (Hown : Wallet.formatAddress wp (Some (Wallet.getAddress wp)) = Wallet.getAddress wp).
  { rewrite formatAddress_spec, Hw. destruct (Js.startsWith _ _); reflexivity. }
  destruct address as [s | ]; [ | exact Hown ].
  rewrite (formatAddress_spec wp s).
  destruct (Js.startsWith (Js.trim s) "0x") eqn:Ep; [ | exact Hown ].
  rewrite formatAddress_spec, trim_idem, Ep. reflexivity.
Qed.

(** A short address with spaces around it. *)
Lemma formatAddress_idempotent_witness :
  Wallet.formatAddress (TestDoubles.wallet manual)
    (Some (Wallet.formatAddress (TestDoubles.wallet manual) (Some " 0x1234 "))) =
  Wallet.formatAddress (TestDoubles.wallet manual) (Some " 0x1234 ").
Proof.
  apply (formatAddress_idempotent (TestDoubles.wallet manual) (Some " 0x1234 ")).
  reflexivity.
Defined.
(* ===================================================================== *)
(** ** Swaps ([SwapAction]) *)
(* ===================================================================== *)


Lemma swap_validate_events (params : SwapParams) (w : World) (h : list event) :
  snd (SwapAction.validateAndNormalizeParams params w h) = [].
Proof.
  unfold SwapAction.validateAndNormalizeParams. unfold_prog.
  repeat break_inner; reflexivity.
Qed.

Lemma swap_validate_distinct (params : SwapParams) (w : World) (h : list event) :
  fst (SwapAction.validateAndNormalizeParams params w h) = Ok tt ->
  Js.toLowerCase (sp_inputToken params) <> Js.toLowerCase (sp_outputToken params).
Proof.
  unfold SwapAction.validateAndNormalizeParams.
  destruct (_ || _); [discriminate | ].
  destruct (String.eqb _ _) eqn:Ee; [discriminate | ].
  intros _. apply String.eqb_neq. exact Ee.
Qed.

(** *** The slippage that a validated request carries *)

Lemma accepted_slippage_range (s : Num.number) :
  Num.truthy s = true ->
  Num.lt s Num.zero || Num.gt s Num.fifty = false ->
  Num.le Num.zero s = true /\ Num.le s Num.fifty = true.
Proof.
  intros Ht H. apply orb_false_iff in H as [H0 H50].
  destruct s as [b | b | | sg m e]; try discriminate Ht.
  - destruct b; [discriminate H0 | discriminate H50].
  - destruct sg; [discriminate H0 | ]. split; [reflexivity | ].
    unfold Num.gt, Num.le, SFltb, SFleb, SFcompare, Num.fifty in *.
    rewrite (Z.compare_antisym e (-47)) in H50.
    destruct (e ?= -47) eqn:Ee; cbn [CompOpp] in H50; try reflexivity; try discriminate H50.
    rewrite Pos.compare_cont_spec in H50 |- *. cbn [Pos.switch_Eq] in H50 |- *.
    rewrite (Pos.compare_antisym m 7036874417766400) in H50.
    destruct (m ?= 7036874417766400)%positive; cbn [CompOpp] in H50;
      try reflexivity; discriminate H50.
Qed.

Lemma validated_multiplier (params : SwapParams) (w : World) (h : list event) :
  fst (SwapAction.validateAndNormalizeParams params w h) = Ok tt ->
  (forall s, sp_slippage params = Some s -> Num.valid s = true) ->
  exists k,
    SwapAction.slippageMultiplier (SwapAction.effectiveSlippage params) = Some k /\
    5000 <= k <= 10000.
Proof.
  intros Hv Hvalid. unfold SwapAction.effectiveSlippage.
  destruct (sp_slippage params) as [s | ] eqn:Hs.
  - destruct (Num.truthy s) eqn:Ht.
    + assert (Hr : Num.lt s Num.zero || Num.gt s Num.fifty = false).
      { revert Hv. unfold SwapAction.validateAndNormalizeParams.
        destruct (_ || _); [discriminate | ].
        destruct (String.eqb _ _); [discriminate | ].
        destruct (negb _); [discriminate | ]. rewrite bind_ask.
        destruct (Num.le _ _); [discriminate | ]. rewrite Hs.
        destruct (_ || _); [discriminate | reflexivity]. }
      destruct (accepted_slippage_range s Ht Hr) as [H0 H50].
      apply slippageMultiplier_range; auto.
    + exists 9950. split; [exact multiplier_half | lia].
  - exists 9950. split; [exact multiplier_half | lia].
Qed.

Lemma minimum_bounds (out k : Z) :
  0 <= out -> 5000 <= k <= 10000 ->
  Z.quot out 2 <= Z.quot (out * k) 10000 <= out.
Proof.
  intros Ho Hk. rewrite !Z.quot_div_nonneg by nia.
  split.
  - replace (out / 2) with ((out * 5000) / 10000).
    + apply Z.div_le_mono; nia.
    + change 10000 with (2 * 5000). apply Z.div_mul_cancel_r; lia.
  - apply Z.div_le_upper_bound; nia.
Qed.

Lemma calculateAmountOut_ok (wp : WalletProvider) (amountIn : Z)
    (inputTokenAddress outputTokenAddress : string) (slippage : Num.number)
    (chainName : string) (w : World) (h : list event) (q : Quote) (evs : list event) :
  SwapAction.calculateAmountOut wp amountIn inputTokenAddress outputTokenAddress
    slippage chainName w h = (Ok q, evs) ->
  exists cfg k amounts,
    chains (configManager wp) !! chainName = Some cfg /\
    read_getAmountsOut w h chainName (uniswapV2Router cfg) amountIn
      [inputTokenAddress; outputTokenAddress] = Some amounts /\
    nth_error amounts 1 = Some (amountOut q) /\
    SwapAction.slippageMultiplier slippage = Some k /\
    amountOutMin q = Z.quot (amountOut q * k) 10000 /\
    evs = [EvReadContract chainName (uniswapV2Router cfg)
             (GetAmountsOut amountIn [inputTokenAddress; outputTokenAddress])].
Proof.
  unfold SwapAction.calculateAmountOut. intros H.
  apply bind_ok_inv in H as (router & e1 & e2 & Hr & H & ->).
  assert (Hreg : exists cfg, chains (configManager wp) !! chainName = Some cfg).
  { revert Hr. unfold Wallet.getChainUniswapRouter, PluginConfigManager.getUniswapAddress.
    destruct (chains (configManager wp) !! chainName); [eauto | discriminate]. }
  destruct Hreg as [cfg Hc].
  apply (router_ok _ _ _ _ _ _ _ Hc) in Hr as [-> ->].
  cbn [app]. rewrite app_nil_r in H. unfold try_rethrow in H.
  match type of H with
  | match ?m with _ => _ end = _ => destruct m as [[q' | e] evs'] eqn:Hm
  end; [ | discriminate ].
  injection H as <- <-.
  apply bind_ok_inv in Hm as (amounts & e3 & e4 & Ha & Hm & ->).
  apply readContract_ok in Ha as [-> Ha].
  destruct (nth_error amounts 1) as [out | ] eqn:Hn; [ | discriminate ].
  destruct (SwapAction.slippageMultiplier slippage) as [k | ] eqn:Hk; [ | discriminate ].
  unfold ret in Hm. injection Hm as <- <-.
  exists cfg, k, amounts. split; [exact Hc | ]. split; [exact Ha | ].
  split; [exact Hn | ]. split; [reflexivity | ]. split; reflexivity.
Qed.

(** X8.  The slippage of a validated request.  For a request that
    [validateAndNormalizeParams] accepts, the slippage that [swap] hands to
    the quote, the given one or 0.5 when it is omitted, zero or not a
    number, always has a multiplier, between 5000 and 10000 basis points.
    So the quote never fails on the slippage: it succeeds whenever the chain
    has a router and the router answers with two amounts; and the minimum
    that it computes for an output that is not negative lies between half of
    the output and the output. *)
Theorem validated_slippage_quote (wp : WalletProvider) (params : SwapParams)
    (w : World) (h : list event) :
  fst (SwapAction.validateAndNormalizeParams params w h) = Ok tt ->
  (forall s, sp_slippage params = Some s -> Num.valid s = true) ->
  (exists k,
     SwapAction.slippageMultiplier (SwapAction.effectiveSlippage params) = Some k /\
     5000 <= k <= 10000) /\
  (forall amountIn tokenIn tokenOut h' cfg amounts out,
     chains (configManager wp) !! sp_chainName params = Some cfg ->
     isAddress w (uniswapV2Router cfg) = true ->
     read_getAmountsOut w h' (sp_chainName params) (uniswapV2Router cfg) amountIn
       [tokenIn; tokenOut] = Some amounts ->
     nth_error amounts 1 = Some out ->
     is_ok (fst (SwapAction.calculateAmountOut wp amountIn tokenIn tokenOut
                   (SwapAction.effectiveSlippage params) (sp_chainName params) w h'))
       = true) /\
  (forall amountIn tokenIn tokenOut h' q evs,
     SwapAction.calculateAmountOut wp amountIn tokenIn tokenOut
       (SwapAction.effectiveSlippage params) (sp_chainName params) w h' = (Ok q, evs) ->
     0 <= amountOut q ->
     Z.quot (amountOut q) 2 <= amountOutMin q <= amountOut q).
Proof.
  intros Hv Hvalid.
  destruct (validated_multiplier params w h Hv Hvalid) as (k & Hk & Hrange).
  split; [eauto | ]. split.
  - intros amountIn tokenIn tokenOut h' cfg amounts out Hc Ha Hq Hn.
    rewrite (calculateAmountOut_run _ _ _ _ _ _ _ _ _ _ _ _ Hc Ha Hq Hn Hk). reflexivity.
  - intros amountIn tokenIn tokenOut h' q evs Hq Hout.
    apply calculateAmountOut_ok in Hq as (cfg & k' & amounts & _ & _ & _ & Hk' & -> & _).
    rewrite Hk in Hk'. injection Hk' as <-. apply minimum_bounds; assumption.
Qed.

(** A request with a slippage of 1 percent. *)
Lemma validated_slippage_quote_witness :
  exists k,
    SwapAction.slippageMultiplier
      (SwapAction.effectiveSlippage (TestDoubles.swapParams (Some TestDoubles.one)))
      = Some k /\
    5000 <= k <= 10000.
Proof.
  apply (proj1 (validated_slippage_quote (TestDoubles.wallet manual)
                  (TestDoubles.swapParams (Some TestDoubles.one))
                  (TestDoubles.world TestDoubles.noAllowance (Some TestDoubles.txHash)) []
                  eq_refl
                  (fun s (H : Some TestDoubles.one = Some s) =>
                     match H in (_ = y) return
                       (match y with Some s' => Num.valid s' = true | None => True end)
                     with eq_refl => eq_refl end))).
Defined.

(** *** Completed swaps *)

Lemma approveToken_ok (wp : WalletProvider) (tokenAddress spender : string)
    (amount : Z) (chainName : string) (isBite : option bool) (w : World)
    (h : list event) (evs : list event) :
  SwapAction.approveToken wp tokenAddress spender amount chainName isBite w h
    = (Ok tt, evs) ->
  approved wp chainName isBite tokenAddress spender amount evs.
Proof.
  unfold SwapAction.approveToken. intros H.
  apply bind_ok_inv in H as (a & e1 & e2 & Ha & H & ->).
  apply readContract_ok in Ha as [-> _]. cbn [app].
  destruct (a <? amount).
  - apply bind_ok_inv in H as (d & e3 & e4 & Hd & H & ->).
    apply encode_ok in Hd as [-> ->]. cbn [app] in H |- *.
    apply bind_ok_inv in H as (c & e5 & e6 & Hc & H & ->).
    apply lift_events in Hc as ->. cbn [app] in H |- *.
    apply bind_ok_inv in H as (hash & e7 & e8 & Hs & H & ->).
    apply sendTransaction_ok in Hs. apply waitForTx_ok in H as ->.
    apply approved_now. exact Hs.
  - unfold ret in H. injection H as <-. apply approved_before.
Qed.

Lemma swapETHForTokens_ok (wp : WalletProvider) (amountIn amountOutMin : Z)
    (tokenIn tokenOut recipient : string) (deadline : Z) (chainName : string)
    (isBite : option bool) (cfg : ChainConfig) (w : World) (h : list event)
    (hash : option string) (evs : list event) :
  chains (configManager wp) !! chainName = Some cfg ->
  SwapAction.swapETHForTokens wp amountIn amountOutMin tokenIn tokenOut recipient
    deadline chainName isBite w h = (Ok hash, evs) ->
  submitted wp chainName isBite
    {| tx_to := Plain (uniswapV2Router cfg);
       tx_data := Some (Encoded (SwapExactETHForTokens amountOutMin [tokenIn; tokenOut]
                                   recipient deadline)) |}
    amountIn SwapAction.SWAP_GAS SwapAction.DEFAULT_GAS_PRICE evs.
Proof.
  intros Hc H. unfold SwapAction.swapETHForTokens in H.
  apply bind_ok_inv in H as (d & e1 & e2 & Hd & H & ->).
  apply encode_ok in Hd as [-> ->]. cbn [app] in H |- *. rewrite app_nil_r in H.
  apply bind_ok_inv in H as (router & e3 & e4 & Hr & H & ->).
  apply (router_ok _ _ _ _ _ _ _ Hc) in Hr as [-> ->]. cbn [app] in H |- *.
  rewrite app_nil_r in H.
  apply bind_ok_inv in H as (c & e5 & e6 & Hch & H & ->).
  apply lift_events in Hch as ->. cbn [app] in H |- *. rewrite app_nil_r in H.
  apply sendTransaction_ok in H. exact H.
Qed.

Lemma swapTokensForETH_ok (wp : WalletProvider) (amountIn amountOutMin : Z)
    (tokenIn tokenOut recipient : string) (deadline : Z) (chainName : string)
    (isBite : option bool) (cfg : ChainConfig) (w : World) (h : list event)
    (hash : option string) (evs : list event) :
  chains (configManager wp) !! chainName = Some cfg ->
  SwapAction.swapTokensForETH wp amountIn amountOutMin tokenIn tokenOut recipient
    deadline chainName isBite w h = (Ok hash, evs) ->
  exists evsA evsS,
    evs = evsA ++ evsS /\
    approved wp chainName isBite tokenIn (uniswapV2Router cfg) amountIn evsA /\
    submitted wp chainName isBite
      {| tx_to := Plain (uniswapV2Router cfg);
         tx_data := Some (Encoded (SwapExactTokensForETH amountIn amountOutMin
                                     [tokenIn; tokenOut] recipient deadline)) |}
      0 SwapAction.SWAP_GAS SwapAction.DEFAULT_GAS_PRICE evsS.
Proof.
  intros Hc H. unfold SwapAction.swapTokensForETH in H.
  apply bind_ok_inv in H as (router & e1 & e2 & Hr & H & ->).
  apply (router_ok _ _ _ _ _ _ _ Hc) in Hr as [-> ->]. cbn [app] in H |- *.
  rewrite app_nil_r in H.
  apply bind_ok_inv in H as ([] & evsA & e4 & Ha & H & ->).
  apply approveToken_ok in Ha.
  apply bind_ok_inv in H as (d & e5 & e6 & Hd & H & ->).
  apply encode_ok in Hd as [-> ->]. cbn [app] in H |- *. rewrite app_nil_r in H.
  apply bind_ok_inv in H as (c & e7 & e8 & Hch & H & ->).
  apply lift_events in Hch as ->. cbn [app] in H |- *. rewrite app_nil_r in H.
  apply sendTransaction_ok in H. exists evsA, e8. auto.
Qed.

Lemma swapTokensForTokens_ok (wp : WalletProvider) (amountIn amountOutMin : Z)
    (tokenIn tokenOut recipient : string) (deadline : Z) (chainName : string)
    (isBite : option bool) (cfg : ChainConfig) (w : World) (h : list event)
    (hash : option string) (evs : list event) :
  chains (configManager wp) !! chainName = Some cfg ->
  SwapAction.swapTokensForTokens wp amountIn amountOutMin tokenIn tokenOut recipient
    deadline chainName isBite w h = (Ok hash, evs) ->
  exists evsA evsS,
    evs = evsA ++ evsS /\
    approved wp chainName isBite tokenIn (uniswapV2Router cfg) amountIn evsA /\
    submitted wp chainName isBite
      {| tx_to := Plain (uniswapV2Router cfg);
         tx_data := Some (Encoded (SwapExactTokensForTokens amountIn amountOutMin
                                     [tokenIn; tokenOut] recipient deadline)) |}
      0 SwapAction.SWAP_GAS SwapAction.DEFAULT_GAS_PRICE evsS.
Proof.
  intros Hc H. unfold SwapAction.swapTokensForTokens in H.
  apply bind_ok_inv in H as (router & e1 & e2 & Hr & H & ->).
  apply (router_ok _ _ _ _ _ _ _ Hc) in Hr as [-> ->]. cbn [app] in H |- *.
  rewrite app_nil_r in H.
  apply bind_ok_inv in H as ([] & evsA & e4 & Ha & H & ->).
  apply approveToken_ok in Ha.
  apply bind_ok_inv in H as (d & e5 & e6 & Hd & H & ->).
  apply encode_ok in Hd as [-> ->]. cbn [app] in H |- *. rewrite app_nil_r in H.
  apply bind_ok_inv in H as (c & e7 & e8 & Hch & H & ->).
  apply lift_events in Hch as ->. cbn [app] in H |- *. rewrite app_nil_r in H.
  apply sendTransaction_ok in H. exists evsA, e8. auto.
Qed.

(** Every completed swap went through the steps of [completed_swap]. *)
Lemma swap_ok (wp : WalletProvider) (params : SwapParams) (w : World)
    (h : list event) (resp : SwapResponse) (evs : list event) :
  SwapAction.swap wp params w h = (Ok resp, evs) ->
  exists r, completed_swap wp params w h resp evs r.
Proof.
  unfold SwapAction.swap. intros H.
  apply bind_ok_inv in H as (sup & e1 & e2 & Hsup & H & ->).
  pose proof (lift_events _ _ _ _ _ Hsup) as ->. unfold lift in Hsup.
  injection Hsup as Hsup. cbn [app] in H |- *. rewrite app_nil_r in H.
  destruct sup; cbn [negb] in H; [ | discriminate ].
  apply isChainSupported_true in Hsup as [cfg Hc].
  apply bind_ok_inv in H as ([] & e3 & e4 & Hval & H & ->).
  pose proof (swap_validate_events params w h) as Hev. rewrite Hval in Hev.
  cbn [snd] in Hev. subst e3. cbn [app] in H |- *. rewrite app_nil_r in H.
  apply bind_ok_inv in H as (inInfo & e5 & e6 & Hin & H & ->).
  pose proof (lift_events _ _ _ _ _ Hin) as ->. unfold lift in Hin. injection Hin as Hin.
  cbn [app] in H |- *. rewrite app_nil_r in H.
  apply bind_ok_inv in H as (outInfo & e7 & e8 & Hout & H & ->).
  pose proof (lift_events _ _ _ _ _ Hout) as ->. unfold lift in Hout. injection Hout as Hout.
  cbn [app] in H |- *. rewrite app_nil_r in H.
  apply bind_ok_inv in H as (dIn & e9 & e10 & HdIn & H & ->).
  apply readContract_ok in HdIn as [-> HdIn].
  apply bind_ok_inv in H as (dOut & e11 & e12 & HdOut & H & ->).
  apply readContract_ok in HdOut as [-> HdOut].
  apply bind_ok_inv in H as (amountIn & e13 & e14 & Hamt & H & ->).
  assert (e13 = [] /\ parseUnits w (sp_amount params) dIn = Some amountIn) as [-> Hparse].
  { revert Hamt. unfold ask_opt. destruct (parseUnits w _ _); intros [= <- <-]; auto. }
  cbn [app] in H |- *. rewrite app_nil_r in H.
  apply bind_ok_inv in H as (now & e15 & e16 & Hnow & H & ->).
  injection Hnow as <- <-. cbn [app] in H |- *. rewrite app_nil_r in H.
  rewrite <- !app_assoc in H. cbn [app] in H.
  apply bind_ok_inv in H as (q & e17 & e18 & Hq & H & ->).
  apply calculateAmountOut_ok in Hq as (cfg' & k & amounts & Hc' & Hq & Hn & Hk & Hmin & ->).
  rewrite Hc in Hc'. injection Hc' as <-.
  apply bind_ok_inv in H as (hash & e19 & e20 & Hd & H & ->).
  destruct hash as [hash | ]; [ | discriminate ].
  destruct (negb (Js.truthy hash) || String.eqb hash "0x") eqn:Ehash; [discriminate | ].
  apply orb_false_iff in Ehash as [Et Ez]. apply negb_false_iff in Et.
  apply String.eqb_neq in Ez.
  apply bind_ok_inv in H as ([] & e21 & e22 & Hw & H & ->).
  apply waitForTx_ok in Hw as ->.
  rewrite bind_ask in H. unfold ret in H. injection H as <- <-.
  rewrite app_nil_r. cbn [sr_txHash].
  match type of Hd with
  | context [Date_now w ?hist / 1000 + _] =>
      set (deadline := Date_now w hist / 1000 + SwapAction.DEFAULT_DEADLINE_MINUTES * 60) in *
  end.
  assert (Hdis :
    exists evsA evsS, e19 = evsA ++ evsS /\
      (if pays_native inInfo outInfo then evsA = []
       else approved wp (sp_chainName params) (sp_isBite params) (address inInfo)
              (uniswapV2Router cfg) amountIn evsA) /\
      submitted wp (sp_chainName params) (sp_isBite params)
        {| tx_to := Plain (uniswapV2Router cfg);
           tx_data := Some (Encoded (swap_call inInfo outInfo amountIn (amountOutMin q)
                                       (Wallet.getAddress wp) deadline)) |}
        (if pays_native inInfo outInfo then amountIn else 0)
        SwapAction.SWAP_GAS SwapAction.DEFAULT_GAS_PRICE evsS).
  { unfold pays_native, swap_call.
    destruct (isNative inInfo && negb (isNative outInfo)).
    - apply (swapETHForTokens_ok _ _ _ _ _ _ _ _ _ _ _ _ _ _ Hc) in Hd.
      exists [], e19. auto.
    - destruct (negb (isNative inInfo) && isNative outInfo).
      + apply (swapTokensForETH_ok _ _ _ _ _ _ _ _ _ _ _ _ _ _ Hc) in Hd.
        exact Hd.
      + apply (swapTokensForTokens_ok _ _ _ _ _ _ _ _ _ _ _ _ _ _ Hc) in Hd.
        exact Hd. }
  destruct Hdis as (evsA & evsS & -> & HA & HS).
  exists {| run_cfg := cfg; run_input := inInfo; run_output := outInfo;
            run_decimalsIn := dIn; run_decimalsOut := dOut; run_amountIn := amountIn;
            run_amounts := amounts; run_amountOut := amountOut q; run_multiplier := k;
            run_deadline := deadline; run_approval := evsA; run_submission := evsS |}.
  unfold completed_swap, run_events, run_decimals_reads, run_tx, run_amountOutMin.
  cbn [run_cfg run_input run_output run_decimalsIn run_decimalsOut run_amountIn
       run_amounts run_amountOut
       run_multiplier run_deadline run_approval run_submission sr_txHash].
  rewrite <- Hmin, Hval. cbn [fst].
  rewrite <- ?app_assoc in Hq. cbn [app] in Hq.
  repeat (split; [ assumption || reflexivity | ]).
  split.
  { cbn [app]. rewrite <- !app_assoc. reflexivity. }
  repeat (split; [ assumption || reflexivity | ]). reflexivity.
Qed.

Lemma resolve_native (wp : WalletProvider) (token chainName : string) (cfg : ChainConfig)
    (info : TokenInfo) :
  chains (configManager wp) !! chainName = Some cfg ->
  SwapAction.resolveTokenAddress wp token chainName = Ok info ->
  isNative info = true ->
  Js.toLowerCase token = Js.toLowerCase (nativeToken cfg).
Proof.
  intros Hc. unfold SwapAction.resolveTokenAddress.
  destruct (Js.startsWith token "0x"); [ intros [= <-]; discriminate | ].
  rewrite (getCurrentChain_registered _ _ _ Hc). cbn [rbind nativeCurrency_symbol].
  destruct (String.eqb _ _) eqn:Ee.
  - intros _ _. apply String.eqb_eq. exact Ee.
  - destruct (Wallet.getChainToken _ _ _) as [a | ]; cbn [rbind]; [ | discriminate ].
    destruct (negb _); [discriminate | ]. intros [= <-]. discriminate.
Qed.

(** The calls of a completed swap, counted. *)
Lemma completed_swap_calls (wp : WalletProvider) (params : SwapParams) (w : World)
    (h : list event) (resp : SwapResponse) (evs : list event) (r : SwapRun) :
  completed_swap wp params w h resp evs r ->
  isNative (run_input r) && isNative (run_output r) = false /\
  pays_native (run_input r) (run_output r) = isNative (run_input r) /\
  evs = run_events params resp r /\
  count is_wait evs = count is_send evs /\
  count is_send evs = (if isNative (run_input r) then 1 else count is_send evs)%nat /\
  (count is_send evs = 1%nat \/ count is_send evs = 2%nat) /\
  count is_read evs = (if isNative (run_input r) then 3 else 4)%nat /\
  count is_encrypt evs =
    (if encrypts wp (sp_isBite params) then count is_send evs else 0)%nat /\
  sent_values evs =
    (if isNative (run_input r) then [run_amountIn r]
     else repeat 0 (count is_send evs)) /\
  built wp (sp_isBite params) evs =
    (if (count is_send evs =? 1)%nat then [run_tx wp r]
     else [approve_tx (address (run_input r)) (uniswapV2Router (run_cfg r))
             (run_amountIn r); run_tx wp r]).
Proof.
  intros (Hc & Hv & Hi & Ho & _ & _ & _ & _ & _ & _ & _ & HA & HS & -> & _).
  assert (Hnb : isNative (run_input r) && isNative (run_output r) = false).
  { destruct (isNative (run_input r)) eqn:Ei; [ | reflexivity ].
    destruct (isNative (run_output r)) eqn:Eo; [ | reflexivity ].
    exfalso. apply (swap_validate_distinct _ _ _ Hv).
    rewrite (resolve_native _ _ _ _ _ Hc Hi Ei), (resolve_native _ _ _ _ _ Hc Ho Eo).
    reflexivity. }
  assert (Hpn : pays_native (run_input r) (run_output r) = isNative (run_input r)).
  { unfold pays_native. destruct (isNative (run_input r)); [ | reflexivity ].
    cbn [andb] in Hnb |- *. rewrite Hnb. reflexivity. }
  split; [exact Hnb | ]. split; [exact Hpn | ]. split; [reflexivity | ].
  rewrite Hpn in HA, HS.
  apply submitted_calls in HS as (Hs & Hw & Hr & He & Hb & Hsv).
  unfold run_events, run_decimals_reads. cbn [app count is_wait is_send is_read is_encrypt].
  rewrite !built_read, !count_app, !built_app, Hs, Hw, Hr, He, Hb.
  cbn [sent_values]. rewrite !sent_values_app, Hsv.
  cbn [count is_wait is_send is_read is_encrypt sent_values].
  rewrite built_wait, built_nil.
  destruct (isNative (run_input r)).
  - rewrite HA. cbn [count app]. rewrite built_nil.
    destruct (encrypts _ _); repeat split; auto.
  - apply approved_calls in HA
      as (-> & [(-> & -> & -> & -> & ->) | (-> & -> & -> & -> & ->)]);
      destruct (encrypts _ _); cbn; repeat split; auto.
Qed.

Lemma amountString_point (amount : string) :
  Js.includes_char (SwapAction.amountString amount) "." = true.
Proof.
  unfold SwapAction.amountString.
  destruct (Js.includes_char amount ".") eqn:E; [exact E | ].
  clear E. induction amount as [ | c s IH ]; [reflexivity | ].
  change (String c s +:+ ".0") with (String c (s +:+ ".0")).
  cbn [Js.includes_char]. rewrite IH. apply orb_true_r.
Qed.
(** X9.  A completed swap has a transaction hash that is neither empty nor
    ["0x"], and its last external call is the wait for the receipt of that
    hash; every transaction that it sent was waited for.  The response
    repeats the chain and the two tokens of the request, and its [amountIn]
    is the requested amount, with [".0"] appended when it had no decimal
    point. *)
Theorem swap_waits_for_receipt (wp : WalletProvider) (params : SwapParams) (w : World)
    (h : list event) (resp : SwapResponse) (evs : list event) :
  SwapAction.swap wp params w h = (Ok resp, evs) ->
  Js.truthy (sr_txHash resp) = true /\ sr_txHash resp <> "0x" /\
  (exists evs',
     evs = evs' ++ [EvWaitForReceipt (sp_chainName params) (Some (sr_txHash resp))]) /\
  count is_wait evs = count is_send evs /\
  sr_chainName resp = sp_chainName params /\
  sr_inputToken resp = sp_inputToken params /\
  sr_outputToken resp = sp_outputToken params /\
  sr_amountIn resp = SwapAction.amountString (sp_amount params) /\
  Js.includes_char (sr_amountIn resp) "." = true.
Proof.
  intros H. apply swap_ok in H as [r Hr].
  pose proof (completed_swap_calls _ _ _ _ _ _ _ Hr) as (_ & _ & _ & Hw & _).
  destruct Hr as (_ & _ & _ & _ & _ & _ & _ & _ & _ & _ & _ & _ & _ & -> & Ht & Hz & Hresp).
  split; [exact Ht | ]. split; [exact Hz | ]. split.
  { unfold run_events, run_decimals_reads. eexists (_ :: _ :: _ :: _ ++ _).
    cbn [app]. rewrite <- app_assoc. reflexivity. }
  split; [exact Hw | ].
  rewrite Hresp. cbn [sr_chainName sr_inputToken sr_outputToken sr_amountIn].
  repeat (split; [reflexivity | ]). apply amountString_point.
Qed.

(** The swap of 1 FAIR for USDC of the test-suite. *)
Lemma swap_waits_for_receipt_witness :
  let w := TestDoubles.world TestDoubles.noAllowance (Some TestDoubles.txHash) in
  match SwapAction.swap (TestDoubles.wallet manual) (TestDoubles.swapParams None) w [] with
  | (Ok resp, evs) =>
      Js.truthy (sr_txHash resp) = true /\ count is_wait evs = count is_send evs
  | _ => False
  end.
Proof.
  cbv zeta.
  destruct (SwapAction.swap _ _ _ _) as [[resp | e] evs] eqn:H.
  - destruct (swap_waits_for_receipt _ _ _ _ _ _ H) as (Ht & _ & _ & Hw & _). auto.
  - vm_compute in H. discriminate H.
Defined.

(** X10.  The external calls of a completed swap.  When the input is the
    native token, one transaction was sent after three reads (the decimals
    of the two tokens and the quote).  Otherwise the allowance was read as
    well, four reads, and one or two transactions were sent: the swap, and
    before it the approval when the allowance was too low. *)
Theorem swap_call_counts (wp : WalletProvider) (params : SwapParams) (w : World)
    (h : list event) (resp : SwapResponse) (evs : list event) :
  SwapAction.swap wp params w h = (Ok resp, evs) ->
  exists inputTokenInfo,
    SwapAction.resolveTokenAddress wp (sp_inputToken params) (sp_chainName params)
      = Ok inputTokenInfo /\
    (isNative inputTokenInfo = true ->
     count is_send evs = 1%nat /\ count is_read evs = 3%nat) /\
    (isNative inputTokenInfo = false ->
     (count is_send evs = 1%nat \/ count is_send evs = 2%nat) /\
     count is_read evs = 4%nat).
Proof.
  intros H. apply swap_ok in H as [r Hr].
  pose proof (completed_swap_calls _ _ _ _ _ _ _ Hr)
    as (_ & _ & _ & _ & Hone & Hsend & Hread & _).
  destruct Hr as (_ & _ & Hi & _).
  exists (run_input r). split; [exact Hi | ].
  destruct (isNative (run_input r)).
  - split; [ intros _; split; assumption | discriminate ].
  - split; [ discriminate | intros _; split; assumption ].
Qed.

Lemma swap_call_counts_witness :
  let w := TestDoubles.world TestDoubles.noAllowance (Some TestDoubles.txHash) in
  match SwapAction.swap (TestDoubles.wallet manual) (TestDoubles.swapParams None) w [] with
  | (Ok resp, evs) => count is_send evs = 1%nat /\ count is_read evs = 3%nat
  | _ => False
  end.
Proof.
  cbv zeta.
  destruct (SwapAction.swap _ _ _ _) as [[resp | e] evs] eqn:H.
  - destruct (swap_call_counts _ _ _ _ _ _ H) as (info & Hi & Hn & _).
    apply Hn. vm_compute in Hi. injection Hi as <-. reflexivity.
  - vm_compute in H. discriminate H.
Defined.



(** X12.  The encryption of a completed swap.  Each transaction that it
    sent, the approval included, was encrypted when the provider is in
    automatic mode or the request asks for it, and none was otherwise.  When
    the request gives the flag, the flag that the handler reports for the
    response says whether the transactions were encrypted. *)
Theorem swap_encryption (wp : WalletProvider) (params : SwapParams) (w : World)
    (h : list event) (resp : SwapResponse) (evs : list event) :
  SwapAction.swap wp params w h = (Ok resp, evs) ->
  count is_encrypt evs =
    (if encrypts wp (sp_isBite params) then count is_send evs else 0)%nat /\
  (forall b, sp_isBite params = Some b ->
   swapAction.isBite (Wallet.getBiteConfig wp) resp = Some (encrypts wp (sp_isBite params))).
Proof.
  intros H. apply swap_ok in H as [r Hr].
  pose proof (completed_swap_calls _ _ _ _ _ _ _ Hr)
    as (_ & _ & _ & _ & _ & _ & _ & He & _).
  destruct Hr as (_ & _ & _ & _ & _ & _ & _ & _ & _ & _ & _ & _ & _ & _ & _ & _ & Hresp).
  split; [exact He | ].
  intros b Hb. unfold swapAction.isBite, Wallet.getBiteConfig, encrypts.
  rewrite Hresp. cbn [sr_isBite]. rewrite Hb. destruct (biteConfig wp), b; reflexivity.
Qed.

(** The same swap through a provider in automatic mode. *)
Lemma swap_encryption_witness :
  let w := TestDoubles.world TestDoubles.noAllowance (Some TestDoubles.txHash) in
  match SwapAction.swap (TestDoubles.wallet automatic) (TestDoubles.swapParams None) w []
  with
  | (Ok resp, evs) => count is_encrypt evs = count is_send evs
  | _ => False
  end.
Proof.
  cbv zeta.
  destruct (SwapAction.swap _ _ _ _) as [[resp | e] evs] eqn:H.
  - exact (proj1 (swap_encryption _ _ _ _ _ _ H)).
  - vm_compute in H. discriminate H.
Defined.

(** *** Failed swaps *)

Ltac guard_step :=
  lazymatch goal with
  | |- guarded _ _ (if ?c then _ else _) => destruct c
  | |- guarded _ _ (match ?x with _ => _ end) => destruct x
  | |- guarded _ _ (throw _) => apply guarded_quiet; apply at_most_throw
  | |- guarded _ _ (ret _) => apply guarded_quiet; apply at_most_ret
  | |- guarded _ _ (bind _ _) =>
      first
        [ apply guarded_bind; [ solve [quiet] | intros ? ]
        | apply guarded_throws_only; solve [errs] ]
  end.

Lemma swap_guarded_send (wp : WalletProvider) (params : SwapParams) :
  guarded is_send (fun e => negb (submission_error e)) (SwapAction.swap wp params).
Proof. unfold SwapAction.swap. repeat guard_step. Qed.

Lemma swap_guarded_encrypt (wp : WalletProvider) (params : SwapParams) :
  guarded is_encrypt (fun e => negb (submission_error e)) (SwapAction.swap wp params).
Proof. unfold SwapAction.swap. repeat guard_step. Qed.

(** X13.  A swap that fails on its parameters, on a token, on the decimals
    (a rejected read apart), on the amount or on the quote has sent and
    encrypted nothing: whenever [swap] throws an error that is not one of
    the approval, of the submission or of the wait for the receipt, no
    transaction was handed to the encryption or to the network. *)
Theorem swap_fails_before_sending (wp : WalletProvider) (params : SwapParams)
    (w : World) (h : list event) (e : error) :
  fst (SwapAction.swap wp params w h) = Throw e ->
  submission_error e = false ->
  count is_send (snd (SwapAction.swap wp params w h)) = 0%nat /\
  count is_encrypt (snd (SwapAction.swap wp params w h)) = 0%nat.
Proof.
  intros He Hs. split.
  - apply (swap_guarded_send wp params w h e He). rewrite Hs. reflexivity.
  - apply (swap_guarded_encrypt wp params w h e He). rewrite Hs. reflexivity.
Qed.

(** An amount that [parseUnits] rejects, after the two reads of the
    decimals. *)
Lemma swap_fails_before_sending_witness :
  let w := TestDoubles.world TestDoubles.noAllowance (Some TestDoubles.txHash) in
  let run :=
    SwapAction.swap (TestDoubles.wallet automatic)
      {| sp_chainName := TestDoubles.chain; sp_inputToken := "FAIR";
         sp_outputToken := "USDC"; sp_amount := "2.0"; sp_slippage := None;
         sp_isBite := Some true |} w [] in
  fst run = Throw (Rejected ExtParseUnits) /\
  count is_read (snd run) = 2%nat /\
  count is_send (snd run) = 0%nat /\ count is_encrypt (snd run) = 0%nat.
Proof.
  cbv zeta. split; [vm_compute; reflexivity | ]. split; [vm_compute; reflexivity | ].
  apply (swap_fails_before_sending _ _ _ _ (Rejected ExtParseUnits)).
  - vm_compute. reflexivity.
  - reflexivity.
Defined.

Lemma calculateAmountOut_without_router (p : event -> bool) (wp : WalletProvider)
    (amountIn : Z) (tokenIn tokenOut : string) (slippage : Num.number)
    (chainName : string) (cfg : ChainConfig) (w : World) :
  chains (configManager wp) !! chainName = Some cfg ->
  isAddress w (uniswapV2Router cfg) = false ->
  fails_quietly p w
    (SwapAction.calculateAmountOut wp amountIn tokenIn tokenOut slippage chainName).
Proof.
  intros Hc Ha h.
  assert (Hr : Wallet.getChainUniswapRouter wp chainName w h = (Throw NoUniswapRouter, [])).
  { unfold Wallet.getChainUniswapRouter, PluginConfigManager.getUniswapAddress,
      PluginConfigManager.hasUniswap.
    rewrite Hc, bind_ask, Ha. reflexivity. }
  unfold SwapAction.calculateAmountOut. rewrite (bind_run_throw _ _ _ _ _ _ Hr).
  split; reflexivity.
Qed.

Ltac fq_step Hcalc :=
  lazymatch goal with
  | |- fails_quietly _ _ (if ?c then _ else _) => destruct c
  | |- fails_quietly _ _ (throw _) => apply fails_quietly_throw
  | |- fails_quietly _ _ (bind (SwapAction.calculateAmountOut _ _ _ _ _ _) _) =>
      apply fails_quietly_first; apply Hcalc
  | |- fails_quietly _ _ (bind _ _) =>
      apply fails_quietly_bind; [ solve [quiet] | intros ? ]
  end.

(** X14.  On a chain whose configuration holds no router address (an empty
    entry, or a string that is not an address), every swap fails, whatever
    its parameters and whatever the network answers, and it fails before
    anything is encrypted or sent. *)
Theorem swap_without_router (wp : WalletProvider) (params : SwapParams) (w : World)
    (h : list event) (cfg : ChainConfig) :
  chains (configManager wp) !! sp_chainName params = Some cfg ->
  isAddress w (uniswapV2Router cfg) = false ->
  is_ok (fst (SwapAction.swap wp params w h)) = false /\
  count is_send (snd (SwapAction.swap wp params w h)) = 0%nat /\
  count is_encrypt (snd (SwapAction.swap wp params w h)) = 0%nat.
Proof.
  intros Hc Ha.
  assert (Hs : fails_quietly is_send w (SwapAction.swap wp params)).
  { unfold SwapAction.swap.
    repeat fq_step (fun a b c d => calculateAmountOut_without_router is_send wp a b c d
                                     (sp_chainName params) cfg w Hc Ha). }
  assert (He : fails_quietly is_encrypt w (SwapAction.swap wp params)).
  { unfold SwapAction.swap.
    repeat fq_step (fun a b c d => calculateAmountOut_without_router is_encrypt wp a b c d
                                     (sp_chainName params) cfg w Hc Ha). }
  destruct (Hs h) as [H1 H2]. destruct (He h) as [_ H3]. auto.
Qed.

(** A chain of the caller, registered without a router. *)
Lemma swap_without_router_witness :
  let w := TestDoubles.world TestDoubles.noAllowance (Some TestDoubles.txHash) in
  let run :=
    SwapAction.swap (TestDoubles.walletOn "side" TestDoubles.routerless)
      {| sp_chainName := "side"; sp_inputToken := "FAIR"; sp_outputToken := "USDC";
         sp_amount := "1.0"; sp_slippage := None; sp_isBite := Some false |} w [] in
  is_ok (fst run) = false /\
  count is_send (snd run) = 0%nat /\ count is_encrypt (snd run) = 0%nat.
Proof.
  cbv zeta.
  apply (swap_without_router _ _ _ _ TestDoubles.routerless).
  - vm_compute. reflexivity.
  - reflexivity.
Defined.

Ltac twice_step lem :=
  lazymatch goal with
  | |- at_most _ _ (if ?c then _ else _) => destruct c
  | |- at_most _ _ (match ?x with _ => _ end) => destruct x
  | |- at_most _ ?n (throw _) => apply (at_most_weaken _ 0); [apply at_most_throw | lia]
  | |- at_most _ ?n (ret _) => apply (at_most_weaken _ 0); [apply at_most_ret | lia]
  | |- at_most _ ?n (Wallet.sendTransaction _ _ _ _) =>
      apply (at_most_weaken _ 1); [apply lem | lia]
  | |- at_most _ 2 (bind _ _) =>
      first
        [ apply (at_most_bind _ 0 2); [ solve [quiet] | intros ? ]
        | apply (at_most_bind _ 2 0); [ | intros ?; solve [quiet] ]
        | apply (at_most_bind _ 1 1); [ | intros ? ] ]
  | |- at_most _ 1 (bind _ _) =>
      first
        [ apply (at_most_bind _ 0 1); [ solve [quiet] | intros ? ]
        | apply (at_most_bind _ 1 0); [ | intros ?; solve [quiet] ] ]
  end.

Ltac unfold_swaps :=
  unfold SwapAction.swap, SwapAction.swapETHForTokens, SwapAction.swapTokensForETH,
    SwapAction.swapTokensForTokens, SwapAction.approveToken.

(** X15.  Whatever the request, the network and the outcome, one call of
    [swap] sends at most two transactions and encrypts at most two. *)
Theorem swap_sends_at_most_twice (wp : WalletProvider) (params : SwapParams) :
  at_most is_send 2 (SwapAction.swap wp params) /\
  at_most is_encrypt 2 (SwapAction.swap wp params).
Proof.
  split; unfold_swaps.
  - repeat twice_step sendTransaction_at_most_send.
  - repeat twice_step sendTransaction_at_most_encrypt.
Qed.


(* ===================================================================== *)
(** ** Transfers ([TransferAction]) *)
(* ===================================================================== *)

Lemma transfer_validate_ok (wp : WalletProvider) (params : TransferParams) (w : World)
    (h : list event) (params' : NormalizedTransferParams) (evs : list event) :
  TransferAction.validateAndNormalizeParams wp params w h = (Ok params', evs) ->
  evs = [] /\
  exists s, tp_toAddress params = Some s /\ Js.truthy s = true /\
    params' = {| ntp_chainName := tp_chainName params;
                 ntp_token := tp_token params;
                 ntp_amount := tp_amount params;
                 ntp_toAddress := Pending (Wallet.formatAddress wp (Some s));
                 ntp_data := normalizedData (tp_data params);
                 ntp_isBite := tp_isBite params |}.
Proof.
  unfold TransferAction.validateAndNormalizeParams.
  destruct (tp_toAddress params) as [s | ] eqn:Hs; cbn [Js.truthy_opt negb];
    [ | discriminate ].
  destruct (Js.truthy s) eqn:Ht; cbn [negb]; [ | discriminate ].
  intros H. apply bind_ok_inv in H as ([] & e1 & e2 & Ha & H & ->).
  assert (e1 = []) as ->.
  { destruct (tp_amount params) as [a | ].
    - revert Ha. unfold bind, ask, ret, throw.
      repeat break_inner; intros [= <-] || intros [=]; reflexivity.
    - unfold ret in Ha. injection Ha as <-. reflexivity. }
  unfold ret in H. injection H as <- <-. split; [reflexivity | ].
  exists s. auto.
Qed.

Lemma parseAmount_ok (amount : option string) (decimals : Z) (w : World)
    (h : list event) (v : Z) (evs : list event) :
  TransferAction.parseAmount amount decimals w h = (Ok v, evs) ->
  evs = [] /\ exists a, amount = Some a /\ parseUnits w a decimals = Some v.
Proof.
  unfold TransferAction.parseAmount, ask_opt.
  destruct amount as [a | ]; cbn [mbind option_bind]; [ | discriminate ].
  destruct (parseUnits w a decimals) eqn:Hp; [ | discriminate ].
  intros [= <- <-]. eauto.
Qed.

(** Every completed transfer went through the steps of
    [completed_transfer]. *)
Lemma transfer_ok (wp : WalletProvider) (params : TransferParams) (w : World)
    (h : list event) (resp : TransferResponse) (evs : list event) :
  TransferAction.transfer wp params w h = (Ok resp, evs) ->
  exists r, completed_transfer wp params w h resp evs r.
Proof.
  unfold TransferAction.transfer. intros H.
  apply bind_ok_inv in H as (sup & e1 & e2 & Hsup & H & ->).
  pose proof (lift_events _ _ _ _ _ Hsup) as ->. unfold lift in Hsup.
  injection Hsup as Hsup. cbn [app] in H |- *. rewrite app_nil_r in H.
  destruct sup; cbn [negb] in H; [ | discriminate ].
  apply isChainSupported_true in Hsup as [cfg Hc].
  apply bind_ok_inv in H as (nat & e3 & e4 & Hnat & H & ->).
  pose proof (lift_events _ _ _ _ _ Hnat) as ->.
  unfold Wallet.getChainNativetToken, PluginConfigManager.getChainNativeToken,
    PluginConfigManager.getChainConfig, lift in Hnat.
  rewrite Hc in Hnat. cbn [rbind] in Hnat. injection Hnat as <-.
  cbn [app] in H |- *. rewrite app_nil_r in H.
  apply bind_ok_inv in H as (params' & e5 & e6 & Hval & H & ->).
  apply transfer_validate_ok in Hval as (-> & s & Hs & Ht & ->).
  cbn [app ntp_chainName ntp_token ntp_amount ntp_toAddress ntp_data ntp_isBite] in H |- *.
  rewrite app_nil_r in H.
  rewrite (getCurrentChain_registered _ _ _ Hc), bind_lift_ok in H.
  cbn [nativeCurrency_symbol chain_id] in H.
  fold (normalizedToken (nativeToken cfg) (tp_token params)) in H.
  pose proof (transfer_token_cases (nativeToken cfg) (tp_token params)) as Htok.
  cbv zeta in Htok. fold (normalizedToken (nativeToken cfg) (tp_token params)) in Htok.
  set (token := normalizedToken (nativeToken cfg) (tp_token params)) in *.
  destruct (String.eqb token (nativeToken cfg)) eqn:Ee.
  - (* native, by the first test *)
    try rewrite Ee in H. rewrite !orb_true_r in H.
    apply bind_ok_inv in H as (v & e7 & e8 & Hv & H & ->).
    apply parseAmount_ok in Hv as (-> & a & Ha & Hv). rewrite Ha in H.
    cbn [app TransferAction.amountString] in H |- *. rewrite app_nil_r, bind_lift_ok in H.
    apply bind_ok_inv in H as (hash & e9 & e10 & Hsend & H & ->).
    unfold ret in H. injection H as <- <-. rewrite app_nil_r.
    apply sendTransaction_ok in Hsend.
    exists {| trun_cfg := cfg; trun_toAddress := s; trun_amount := a; trun_value := v;
              trun_tokenAddress := ""; trun_decimals := 18; trun_submission := e9 |}.
    unfold completed_transfer, trun_token, trun_recipient, native_tx.
    cbn [trun_cfg trun_toAddress trun_amount trun_value trun_submission tr_txHash].
    fold token. rewrite Ee. auto 10.
  - destruct Htok as [Htok | [Htt Htn]].
    { rewrite Htok, String.eqb_refl in Ee. discriminate Ee. }
    try rewrite Ee in H. rewrite Htt, Htn in H. cbn [negb orb] in H.
    apply bind_ok_inv in H as (tokenAddress & e7 & e8 & Hta & H & ->).
    pose proof (lift_events _ _ _ _ _ Hta) as ->. unfold lift in Hta. injection Hta as Hta.
    pose proof (getChainToken_cases wp (tp_chainName params) token) as Hcase.
    rewrite Hta in Hcase. destruct Hcase as (_ & cfg' & Hc' & Hlookup).
    rewrite Hc in Hc'. injection Hc' as <-.
    cbn [app] in H |- *. rewrite app_nil_r in H.
    apply bind_ok_inv in H as (d & e9 & e10 & Hd & H & ->).
    apply readContract_ok in Hd as [-> Hd].
    apply bind_ok_inv in H as (v & e11 & e12 & Hv & H & ->).
    apply parseAmount_ok in Hv as (-> & a & Ha & Hv). rewrite Ha in H.
    cbn [app TransferAction.amountString] in H |- *. rewrite app_nil_r, bind_lift_ok in H.
    apply bind_ok_inv in H as (data & e13 & e14 & Henc & H & ->).
    apply encode_ok in Henc as [-> ->]. cbn [app] in H |- *. rewrite app_nil_r in H.
    apply bind_ok_inv in H as (hash & e15 & e16 & Hsend & H & ->).
    apply sendTransaction_ok in Hsend.
    destruct (negb (Js.truthy_opt hash) || bool_decide (hash = Some "0x")) eqn:Eh;
      [discriminate | ].
    apply orb_false_iff in Eh as [Eh1 Eh2]. apply negb_false_iff in Eh1.
    apply bool_decide_eq_false in Eh2.
    apply bind_ok_inv in H as ([] & e17 & e18 & Hw & H & ->).
    apply waitForReceipt_ok in Hw as ->. unfold ret in H. injection H as <- <-.
    rewrite app_nil_r.
    exists {| trun_cfg := cfg; trun_toAddress := s; trun_amount := a; trun_value := v;
              trun_tokenAddress := tokenAddress; trun_decimals := d;
              trun_submission := e15 |}.
    unfold completed_transfer, trun_token, trun_recipient, erc20_tx.
    cbn [trun_cfg trun_toAddress trun_amount trun_value trun_tokenAddress trun_decimals
         trun_submission tr_txHash].
    fold token. rewrite Ee. auto 15.
Qed.

(** X17.  The validation of a transfer comes before the network.  On a
    registered chain, a transfer without a recipient, with an amount that
    reads as zero, or with one that reads as negative fails with
    'To address is required', 'Amount must be greater than 0' or
    'Amount cannot be negative', in this order of precedence, and has made
    no external call. *)
Theorem transfer_validation_before_network (wp : WalletProvider)
    (params : TransferParams) (w : World) (h : list event) (cfg : ChainConfig) :
  chains (configManager wp) !! tp_chainName params = Some cfg ->
  tp_chainName params <> "" ->
  (Js.truthy_opt (tp_toAddress params) = false ->
   TransferAction.transfer wp params w h = (Throw MissingRecipient, [])) /\
  (forall amount,
     Js.truthy_opt (tp_toAddress params) = true -> tp_amount params = Some amount ->
     (SFeqb (parseFloat w amount) Num.zero = true ->
      TransferAction.transfer wp params w h = (Throw ZeroAmount, [])) /\
     (SFeqb (parseFloat w amount) Num.zero = false ->
      Num.lt (parseFloat w amount) Num.zero = true ->
      TransferAction.transfer wp params w h = (Throw NegativeAmount, []))).
Proof.
  intros Hc Hn.
  assert (Hstart : forall e,
            TransferAction.validateAndNormalizeParams wp params w h = (Throw e, []) ->
            TransferAction.transfer wp params w h = (Throw e, [])).
  { intros e Hv. unfold TransferAction.transfer.
    rewrite (isChainSupported_registered _ _ _ Hc Hn), bind_lift_ok. cbn [negb].
    unfold Wallet.getChainNativetToken, PluginConfigManager.getChainNativeToken,
      PluginConfigManager.getChainConfig.
    rewrite Hc. cbn [rbind]. rewrite bind_lift_ok.
    apply bind_run_throw. exact Hv. }
  split.
  - intros Hto. apply Hstart. apply transfer_validate_missing. exact Hto.
  - intros amount Hto Ha. split.
    + intros Hz. apply Hstart. unfold TransferAction.validateAndNormalizeParams.
      rewrite Hto, Ha. cbn [negb]. unfold bind, ask, throw. rewrite Hz. reflexivity.
    + intros Hz Hneg. apply Hstart. unfold TransferAction.validateAndNormalizeParams.
      rewrite Hto, Ha. cbn [negb]. unfold bind, ask, throw. rewrite Hz, Hneg. reflexivity.
Qed.

(** A transfer of 0 FAIR, and one of -1.0 FAIR. *)
Lemma transfer_validation_before_network_witness :
  let w := TestDoubles.world TestDoubles.noAllowance (Some TestDoubles.txHash) in
  let request (amount : string) :=
    {| tp_chainName := TestDoubles.chain; tp_token := Some "FAIR";
       tp_amount := Some amount; tp_toAddress := Some TestDoubles.recipient;
       tp_data := None; tp_isBite := Some false |} in
  TransferAction.transfer (TestDoubles.wallet manual) (request "0") w []
    = (Throw ZeroAmount, []) /\
  TransferAction.transfer (TestDoubles.wallet manual) (request "-1.0") w []
    = (Throw NegativeAmount, []).
Proof.
  cbv zeta. split.
  - destruct (transfer_validation_before_network (TestDoubles.wallet manual)
                {| tp_chainName := TestDoubles.chain; tp_token := Some "FAIR";
                   tp_amount := Some "0"; tp_toAddress := Some TestDoubles.recipient;
                   tp_data := None; tp_isBite := Some false |}
                (TestDoubles.world TestDoubles.noAllowance (Some TestDoubles.txHash)) []
                DEFAULT_CHAIN_CONFIG) as [_ Hamount].
    + vm_compute. reflexivity.
    + discriminate.
    + apply (Hamount "0"); reflexivity.
  - destruct (transfer_validation_before_network (TestDoubles.wallet manual)
                {| tp_chainName := TestDoubles.chain; tp_token := Some "FAIR";
                   tp_amount := Some "-1.0"; tp_toAddress := Some TestDoubles.recipient;
                   tp_data := None; tp_isBite := Some false |}
                (TestDoubles.world TestDoubles.noAllowance (Some TestDoubles.txHash)) []
                DEFAULT_CHAIN_CONFIG) as [_ Hamount].
    + vm_compute. reflexivity.
    + discriminate.
    + apply (Hamount "-1.0"); reflexivity.
Defined.



(** X19.  A completed transfer has sent exactly one transaction, the native
    one or the ERC-20 one, and that transaction was encrypted exactly when
    the provider is in automatic mode or the request asks for it. *)
Theorem transfer_encryption (wp : WalletProvider) (params : TransferParams)
    (w : World) (h : list event) (resp : TransferResponse) (evs : list event) :
  TransferAction.transfer wp params w h = (Ok resp, evs) ->
  count is_send evs = 1%nat /\
  count is_encrypt evs = (if encrypts wp (tp_isBite params) then 1 else 0)%nat.
Proof.
  intros H. apply transfer_ok in H as [r Hr].
  destruct Hr as (_ & _ & _ & _ & _ & Hcase).
  destruct (String.eqb _ _).
  - destruct Hcase as (_ & Hs & ->).
    apply submitted_calls in Hs as (Hs & _ & _ & He & _). auto.
  - destruct Hcase as (_ & _ & _ & Hs & _ & _ & ->).
    apply submitted_calls in Hs as (Hs & _ & _ & He & _).
    cbn [count is_send is_encrypt]. rewrite !count_app, Hs, He.
    cbn [count is_send is_encrypt]. split; [reflexivity | ].
    destruct (encrypts _ _); reflexivity.
Qed.

(** The transfer of 1 FAIR through a provider in automatic mode. *)
Lemma transfer_encryption_witness :
  let w := TestDoubles.world TestDoubles.noAllowance (Some TestDoubles.txHash) in
  match TransferAction.transfer (TestDoubles.wallet automatic)
          (TestDoubles.transferParams "FAIR" TestDoubles.recipient) w [] with
  | (Ok resp, evs) => count is_send evs = 1%nat /\ count is_encrypt evs = 1%nat
  | _ => False
  end.
Proof.
  cbv zeta.
  destruct (TransferAction.transfer _ _ _ _) as [[resp | e] evs] eqn:H.
  - exact (transfer_encryption _ _ _ _ _ _ H).
  - vm_compute in H. discriminate H.
Defined.

Ltac once_step lem :=
  lazymatch goal with
  | |- at_most _ 1 (if ?c then _ else _) => destruct c
  | |- at_most _ 1 (match ?x with _ => _ end) => destruct x
  | |- at_most _ 1 (throw _) => apply (at_most_weaken _ 0); [apply at_most_throw | lia]
  | |- at_most _ 1 (ret _) => apply (at_most_weaken _ 0); [apply at_most_ret | lia]
  | |- at_most _ 1 (Wallet.sendTransaction _ _ _ _) => apply lem
  | |- at_most _ 1 (bind _ _) =>
      first
        [ apply (at_most_bind _ 0 1); [ solve [quiet] | intros ? ]
        | apply (at_most_bind _ 1 0); [ | intros ?; solve [quiet] ] ]
  end.

(** X20.  Whatever the request, the network and the outcome, one call of
    [transfer] sends at most one transaction and encrypts at most one. *)
Theorem transfer_sends_at_most_once (wp : WalletProvider) (params : TransferParams) :
  at_most is_send 1 (TransferAction.transfer wp params) /\
  at_most is_encrypt 1 (TransferAction.transfer wp params).
Proof.
  split; unfold TransferAction.transfer.
  - repeat once_step sendTransaction_at_most_send.
  - repeat once_step sendTransaction_at_most_encrypt.
Qed.


(* ===================================================================== *)
(** ** Balances ([GetBalanceAction]) *)
(* ===================================================================== *)

(** The address that a balance is asked for is the wallet's own or the one
    of the request, and then it starts with ["0x"]. *)
Lemma normalizedAddress_own_or_given (wp : WalletProvider) (params : GetBalanceParams) :
  GetBalanceAction.normalizedAddress wp params = Wallet.getAddress wp \/
  (gb_address params = Some (GetBalanceAction.normalizedAddress wp params) /\
   Js.startsWith (GetBalanceAction.normalizedAddress wp params) "0x" = true).
Proof.
  unfold GetBalanceAction.normalizedAddress.
  destruct (gb_address params) as [a | ]; [ | left; reflexivity ].
  destruct (negb (Js.truthy a)); [left; reflexivity | ].
  destruct (_ || _); [left; reflexivity | ].
  destruct (Js.startsWith a "0x") eqn:Ep; cbn [andb].
  - destruct (String.length a =? 42)%nat; [right; auto | ].
    destruct (Wallet.getChainConfig _ _) as [cfg | e]; [ | left; reflexivity ].
    destruct (GetBalanceAction.isCommonToken _ _); [left; reflexivity | right; auto ].
  - destruct (Wallet.getChainConfig _ _) as [cfg | e]; [ | left; reflexivity ].
    destruct (GetBalanceAction.isCommonToken _ _); left; reflexivity.
Qed.

(** X22.  The address of a balance request, once normalized, is either the
    wallet's own address or the address of the request, and the latter only
    when it starts with ["0x"].  An address of 42 characters with that
    prefix is kept; an address without the prefix is replaced by the
    wallet's own; so is, on a registered chain, an address of another length
    whose upper case is a token symbol of the chain or its native symbol; and
    on a chain that is not registered every address that is not of 42
    characters with the prefix is replaced. *)
Theorem normalizedAddress_cases (wp : WalletProvider) (params : GetBalanceParams) :
  let address := GetBalanceAction.normalizedAddress wp params in
  (address = Wallet.getAddress wp \/
   (gb_address params = Some address /\ Js.startsWith address "0x" = true)) /\
  (forall a, gb_address params = Some a -> Js.startsWith a "0x" = true ->
   String.length a = 42%nat -> address = a) /\
  (forall a, gb_address params = Some a -> Js.startsWith a "0x" = false ->
   address = Wallet.getAddress wp) /\
  (forall a cfg, gb_address params = Some a ->
   chains (configManager wp) !! GetBalanceAction.normalizedChainName params = Some cfg ->
   GetBalanceAction.isCommonToken cfg (Js.toUpperCase a) = true ->
   String.length a <> 42%nat ->
   address = Wallet.getAddress wp) /\
  (forall a, gb_address params = Some a ->
   chains (configManager wp) !! GetBalanceAction.normalizedChainName params = None ->
   String.length a <> 42%nat ->
   address = Wallet.getAddress wp).
Proof.
  cbv zeta. split; [apply normalizedAddress_own_or_given | ].
  unfold GetBalanceAction.normalizedAddress.
  split; [ | split; [ | split ] ].
  - intros a -> Hp Hl. destruct (prefix_0x a Hp) as [rest ->].
    rewrite Hp. apply Nat.eqb_eq in Hl. rewrite Hl. cbn [andb].
    destruct rest as [ | c rest ]; [discriminate Hl | ].
    assert (Hnn : String.eqb (String "0" (String "x" (String c rest))) "null" = false)
      by reflexivity.
    assert (Hnu : String.eqb (String "0" (String "x" (String c rest))) "undefined" = false)
      by reflexivity.
    rewrite Hnn, Hnu. reflexivity.
  - intros a -> Hp. rewrite Hp. cbn [andb].
    destruct (negb (Js.truthy a)); [reflexivity | ].
    destruct (_ || _); [reflexivity | ].
    destruct (Wallet.getChainConfig _ _) as [cfg | e]; [ | reflexivity ].
    destruct (GetBalanceAction.isCommonToken _ _); reflexivity.
  - intros a cfg -> Hc Ht Hl. apply Nat.eqb_neq in Hl. rewrite Hl, andb_false_r.
    unfold Wallet.getChainConfig, PluginConfigManager.getChainConfig. rewrite Hc, Ht.
    destruct (negb (Js.truthy a)); [reflexivity | ].
    destruct (_ || _); reflexivity.
  - intros a -> Hc Hl. apply Nat.eqb_neq in Hl. rewrite Hl, andb_false_r.
    unfold Wallet.getChainConfig, PluginConfigManager.getChainConfig. rewrite Hc.
    cbn [rbind].
    destruct (negb (Js.truthy a)); [reflexivity | ].
    destruct (_ || _); reflexivity.
Qed.

(** X23.  The balance of an ERC-20 token.  On a registered chain, for a
    token that is not the native symbol in upper case and that is given by
    its address (a string that starts with ["0x"]) or by a symbol of the
    token table of the chain, [getBalance] reads [balanceOf] of the
    normalized address and then the decimals on the token contract, nothing
    else, and answers with the balance formatted with these decimals, under
    the token as the request names it. *)
Theorem getBalance_erc20 (wp : WalletProvider) (params : GetBalanceParams) (w : World)
    (h : list event) (cfg : ChainConfig) (tokenAddress : string) (balance decimals : Z) :
  let chainName := GetBalanceAction.normalizedChainName params in
  let address := GetBalanceAction.normalizedAddress wp params in
  let token := gb_token params in
  chains (configManager wp) !! chainName = Some cfg ->
  Js.truthy address = true ->
  Js.truthy token = true ->
  Js.toUpperCase token <> nativeToken cfg ->
  (if Js.startsWith token "0x" then tokenAddress = token
   else tokens cfg !! token = Some tokenAddress /\ Js.truthy tokenAddress = true) ->
  read_balanceOf w h chainName tokenAddress address = Some balance ->
  read_decimals w (h ++ [EvReadContract chainName tokenAddress (BalanceOf address)])
    chainName tokenAddress = Some decimals ->
  GetBalanceAction.getBalance wp params w h =
    (Ok {| gbr_chainName := chainName;
           gbr_address := address;
           gbr_balance :=
             Some {| bal_token := token;
                     bal_amount := formatUnits w balance decimals |} |},
     [EvReadContract chainName tokenAddress (BalanceOf address);
      EvReadContract chainName tokenAddress Decimals]).
Proof.
  intros chainName address token Hc Ha Ht Hne Htok Hb Hd.
  unfold GetBalanceAction.getBalance.
  cbn [GetBalanceAction.validateAndNormalizeParams gb_chainName gb_address gb_token].
  fold chainName. fold address. fold token. rewrite Ha. cbn [negb].
  rewrite (getCurrentChain_registered _ _ _ Hc), bind_lift_ok.
  rewrite Ht. cbn [negb].
  unfold Wallet.getChainNativetToken, PluginConfigManager.getChainNativeToken,
    PluginConfigManager.getChainConfig.
  rewrite Hc. cbn [rbind].
  assert (Hq : forall (f : string -> bool) (native : string)
                 (k : bool -> M GetBalanceResponse),
             bind (bind (lift (Ok native)) (fun n => ret (f n))) k w h = k (f native) w h).
  { intros f native k. unfold bind, lift, ret. cbn [app]. rewrite app_nil_r.
    destruct (k (f native) w h); reflexivity. }
  rewrite Hq. clear Hq.
  apply String.eqb_neq in Hne. rewrite Hne. cbn [negb].
  assert (Herc : GetBalanceAction.getERC20TokenBalance wp chainName address tokenAddress w h
                 = (Ok (formatUnits w balance decimals),
                    [EvReadContract chainName tokenAddress (BalanceOf address);
                     EvReadContract chainName tokenAddress Decimals])).
  { unfold GetBalanceAction.getERC20TokenBalance, Wallet.read_BalanceOf,
      Wallet.read_Decimals.
    rewrite (bind_run_ok _ _ _ _ _ _
               (readContract_run wp chainName tokenAddress (BalanceOf address) _ cfg w h
                  balance Hc Hb)).
    cbn [fst snd].
    rewrite (bind_run_ok _ _ _ _ _ _
               (readContract_run wp chainName tokenAddress Decimals _ cfg w _
                  decimals Hc Hd)).
    reflexivity. }
  destruct (Js.startsWith token "0x").
  - subst tokenAddress. rewrite (bind_run_ok _ _ _ _ _ _ Herc). reflexivity.
  - destruct Htok as [Hl Htt].
    match goal with
    | |- bind ?m _ w h = _ =>
        assert (Hin : m w h =
                  (Ok (formatUnits w balance decimals),
                   [EvReadContract chainName tokenAddress (BalanceOf address);
                    EvReadContract chainName tokenAddress Decimals]))
    end.
    { unfold Wallet.getChainToken, PluginConfigManager.getTokenAddress.
      rewrite Hc, Hl, Htt. rewrite bind_lift_ok, Htt. cbn [negb]. exact Herc. }
    rewrite (bind_run_ok _ _ _ _ _ _ Hin). reflexivity.
Qed.

(** The USDC balance of another account, in the world of the test-suite. *)
Lemma getBalance_erc20_witness :
  let w := TestDoubles.world TestDoubles.noAllowance (Some TestDoubles.txHash) in
  GetBalanceAction.getBalance (TestDoubles.wallet manual)
    (TestDoubles.balanceParams TestDoubles.otherAddress "USDC") w [] =
    (Ok {| gbr_chainName := TestDoubles.chain;
           gbr_address := TestDoubles.otherAddress;
           gbr_balance := Some {| bal_token := "USDC"; bal_amount := "0" |} |},
     [EvReadContract TestDoubles.chain TestDoubles.USDC
        (BalanceOf TestDoubles.otherAddress);
      EvReadContract TestDoubles.chain TestDoubles.USDC Decimals]).
Proof.
  cbv zeta.
  apply (getBalance_erc20 (TestDoubles.wallet manual)
           (TestDoubles.balanceParams TestDoubles.otherAddress "USDC")
           (TestDoubles.world TestDoubles.noAllowance (Some TestDoubles.txHash)) []
           DEFAULT_CHAIN_CONFIG TestDoubles.USDC 0 18).
  - vm_compute. reflexivity.
  - reflexivity.
  - reflexivity.
  - discriminate.
  - split; [vm_compute; reflexivity | reflexivity].
  - reflexivity.
  - reflexivity.
Defined.

(** X24.  A balance request only reads: whatever the request, the network
    and the outcome, [getBalance] sends no transaction, encrypts nothing,
    waits for no receipt, and makes at most two reads. *)
Theorem getBalance_read_only (wp : WalletProvider) (params : GetBalanceParams) :
  at_most is_send 0 (GetBalanceAction.getBalance wp params) /\
  at_most is_encrypt 0 (GetBalanceAction.getBalance wp params) /\
  at_most is_wait 0 (GetBalanceAction.getBalance wp params) /\
  at_most is_read 2 (GetBalanceAction.getBalance wp params).
Proof.
  repeat split; intros w h;
    unfold GetBalanceAction.getBalance, GetBalanceAction.getERC20TokenBalance,
      Wallet.getBalance, Wallet.read_BalanceOf, Wallet.read_Decimals,
      Wallet.readContract, Wallet.getClient;
    unfold_prog; repeat break_inner; cbn; lia.
Qed.


(* ===================================================================== *)
(** ** The handlers ([swapAction], [transferAction]) *)
(* ===================================================================== *)

Lemma prefix_app (p q s : string) :
  String.prefix (p +:+ q) s = true -> String.prefix p s = true.
Proof.
  revert s. induction p as [ | c p IH ]; intros s; [destruct s; reflexivity | ].
  change (String c p +:+ q) with (String c (p +:+ q)).
  destruct s as [ | d s ]; cbn [String.prefix]; [discriminate | ].
  destruct (ascii_dec c d); [apply IH | discriminate].
Qed.

Lemma includes_str_app (s p q : string) :
  Js.includes_str s (p +:+ q) = true -> Js.includes_str s p = true.
Proof.
  induction s as [ | c s IH ]; cbn [Js.includes_str].
  - rewrite !orb_false_r. apply prefix_app.
  - intros H. apply orb_true_iff in H as [H | H].
    + rewrite (prefix_app _ _ _ H). reflexivity.
    + rewrite (IH H). apply orb_true_r.
Qed.

Lemma includes_str_middle (before word after : string) :
  Js.includes_str (before +:+ word +:+ after) word = true.
Proof.
  induction before as [ | c before IH ].
  - change ("" +:+ word +:+ after) with (word +:+ after).
    assert (Hp : String.prefix word (word +:+ after) = true).
    { induction word as [ | d word IHw ]; [destruct after; reflexivity | ].
      change (String d word +:+ after) with (String d (word +:+ after)).
      cbn [String.prefix]. destruct (ascii_dec d d); [exact IHw | contradiction]. }
    destruct (word +:+ after); cbn [Js.includes_str]; rewrite Hp; reflexivity.
  - change (String c before +:+ word +:+ after)
      with (String c (before +:+ word +:+ after)).
    cbn [Js.includes_str]. rewrite IH. apply orb_true_r.
Qed.

Lemma bite_words (l : string) :
  Js.includes_str l "bite enable" || Js.includes_str l "bite encrypt" ||
  Js.includes_str l "encrypt" || Js.includes_str l "encrypted" ||
  Js.includes_str l "bite true" || Js.includes_str l "mev protect" ||
  Js.includes_str l "mev protection" || Js.includes_str l "bite" =
  Js.includes_str l "bite" || Js.includes_str l "encrypt" ||
  Js.includes_str l "mev protect".
Proof.
  pose proof (includes_str_app l "bite" " enable") as H1.
  pose proof (includes_str_app l "bite" " encrypt") as H2.
  pose proof (includes_str_app l "encrypt" "ed") as H3.
  pose proof (includes_str_app l "bite" " true") as H4.
  pose proof (includes_str_app l "mev protect" "ion") as H5.
  change ("bite" +:+ " enable") with "bite enable" in H1.
  change ("bite" +:+ " encrypt") with "bite encrypt" in H2.
  change ("encrypt" +:+ "ed") with "encrypted" in H3.
  change ("bite" +:+ " true") with "bite true" in H4.
  change ("mev protect" +:+ "ion") with "mev protection" in H5.
  destruct (Js.includes_str l "bite enable"), (Js.includes_str l "bite encrypt"),
    (Js.includes_str l "encrypted"), (Js.includes_str l "bite true"),
    (Js.includes_str l "mev protection"), (Js.includes_str l "bite"),
    (Js.includes_str l "encrypt"), (Js.includes_str l "mev protect");
    try reflexivity;
    first [ discriminate (H1 eq_refl) | discriminate (H2 eq_refl)
          | discriminate (H3 eq_refl) | discriminate (H4 eq_refl)
          | discriminate (H5 eq_refl) ].
Qed.

(** X26.  The words that turn the encryption on.  Of the eight phrases that
    the handlers search the prompt for, five are redundant: the flag is set
    exactly when the prompt in lower case contains ["bite"], ["encrypt"] or
    ["mev protect"], anywhere, also inside another word.  The handler of the
    swap and the one of the transfer decide alike. *)
Theorem containsBiteParam_words (promptLower : string) :
  swapAction.containsBiteParam promptLower =
    Js.includes_str promptLower "bite" || Js.includes_str promptLower "encrypt" ||
    Js.includes_str promptLower "mev protect" /\
  transferAction.containsBiteParam promptLower =
    swapAction.containsBiteParam promptLower /\
  (forall before after word,
     word = "bite" \/ word = "encrypt" \/ word = "mev protect" ->
     swapAction.containsBiteParam (before +:+ word +:+ after) = true).
Proof.
  split; [apply bite_words | ]. split; [reflexivity | ].
  intros before after word Hw.
  change (swapAction.containsBiteParam ?l) with
    (Js.includes_str l "bite enable" || Js.includes_str l "bite encrypt" ||
     Js.includes_str l "encrypt" || Js.includes_str l "encrypted" ||
     Js.includes_str l "bite true" || Js.includes_str l "mev protect" ||
     Js.includes_str l "mev protection" || Js.includes_str l "bite").
  rewrite bite_words.
  pose proof (includes_str_middle before word after) as Hin.
  destruct Hw as [-> | [-> | ->]]; rewrite Hin; rewrite ?orb_true_r; reflexivity.
Qed.

Lemma lower_ascii_idem (c : ascii) : Js.lower_ascii (Js.lower_ascii c) = Js.lower_ascii c.
Proof.
  destruct c as [[ | ] [ | ] [ | ] [ | ] [ | ] [ | ] [ | ] [ | ]]; vm_compute; reflexivity.
Qed.

Lemma toLowerCase_idem (s : string) : Js.toLowerCase (Js.toLowerCase s) = Js.toLowerCase s.
Proof.
  induction s as [ | c s IH ]; [reflexivity | ].
  cbn [Js.toLowerCase]. rewrite lower_ascii_idem, IH. reflexivity.
Qed.


Lemma handler_chain_name (c : string) :
  let name := if Js.truthy (Js.toLowerCase c) then Js.toLowerCase c else "fair-testnet" in
  name <> "" /\ Js.toLowerCase name = name.
Proof.
  cbv zeta. destruct (Js.truthy (Js.toLowerCase c)) eqn:Et.
  - split; [ | apply toLowerCase_idem ].
    intros He. rewrite He in Et. discriminate Et.
  - split; [discriminate | reflexivity].
Qed.




Lemma toUpperCase_truthy (s : string) : Js.truthy (Js.toUpperCase s) = Js.truthy s.
Proof. destruct s; reflexivity. Qed.

(** X28.  The parameters that the handler of the transfer builds.  The
    chain is never empty and is in lower case.  The token is never missing
    nor empty: it is the symbol captured in the prompt, in upper case, when
    there is one, whatever the content says; the mention of the native token
    in the prompt changes nothing.  The data are either absent or a string
    that starts with ["0x"] and is not ["0x"], so that the action leaves
    them as they are.  The recipient is the one of the content and the
    encryption flag the one that the words of the prompt give. *)
Theorem transfer_handler_params (content : transferAction.TransferContent)
    (captures : option (string * string * string)) (promptLower : string) :
  let params := transferAction.paramOptions content captures promptLower in
  (tp_chainName params <> "" /\
   Js.toLowerCase (tp_chainName params) = tp_chainName params) /\
  (exists t, tp_token params = Some t /\ Js.truthy t = true) /\
  (forall amount symbol toAddress,
     captures = Some (amount, symbol, toAddress) -> symbol <> "" ->
     tp_token params = Some (Js.toUpperCase symbol)) /\
  (forall promptLower',
     transferAction.token content captures promptLower' =
       transferAction.token content captures promptLower) /\
  (forall d, tp_data params = Some d -> Js.startsWith d "0x" = true /\ d <> "0x") /\
  normalizedData (tp_data params) = tp_data params /\
  tp_toAddress params = Some (transferAction.tc_toAddress content) /\
  tp_isBite params = Some (transferAction.containsBiteParam promptLower).
Proof.
  cbv zeta. unfold transferAction.paramOptions.
  cbn [tp_chainName tp_token tp_data tp_toAddress tp_isBite].
  split; [apply handler_chain_name | ].
  assert (Htok : forall l, Js.truthy (transferAction.token content captures l) = true).
  { intros l. unfold transferAction.token.
    match goal with
    | |- Js.truthy (if negb (Js.truthy ?t) then _ else _) = true =>
        destruct (Js.truthy t) eqn:Et; cbn [negb]; [exact Et | reflexivity]
    end. }
  split; [eauto | ]. split.
  { intros amount symbol toAddress -> Hs. unfold transferAction.token.
    cbn [transferAction.directTokenMatch Js.truthy_opt default].
    rewrite toUpperCase_truthy.
    assert (Ht : Js.truthy symbol = true) by (destruct symbol; [contradiction | reflexivity]).
    rewrite Ht. unfold id. rewrite toUpperCase_truthy, Ht. reflexivity. }
  split.
  { intros l'. unfold transferAction.token.
    destruct (transferAction.containsNative l'), (transferAction.containsNative promptLower);
      reflexivity. }
  assert (Hdata : forall d, transferAction.dataParam content = Some d ->
                    Js.startsWith d "0x" = true /\ d <> "0x").
  { intros d. unfold transferAction.dataParam.
    destruct (transferAction.tc_data content) as [d' | ]; [ | discriminate ].
    destruct (Js.truthy d'); cbn [andb]; [ | discriminate ].
    destruct (Js.startsWith d' "0x") eqn:Ep; cbn [andb]; [ | discriminate ].
    destruct (String.eqb d' "0x") eqn:Ez; cbn [negb]; [discriminate | ].
    intros [= <-]. split; [exact Ep | apply String.eqb_neq; exact Ez]. }
  split; [exact Hdata | ]. split.
  { unfold normalizedData. destruct (transferAction.dataParam content) as [d | ] eqn:Ed;
      [ | reflexivity ].
    destruct (Hdata d eq_refl) as [Hp _]. destruct (prefix_0x d Hp) as [rest ->].
    reflexivity. }
  split; [reflexivity | ].
  destruct (transferAction.containsBiteParam promptLower); reflexivity.
Qed.
